(** * Parquet import pipeline of the dataset UI: a shallow embedding

    The development follows three source files of the repository:
    - the API route behind [/api/datasets/importParquet] (reference parser,
      remote fetcher, content validator, file writer);
    - the stand-alone helper script [import-hf-parquet.mjs] (row loop,
      row extractor, secondary download);
    - the diagnostic script [verify-hf-parquet-download.mjs];
    and, in the last sections of Part I, the settings of the server
    ([settings.ts]: the cached folders and the token) and two helpers of the
    loss graph ([hashToIndex] with [strokeForKey], [getDatasetFromPath]).

    Conventions of the embedding.
    - A JavaScript string is a [string]; a character is a code unit below
      256 (Latin-1).  [trim] and [toLowerCase] are exact on that range.
    - A [Buffer] is a [list byte].
    - A thrown exception is the [Thrown] case of [outcome]; an [Error]
      object is its name and its message.
    - The file system is a finite map from absolute paths to nodes, where
      a file can only be written into a directory that exists; the network
      is a state threaded through every request.
    - A number is kept by what the script observes of it: whether it is
      falsy and what [String] prints for it.
    - Functions of Node's library that the code only calls ([path.join],
      [path.posix.basename], [zlib.gunzipSync], [crypto], the parquet
      decoder) are the fields of the class [NodeLib]; [fetch] is the field
      of the class [Network].  Every theorem holds for all their
      instances; the module [Sample] has one to run examples. *)

From Stdlib Require Import ZArith Strings.Ascii Strings.String Strings.Byte
  DecimalString DecimalNat.
From stdpp Require Import base option list gmap strings sorting.

(** * Part I: the embedding *)

(** ** JavaScript errors and results *)

Record JsError := mkError { err_name : string; err_message : string }.

(** [new Error(msg)] *)
Definition Error_ (msg : string) : JsError := mkError "Error" msg.

(** [String(e)] for an error object: [Error.prototype.toString]. *)
Definition String_of_error (e : JsError) : string :=
  if String.eqb (err_name e) "" then err_message e
  else if String.eqb (err_message e) "" then err_name e
  else err_name e +:+ ": " +:+ err_message e.

Inductive outcome (A : Type) : Type :=
| Returned (a : A)
| Thrown (e : JsError).
Arguments Returned {A} a.
Arguments Thrown {A} e.

Definition is_returned {A} (m : outcome A) : bool :=
  match m with Returned _ => true | Thrown _ => false end.

(** ** Strings *)

Module Str.

Definition code (c : ascii) : N := N_of_ascii c.

(** White space removed by [String.prototype.trim], below code 256. *)
Definition is_space (c : ascii) : bool :=
  let n := code c in
  ((9 <=? n)%N && (n <=? 13)%N) || (n =? 32)%N || (n =? 160)%N.

Fixpoint trimStart (s : string) : string :=
  match s with
  | String c s' => if is_space c then trimStart s' else s
  | EmptyString => EmptyString
  end.

Fixpoint trimEnd (s : string) : string :=
  match s with
  | String c s' =>
      match trimEnd s' with
      | EmptyString => if is_space c then EmptyString else String c EmptyString
      | t => String c t
      end
  | EmptyString => EmptyString
  end.

Definition trim (s : string) : string := trimEnd (trimStart s).

(** [toLowerCase] on one code unit below 256: A-Z, and the Latin-1
    capitals U+00C0..U+00DE except the multiplication sign. *)
Definition lower_char (c : ascii) : ascii :=
  let n := code c in
  if ((65 <=? n)%N && (n <=? 90)%N)
     || ((192 <=? n)%N && (n <=? 222)%N && negb (n =? 215)%N)
  then ascii_of_N (n + 32) else c.

Fixpoint toLowerCase (s : string) : string :=
  match s with
  | String c s' => String (lower_char c) (toLowerCase s')
  | EmptyString => EmptyString
  end.

(** [s.startsWith(p)], and the rest of [s] after [p]. *)
Fixpoint strip_prefix (p s : string) : option string :=
  match p, s with
  | EmptyString, _ => Some s
  | String a p', String b s' =>
      if Ascii.eqb a b then strip_prefix p' s' else None
  | String _ _, EmptyString => None
  end.

Definition startsWith (s p : string) : bool :=
  match strip_prefix p s with Some _ => true | None => false end.

(** [s.endsWith(p)]: [p] is [s] or ends the rest of [s]. *)
Fixpoint endsWith (s p : string) : bool :=
  String.eqb s p
  || match s with
     | String _ s' => endsWith s' p
     | EmptyString => false
     end.

(** [c] does not occur in [s]. *)
Fixpoint no_char (c : ascii) (s : string) : bool :=
  match s with
  | String x s' => negb (Ascii.eqb x c) && no_char c s'
  | EmptyString => true
  end.

(** [s.includes(p)] *)
Fixpoint includes (s p : string) : bool :=
  startsWith s p
  || match s with
     | String _ s' => includes s' p
     | EmptyString => false
     end.

(** [s.split(sep)] for a separator of one character. *)
Fixpoint split (sep : ascii) (s : string) : list string :=
  match s with
  | EmptyString => [EmptyString]
  | String c s' =>
      if Ascii.eqb c sep then EmptyString :: split sep s'
      else match split sep s' with
           | x :: xs => String c x :: xs
           | [] => [String c EmptyString]
           end
  end.

(** [parts.join(sep)] *)
Definition join (sep : string) (parts : list string) : string :=
  String.concat sep parts.

(** [parts.filter(Boolean)] on strings: the empty string is falsy. *)
Definition nonempty (s : string) : bool := negb (String.eqb s "").
Definition filter_Boolean (parts : list string) : list string :=
  List.filter nonempty parts.

(** The string begins with a white-space character. *)
Definition starts_with_space (s : string) : bool :=
  match s with
  | String c _ => is_space c
  | EmptyString => false
  end.

(** A path segment: not empty and without the separator. *)
Definition segment (s : string) : bool := nonempty s && no_char "/" s.

(** The string without its last character, and that character. *)
Fixpoint unsnoc (s : string) : option (string * ascii) :=
  match s with
  | String c s' =>
      match unsnoc s' with
      | Some (init, l) => Some (String c init, l)
      | None => Some (EmptyString, c)
      end
  | EmptyString => None
  end.

(** [s.slice(0, n)] *)
Definition slice_to (n : nat) (s : string) : string := String.substring 0 n s.

(** The part of [s] before its first white-space character: the first
    element of [s.split(/\s+/)]. *)
Fixpoint first_word (s : string) : string :=
  match s with
  | String c s' => if is_space c then EmptyString else String c (first_word s')
  | EmptyString => EmptyString
  end.

(** [p] begins [s] up to the case of letters; the rest of [s]. *)
Fixpoint strip_prefix_ci (p s : string) : option string :=
  match p, s with
  | EmptyString, _ => Some s
  | String a p', String b s' =>
      if Ascii.eqb (lower_char a) (lower_char b) then strip_prefix_ci p' s' else None
  | String _ _, EmptyString => None
  end.

(** The double quote and the line terminators. *)
Definition dquote : ascii := ascii_of_nat 34.
Definition is_line_terminator (c : ascii) : bool :=
  (code c =? 10)%N || (code c =? 13)%N.

Fixpoint no_line_terminator (s : string) : bool :=
  match s with
  | String c s' => negb (is_line_terminator c) && no_line_terminator s'
  | EmptyString => true
  end.

(** Two upper-case hexadecimal digits of a byte. *)
Definition hex_digit (n : N) : ascii :=
  if (n <? 10)%N then ascii_of_N (48 + n) else ascii_of_N (55 + n).

Definition percent_byte (n : N) : string :=
  String "%" (String (hex_digit (N.shiftr n 4)) (String (hex_digit (N.land n 15)) EmptyString)).

(** Decimal rendering of a number, as a template literal prints it. *)
Definition of_nat (n : nat) : string :=
  NilEmpty.string_of_uint (Nat.to_uint n).

End Str.

(** ** Buffers *)

Module Buf.

Definition buffer := list byte.

(** [buf.toString('ascii')]: Node clears the highest bit of every byte
    before it decodes the byte as Latin-1. *)
Definition ascii_char (b : byte) : ascii :=
  match ascii_of_byte b with
  | Ascii b0 b1 b2 b3 b4 b5 b6 _ => Ascii b0 b1 b2 b3 b4 b5 b6 false
  end.

Fixpoint toString_ascii (buf : buffer) : string :=
  match buf with
  | b :: buf' => String (ascii_char b) (toString_ascii buf')
  | [] => EmptyString
  end.

(** [buf.subarray(0, n)] and [buf.subarray(k)] for [0 <= k <= length]. *)
Definition subarray_to (n : nat) (buf : buffer) : buffer := take n buf.
Definition subarray_from (k : nat) (buf : buffer) : buffer := drop k buf.

(** The bytes of an ASCII literal. *)
Definition of_ascii_literal (s : string) : buffer := list_byte_of_string s.

(** [Buffer.from(s, 'utf8')] for a string of code units below 256. *)
Definition utf8_char (c : ascii) : buffer :=
  let n := N_of_ascii c in
  if (n <? 128)%N then [byte_of_ascii c]
  else [byte_of_ascii (ascii_of_N (192 + N.shiftr n 6));
        byte_of_ascii (ascii_of_N (128 + N.land n 63))].

Fixpoint from_utf8 (s : string) : buffer :=
  match s with
  | String c s' => utf8_char c ++ from_utf8 s'
  | EmptyString => []
  end.

End Buf.

(** ** Content validator: the magic check

    [isParquetBuffer] of the API route; [isParquet] of the diagnostic
    script has the same body. *)

Definition isParquetBuffer (buf : Buf.buffer) : bool :=
  if (length buf <? 8)%nat then false
  else String.eqb (Buf.toString_ascii (Buf.subarray_to 4 buf)) "PAR1"
       && String.eqb (Buf.toString_ascii (Buf.subarray_from (length buf - 4) buf)) "PAR1".

Definition isParquet (buf : Buf.buffer) : bool :=
  if (length buf <? 8)%nat then false
  else String.eqb (Buf.toString_ascii (Buf.subarray_to 4 buf)) "PAR1"
       && String.eqb (Buf.toString_ascii (Buf.subarray_from (length buf - 4) buf)) "PAR1".

Definition PAR1 : Buf.buffer := Buf.of_ascii_literal "PAR1".


(** A buffer whose first byte is [0xD0], that is ['P'] with its highest
    bit set. *)
Definition high_bit_marker : Buf.buffer :=
  [xd0; x41; x52; x31; x50; x41; x52; x31]%byte.

(** ** Reference parser *)

Inductive HFRepoType := auto | datasets | models.

#[global] Instance HFRepoType_eq_dec : EqDecision HFRepoType.
Proof. solve_decision. Defined.

Record HFParquetRef := mkRef {
  repoId : string;
  revision : string;
  filePath : string;
  repoType : HFRepoType;
}.

Definition msg_invalid_path : string :=
  "Invalid Hugging Face parquet path. Expected: org/repo/path/to/file.parquet".
Definition msg_invalid_url : string :=
  "Invalid Hugging Face parquet URL. Expected: .../(resolve|blob)/REVISION/path/to/file.parquet".
Definition msg_not_parquet : string :=
  "The Hugging Face file path must point to a .parquet file".

(** The strings matched by [/^https?:\/\/(www\.)?huggingface\.co\//], in
    the order in which the greedy optional groups try them. *)
Definition host_prefixes : list string :=
  [ "https://www.huggingface.co/"; "https://huggingface.co/";
    "http://www.huggingface.co/"; "http://huggingface.co/" ].

Fixpoint strip_first (ps : list string) (s : string) : string :=
  match ps with
  | p :: ps' =>
      match Str.strip_prefix p s with
      | Some rest => rest
      | None => strip_first ps' s
      end
  | [] => s
  end.

Definition strip_host (s : string) : string := strip_first host_prefixes s.

(** [x || d] on a possibly undefined string. *)
Definition or_default (x : option string) (d : string) : string :=
  match x with
  | Some s => if Str.nonempty s then s else d
  | None => d
  end.

(** [`${x}`] on a possibly undefined string. *)
Definition tmpl (x : option string) : string := default "undefined" x.

(** [x === lit] on a possibly undefined string. *)
Definition is_lit (x : option string) (lit : string) : bool :=
  match x with Some s => String.eqb s lit | None => false end.

(** [input.split('/').filter(Boolean)] after the trim and the host strip. *)
Definition segments (inputRaw : string) : list string :=
  Str.filter_Boolean (Str.split "/" (strip_host (Str.trim inputRaw))).

(** The index [i] after the optional [datasets] keyword. *)
Definition keyword_offset (parts : list string) : nat :=
  if is_lit (parts !! 0%nat) "datasets" then 1 else 0.

Definition isResolveOrBlob (parts : list string) : bool :=
  let i := keyword_offset parts in
  is_lit (parts !! (i + 2)%nat) "resolve" || is_lit (parts !! (i + 2)%nat) "blob".

(** The block that supports [org/repo@revision/...]: the pair of [repo]
    and [revision] after it. *)
Definition split_revision (repoWithMaybeRevision : string) : string * string :=
  if Str.includes repoWithMaybeRevision "@" then
    let pieces := Str.split "@" repoWithMaybeRevision in
    (or_default (pieces !! 0%nat) repoWithMaybeRevision,
     or_default (pieces !! 1%nat) "main")
  else (repoWithMaybeRevision, "main").

(** The body of [parseHFParquetPath] once [parts] is computed. *)
Definition parse_parts (parts : list string) : outcome HFParquetRef :=
  if (length parts <? 3)%nat then Thrown (Error_ msg_invalid_path)
  else
    let repoType0 := if is_lit (parts !! 0%nat) "datasets" then datasets else auto in
    let i := keyword_offset parts in
    if isResolveOrBlob parts then
      if (length parts <? i + 5)%nat then Thrown (Error_ msg_invalid_url)
      else
        let org := parts !! i in
        let repo := parts !! (i + 1)%nat in
        let revision := or_default (parts !! (i + 3)%nat) "main" in
        let filePath := Str.join "/" (drop (i + 4) parts) in
        if negb (Str.endsWith (Str.toLowerCase filePath) ".parquet")
        then Thrown (Error_ msg_not_parquet)
        else
          let finalRepoType :=
            match repoType0 with auto => models | t => t end in
          Returned (mkRef (tmpl org +:+ "/" +:+ tmpl repo) revision filePath finalRepoType)
    else
      if (length parts <? i + 3)%nat then Thrown (Error_ msg_invalid_path)
      else
        let org := parts !! i in
        let repoWithMaybeRevision := default "" (parts !! (i + 1)%nat) in
        let '(repo, revision) := split_revision repoWithMaybeRevision in
        let filePath := Str.join "/" (drop (i + 2) parts) in
        if negb (Str.endsWith (Str.toLowerCase filePath) ".parquet")
        then Thrown (Error_ msg_not_parquet)
        else Returned (mkRef (tmpl org +:+ "/" +:+ repo) revision filePath repoType0).

Definition parseHFParquetPath (inputRaw : string) : outcome HFParquetRef :=
  parse_parts (segments inputRaw).

(** The last segment, for the suffix test. *)
Definition trailing_segment (parts : list string) : string :=
  default "" (last parts).

(** The input shapes of one resource [org/repo], revision [rev], file path
    [file] (its segments). *)
Module Shapes.

Definition bare (org repo : string) (file : list string) : string :=
  Str.join "/" (org :: repo :: file).

Definition at_revision (org repo rev : string) (file : list string) : string :=
  Str.join "/" (org :: (repo +:+ "@" +:+ rev) :: file).

Definition prefixed (org repo : string) (file : list string) : string :=
  Str.join "/" ("datasets" :: org :: repo :: file).

Definition prefixed_at_revision (org repo rev : string) (file : list string) : string :=
  Str.join "/" ("datasets" :: org :: (repo +:+ "@" +:+ rev) :: file).

Definition url (lit org repo rev : string) (file : list string) : string :=
  "https://huggingface.co/" +:+ Str.join "/" (org :: repo :: lit :: rev :: file).

Definition url_prefixed (lit org repo rev : string) (file : list string) : string :=
  "https://huggingface.co/"
  +:+ Str.join "/" ("datasets" :: org :: repo :: lit :: rev :: file).

End Shapes.

(** ** JavaScript values and the decoded table *)

(** A number, by what the script can observe of it: whether it is falsy
    ([0], [-0] or [NaN]) and what [String] prints for it ([42], [0.5],
    [1e+21], [NaN]).  Every number of JavaScript is one of these pairs. *)
Record number := mkNumber {
  num_falsy : bool;
  num_String : string;
}.

(** The values that a cell of the table can hold. *)
Inductive value :=
| VUndefined
| VNull
| VBool (b : bool)
| VNumber (n : number)
| VString (s : string)
| VBuffer (b : Buf.buffer)
| VUint8Array (b : Buf.buffer)
| VArrayBuffer (b : Buf.buffer)
| VObject (fields : list (string * value))
| VMap (entries : list (string * value)).

(** The decoded table, as the helper script reads it: the names of the
    schema fields, the number of rows, and [getChild(name).get(idx)]. *)
Record Table := mkTable {
  columnNames : list string;
  numRows : nat;
  cell : string -> nat -> value;
}.

(** ** Node's library, as far as the code calls it

    [path_join] is [path.join], [posix_basename] and [posix_extname] are
    [path.posix.basename] and [path.posix.extname], [md5Hex_digest] is the
    hexadecimal MD5 digest, [gunzipSync] is [zlib.gunzipSync] (it throws on
    malformed input), [fileTypeFromBuffer] is the sniffing of the
    [file-type] package: the extension it detects, if any,
    [toString_utf8] is [buf.toString('utf8')], [JSON_stringify] is
    [JSON.stringify] on a string, [initSync_wasm] is the loading of the
    decoder ([require.resolve], reading the wasm file, [initSync]),
    [decodeParquet] is the decoding of the parquet bytes into an Arrow
    table ([readParquet], [intoIPCStream], [tableFromIPC]). *)

Class NodeLib := {
  path_join : string -> string -> string;
  posix_basename : string -> string;
  posix_extname : string -> string;
  md5Hex_digest : Buf.buffer -> string;
  gunzipSync : Buf.buffer -> outcome Buf.buffer;
  fileTypeFromBuffer : Buf.buffer -> outcome (option string);
  toString_utf8 : Buf.buffer -> string;
  JSON_stringify : string -> string;
  initSync_wasm : outcome unit;
  decodeParquet : Buf.buffer -> outcome Table;
}.

(** ** File system *)

Inductive node :=
| File (content : Buf.buffer)
| Dir.

Abbreviation filesystem := (gmap string node).

(** [fs.existsSync(p)] *)
Definition existsSync (fs : filesystem) (p : string) : bool :=
  match fs !! p with
  | Some _ => true
  | None => false
  end.

Definition msg_eisdir (p : string) : string :=
  "EISDIR: illegal operation on a directory, open '" +:+ p +:+ "'".

Definition msg_enoent (p : string) : string :=
  "ENOENT: no such file or directory, open '" +:+ p +:+ "'".

Definition msg_enotdir (p : string) : string :=
  "ENOTDIR: not a directory, open '" +:+ p +:+ "'".

(** The directory that holds the path [p], for an absolute path as the
    file system keeps it: the text before its last slash, the root [/] for
    a path directly under the root. *)
Definition parent_of (p : string) : string :=
  let d := Str.join "/" (removelast (Str.split "/" p)) in
  if Str.nonempty d then d else "/".

(** [fs.writeFileSync(p, data)]: creates or replaces the file in a
    directory that exists; fails when the directory is missing ([ENOENT]),
    when it is a file ([ENOTDIR]), and when [p] itself is a directory
    ([EISDIR]). *)
Definition writeFileSync (fs : filesystem) (p : string) (data : Buf.buffer)
  : outcome filesystem :=
  match fs !! parent_of p with
  | None => Thrown (mkError "Error" (msg_enoent p))
  | Some (File _) => Thrown (mkError "Error" (msg_enotdir p))
  | Some Dir =>
      match fs !! p with
      | Some Dir => Thrown (mkError "Error" (msg_eisdir p))
      | _ => Returned (<[p := File data]> fs)
      end
  end.

(** [fs.readFileSync(p)] *)
Definition readFileSync (fs : filesystem) (p : string) : outcome Buf.buffer :=
  match fs !! p with
  | Some (File data) => Returned data
  | Some Dir => Thrown (mkError "Error" (msg_eisdir p))
  | None => Thrown (mkError "Error" (msg_enoent p))
  end.

(** ** File writer *)

(** The characters kept by [/[^a-zA-Z0-9._-]/g]. *)
Definition is_safe_char (c : ascii) : bool :=
  let n := Str.code c in
  ((97 <=? n)%N && (n <=? 122)%N)
  || ((65 <=? n)%N && (n <=? 90)%N)
  || ((48 <=? n)%N && (n <=? 57)%N)
  || (n =? 46)%N || (n =? 95)%N || (n =? 45)%N.

Fixpoint sanitizeFileName (fileName : string) : string :=
  match fileName with
  | String c s => String (if is_safe_char c then c else "_"%char) (sanitizeFileName s)
  | EmptyString => EmptyString
  end.

Definition msg_no_unique : string :=
  "Unable to find a unique filename after many attempts".

(** The bound of the loop [for (let i = 1; i < 10_000; i++)]. *)
Definition attempt_bound : nat := 10000.

Section FileWriter.

Context `{NodeLib}.

Definition safeBase_of (baseName : string) : string := sanitizeFileName baseName.

Definition safeExt_of (extensionWithDot : string) : string :=
  sanitizeFileName
    (if Str.startsWith extensionWithDot "." then extensionWithDot
     else "." +:+ extensionWithDot).

(** The first candidate, and the candidate of the loop at index [i]. *)
Definition plain_candidate (dir baseName extensionWithDot : string) : string :=
  path_join dir (safeBase_of baseName +:+ safeExt_of extensionWithDot).

Definition suffixed_candidate (dir baseName extensionWithDot : string) (i : nat)
  : string :=
  path_join dir (safeBase_of baseName +:+ "_" +:+ Str.of_nat i
                 +:+ safeExt_of extensionWithDot).

(** The loop, from index [i], for [n] more iterations. *)
Fixpoint uniquePath_loop (fs : filesystem) (dir baseName extensionWithDot : string)
  (n i : nat) : option string :=
  match n with
  | O => None
  | S n' =>
      let candidate := suffixed_candidate dir baseName extensionWithDot i in
      if negb (existsSync fs candidate) then Some candidate
      else uniquePath_loop fs dir baseName extensionWithDot n' (S i)
  end.

Definition uniquePath (fs : filesystem) (dir baseName extensionWithDot : string)
  : outcome string :=
  let candidate := plain_candidate dir baseName extensionWithDot in
  if negb (existsSync fs candidate) then Returned candidate
  else
    match uniquePath_loop fs dir baseName extensionWithDot (attempt_bound - 1) 1 with
    | Some candidate => Returned candidate
    | None => Thrown (Error_ msg_no_unique)
    end.

End FileWriter.

(** ** Network and effects *)

Record Headers := mkHeaders {
  h_user_agent : string;
  h_accept : string;
  h_authorization : option string;
}.

(** What the code reads of a [Response]. *)
Record Response := mkResponse {
  res_status : nat;
  res_statusText : string;
  res_url : string;
  res_content_type : option string;
  res_content_encoding : option string;
  res_x_error_message : option string;
  res_arrayBuffer : outcome Buf.buffer;
  res_text : outcome string;
}.

(** [res.ok] *)
Definition res_ok (r : Response) : bool :=
  (200 <=? res_status r)%nat && (res_status r <=? 299)%nat.

(** The remote side: [fetch] answers a request with a response or rejects,
    and moves to a next state. *)
Class Network := {
  net : Type;
  fetch : net -> string -> Headers -> outcome Response * net;
}.

(** One request with its answer, as the run performed it. *)
Record Exchange := mkExchange {
  ex_url : string;
  ex_authorization : option string;
  ex_result : outcome Response;
}.

Section Effects.

Context `{Network}.

(** The world of a run: the remote side, the requests performed so far
    (oldest first) and the file system. *)
Record World := mkWorld {
  w_net : net;
  w_log : list Exchange;
  w_fs : filesystem;
}.

(** A computation that may throw and changes the world either way. *)
Definition M (A : Type) : Type := World -> outcome A * World.

Definition ret {A} (a : A) : M A := fun w => (Returned a, w).

Definition throw {A} (e : JsError) : M A := fun w => (Thrown e, w).

Definition bind {A B} (m : M A) (k : A -> M B) : M B :=
  fun w =>
    match m w with
    | (Returned a, w') => k a w'
    | (Thrown e, w') => (Thrown e, w')
    end.

(** [try { m } catch (e) { h(e) }] *)
Definition try_catch {A} (m : M A) (h : JsError -> M A) : M A :=
  fun w =>
    match m w with
    | (Returned a, w') => (Returned a, w')
    | (Thrown e, w') => h e w'
    end.

Definition lift {A} (o : outcome A) : M A := fun w => (o, w).

(** [await fetch(url, { headers, redirect: 'follow' })] *)
Definition do_fetch (url : string) (headers : Headers) : M Response :=
  fun w =>
    let '(r, n') := fetch (w_net w) url headers in
    (r, mkWorld n' (w_log w ++ [mkExchange url (h_authorization headers) r]) (w_fs w)).

End Effects.

Notation "'let*' x := m 'in' k" := (bind m (fun x => k))
  (at level 10, x name, m at level 100, k at level 200).

(** ** Remote fetcher of the API route *)

(** [encodeURIComponent] on code units below 256: letters, digits and
    [-_.!~*'()] stay, every other character becomes the percent-encoded
    bytes of its UTF-8 form. *)
Definition is_unreserved (c : ascii) : bool :=
  let n := Str.code c in
  ((97 <=? n)%N && (n <=? 122)%N)
  || ((65 <=? n)%N && (n <=? 90)%N)
  || ((48 <=? n)%N && (n <=? 57)%N)
  || (n =? 45)%N || (n =? 95)%N || (n =? 46)%N || (n =? 33)%N
  || (n =? 126)%N || (n =? 42)%N || (n =? 39)%N || (n =? 40)%N || (n =? 41)%N.

Definition encode_char (c : ascii) : string :=
  let n := Str.code c in
  if is_unreserved c then String c EmptyString
  else if (n <? 128)%N then Str.percent_byte n
  else Str.percent_byte (192 + N.shiftr n 6) +:+ Str.percent_byte (128 + N.land n 63).

Fixpoint encodeURIComponent (s : string) : string :=
  match s with
  | String c s' => encode_char c +:+ encodeURIComponent s'
  | EmptyString => EmptyString
  end.

Definition encodeHFPath (p : string) : string :=
  Str.join "/" (List.map encodeURIComponent (Str.filter_Boolean (Str.split "/" p))).

(** The replacement of [/^Bearer\s+/i] by the empty string. *)
Definition strip_bearer (s : string) : string :=
  match Str.strip_prefix_ci "Bearer" s with
  | Some rest => if Str.starts_with_space rest then Str.trimStart rest else s
  | None => s
  end.

(** The replacement of [/^q(.+)q$/] by its group, for a quote [q]. *)
Definition unquote (q : ascii) (s : string) : string :=
  match s with
  | String c rest =>
      match Str.unsnoc rest with
      | Some (inner, l) =>
          if Ascii.eqb c q && Ascii.eqb l q && Str.nonempty inner
             && Str.no_line_terminator inner
          then inner else s
      | None => s
      end
  | EmptyString => s
  end.

(** The token as both download functions clean it:
    [trim], strip [Bearer], strip quotes, keep the first word. *)
Definition sanitizeToken (raw : string) : string :=
  Str.first_word (unquote "'" (unquote Str.dquote (strip_bearer (Str.trim raw)))).

(** [getHFToken] of the settings: the value of the [HF_TOKEN] row, if any. *)
Definition getHFToken (row_value : option string) : string :=
  Str.trim (or_default row_value "").

Definition baseHeaders : Headers := mkHeaders "ai-toolkit" "*/*" None.

Definition headersWithAuth_of (token : string) : Headers :=
  if Str.nonempty token
  then mkHeaders "ai-toolkit" "*/*" (Some ("Bearer " +:+ token))
  else baseHeaders.

Record HFDownloadOk := mkOk {
  ok_buf : Buf.buffer;
  ok_status : nat;
  ok_statusText : string;
  ok_url : string;
  ok_finalUrl : string;
  ok_contentType : option string;
  ok_contentEncoding : option string;
}.

Record HFDownloadErr := mkErr {
  er_status : nat;
  er_statusText : string;
  er_url : string;
  er_hfErrorMessage : string;
  er_bodyPreview : string;
}.

Inductive HFDownloadAttempt :=
| AttemptOk (a : HFDownloadOk)
| AttemptErr (a : HFDownloadErr).

Definition attempt_url (a : HFDownloadAttempt) : string :=
  match a with AttemptOk o => ok_url o | AttemptErr e => er_url e end.
Definition attempt_status (a : HFDownloadAttempt) : nat :=
  match a with AttemptOk o => ok_status o | AttemptErr e => er_status e end.
Definition attempt_statusText (a : HFDownloadAttempt) : string :=
  match a with AttemptOk o => ok_statusText o | AttemptErr e => er_statusText e end.

(** [a || b] on strings. *)
Definition str_or (a b : string) : string := if Str.nonempty a then a else b.

Definition buildUrl (repoId rev fp : string) (type : HFRepoType) : string :=
  match type with
  | datasets =>
      "https://huggingface.co/datasets/" +:+ repoId +:+ "/resolve/" +:+ rev +:+ "/" +:+ fp
  | _ => "https://huggingface.co/" +:+ repoId +:+ "/resolve/" +:+ rev +:+ "/" +:+ fp
  end.

Definition withDownloadQuery (url : string) : string :=
  if Str.includes url "?" then url +:+ "&download=true" else url +:+ "?download=true".

(** What [tryFetch] makes of a response. *)
Definition err_of_response (url : string) (res : Response) : HFDownloadErr :=
  let text := match res_text res with Returned t => t | Thrown _ => "" end in
  let hfErr := or_default (res_x_error_message res) "" in
  mkErr (res_status res) (res_statusText res) url hfErr (Str.slice_to 300 text).

Definition ok_of_response (url : string) (res : Response) (arr : Buf.buffer)
  : HFDownloadOk :=
  mkOk arr (res_status res) (res_statusText res) url (str_or (res_url res) url)
       (res_content_type res) (res_content_encoding res).

Definition formatAttempt (label : string) (a : HFDownloadAttempt) : string :=
  let extra :=
    match a with
    | AttemptErr e =>
        Str.join " | "
          (Str.filter_Boolean
             [ if Str.nonempty (er_hfErrorMessage e)
               then "x-error-message: " +:+ er_hfErrorMessage e else "";
               if Str.nonempty (er_bodyPreview e) then er_bodyPreview e else "" ])
    | AttemptOk _ => ""
    end in
  "- " +:+ label +:+ ": " +:+ attempt_url a +:+ " -> "
  +:+ Str.of_nat (attempt_status a) +:+ " " +:+ attempt_statusText a
  +:+ (if Str.nonempty extra then " (" +:+ extra +:+ ")" else "").

Definition msg_download_failed (out : HFDownloadErr) : string :=
  "Failed to download from Hugging Face (" +:+ Str.of_nat (er_status out) +:+ " "
  +:+ er_statusText out +:+ ") at " +:+ er_url out +:+ ": "
  +:+ str_or (er_hfErrorMessage out) (str_or (er_bodyPreview out) "").

Definition newline : string := String (ascii_of_nat 10) EmptyString.

Definition msg_download_failed_auto (datasetAttempt modelAttempt : HFDownloadErr) : string :=
  "Failed to download from Hugging Face. Tried:" +:+ newline
  +:+ formatAttempt "datasets" (AttemptErr datasetAttempt) +:+ newline
  +:+ formatAttempt "models" (AttemptErr modelAttempt) +:+ newline
  +:+ newline
  +:+ "If the file downloads in your browser but fails here, it usually means the server is not receiving a valid HF token. "
  +:+ "Please re-save HF_TOKEN in Settings (paste the raw "
  +:+ String Str.dquote "hf_..." +:+ String Str.dquote " token, no quotes).".

(** What [tryFetch] returns, from the answer of the remote side. *)
Definition attempt_of (url : string) (o : outcome Response) : outcome HFDownloadAttempt :=
  match o with
  | Thrown e => Thrown e
  | Returned res =>
      if res_ok res then
        match res_arrayBuffer res with
        | Returned arr => Returned (AttemptOk (ok_of_response url res arr))
        | Thrown e => Thrown e
        end
      else Returned (AttemptErr (err_of_response url res))
  end.

Section RouteFetcher.

Context `{Network}.

Definition tryFetch (url : string) (headers : Headers) : M HFDownloadAttempt :=
  let* res := do_fetch url headers in
  if res_ok res then
    let* arr := lift (res_arrayBuffer res) in
    ret (AttemptOk (ok_of_response url res arr))
  else ret (AttemptErr (err_of_response url res)).

Definition attemptOnce (u : string) (headers : Headers) : M HFDownloadAttempt :=
  tryFetch u headers.

(** The loop [for (const u of candidates)] with a token: [Some] is the
    early return. *)
Fixpoint auth_loop (token : string) (candidates : list string)
  : M (option HFDownloadAttempt) :=
  match candidates with
  | u :: rest =>
      let* attemptAuth := attemptOnce u (headersWithAuth_of token) in
      match attemptAuth with
      | AttemptOk _ => ret (Some attemptAuth)
      | AttemptErr _ =>
          let* attemptNoAuth := attemptOnce u baseHeaders in
          match attemptNoAuth with
          | AttemptOk _ => ret (Some attemptNoAuth)
          | AttemptErr _ => auth_loop token rest
          end
      end
  | [] => ret None
  end.

(** The loop without a token. *)
Fixpoint plain_loop (candidates : list string) : M (option HFDownloadAttempt) :=
  match candidates with
  | u :: rest =>
      let* out := attemptOnce u baseHeaders in
      match out with
      | AttemptOk _ => ret (Some out)
      | AttemptErr _ => plain_loop rest
      end
  | [] => ret None
  end.

Definition tryWithFallbackAuth (token url : string) : M HFDownloadAttempt :=
  let candidates := [url; withDownloadQuery url] in
  if Str.nonempty token then
    let* found := auth_loop token candidates in
    match found with
    | Some a => ret a
    | None => tryFetch (withDownloadQuery url) (headersWithAuth_of token)
    end
  else
    let* found := plain_loop candidates in
    match found with
    | Some a => ret a
    | None => tryFetch (withDownloadQuery url) baseHeaders
    end.

Definition downloadHFFile (hf_token_row : option string)
  (repoId revision filePath : string) (repoType : HFRepoType) : M HFDownloadOk :=
  let token := sanitizeToken (str_or (getHFToken hf_token_row) "") in
  let rev := encodeURIComponent (str_or revision "main") in
  let fp := encodeHFPath filePath in
  match repoType with
  | auto =>
      let* datasetAttempt := tryWithFallbackAuth token (buildUrl repoId rev fp datasets) in
      match datasetAttempt with
      | AttemptOk o => ret o
      | AttemptErr d =>
          let* modelAttempt := tryWithFallbackAuth token (buildUrl repoId rev fp models) in
          match modelAttempt with
          | AttemptOk o => ret o
          | AttemptErr m => throw (Error_ (msg_download_failed_auto d m))
          end
      end
  | _ =>
      let url := buildUrl repoId rev fp repoType in
      let* out := tryWithFallbackAuth token url in
      match out with
      | AttemptOk o => ret o
      | AttemptErr e => throw (Error_ (msg_download_failed e))
      end
  end.

End RouteFetcher.

(** ** Content validator of the API route *)

Section Validator.

Context `{NodeLib} `{Network}.

Definition looksLikeGitLFSPointer (buf : Buf.buffer) : bool :=
  let head := toString_utf8 (Buf.subarray_to 200 buf) in
  Str.startsWith head "version https://git-lfs.github.com/spec/v1".

Definition looksLikeHtml (buf : Buf.buffer) : bool :=
  let head := Str.toLowerCase (Str.trimStart (toString_utf8 (Buf.subarray_to 300 buf))) in
  Str.startsWith head "<!doctype html" || Str.startsWith head "<html"
  || Str.includes head "<head".

(** The test of [maybeGunzip] on the declared encoding and type. *)
Definition declares_gzip (contentEncoding contentType : option string) : bool :=
  let enc := Str.toLowerCase (or_default contentEncoding "") in
  let ct := Str.toLowerCase (or_default contentType "") in
  Str.includes enc "gzip" || Str.includes ct "gzip" || Str.includes ct "application/gzip".

Definition maybeGunzip (buf : Buf.buffer) (contentEncoding contentType : option string)
  : Buf.buffer :=
  if declares_gzip contentEncoding contentType then
    match gunzipSync buf with
    | Returned out => out
    | Thrown _ => buf
    end
  else buf.

Definition msg_invalid_parquet (out : HFDownloadOk) (buf : Buf.buffer) : string :=
  let preview := toString_utf8 (Buf.subarray_to 400 buf) in
  let hints :=
    (if looksLikeGitLFSPointer buf
     then ["The downloaded file looks like a Git-LFS pointer (not the actual parquet)."]
     else [])
    ++ (if looksLikeHtml buf
        then ["The downloaded file looks like HTML (likely a login/404 page)."]
        else [])
    ++ (if Str.includes (or_default (ok_contentType out) "") "text/html"
        then ["content-type=" +:+ tmpl (ok_contentType out)]
        else []) in
  "Invalid parquet file received from Hugging Face." +:+ newline
  +:+ "Requested: " +:+ ok_url out +:+ newline
  +:+ "Final URL: " +:+ ok_finalUrl out +:+ newline
  +:+ "content-type: " +:+ or_default (ok_contentType out) "unknown" +:+ newline
  +:+ (match hints with
       | [] => ""
       | _ => "Hint: " +:+ Str.join " " hints +:+ newline
       end)
  +:+ "First bytes preview: " +:+ JSON_stringify (Str.slice_to 300 preview).

(** What [downloadHFFileAsBuffer] does with a successful download. *)
Definition validate_download (expectParquet : bool) (out : HFDownloadOk)
  : outcome Buf.buffer :=
  let buf := maybeGunzip (ok_buf out) (ok_contentEncoding out) (ok_contentType out) in
  if expectParquet && negb (isParquetBuffer buf)
  then Thrown (Error_ (msg_invalid_parquet out buf))
  else Returned buf.

Definition downloadHFFileAsBuffer (hf_token_row : option string)
  (repoId revision filePath : string) (repoType : HFRepoType) (expectParquet : bool)
  : M Buf.buffer :=
  let* out := downloadHFFile hf_token_row repoId revision filePath repoType in
  lift (validate_download expectParquet out).

End Validator.

(** ** Download of the helper script *)

Definition msg_hf_download_failed (res : Response) : string :=
  let text := match res_text res with Returned t => t | Thrown _ => "" end in
  "HF download failed (" +:+ Str.of_nat (res_status res) +:+ " "
  +:+ res_statusText res +:+ "): " +:+ Str.slice_to 200 text.

(** What the [tryFetch] of the helper returns, from the answer of the
    remote side. *)
Definition helper_result_of (o : outcome Response) : outcome Buf.buffer :=
  match o with
  | Thrown e => Thrown e
  | Returned res =>
      if negb (res_ok res) then Thrown (Error_ (msg_hf_download_failed res))
      else res_arrayBuffer res
  end.

Section HelperFetcher.

Context `{Network}.

Definition helper_buildUrl (repoId rev fp type : string) : string :=
  if String.eqb type "datasets" then
    "https://huggingface.co/datasets/" +:+ repoId +:+ "/resolve/" +:+ rev +:+ "/" +:+ fp
    +:+ "?download=true"
  else
    "https://huggingface.co/" +:+ repoId +:+ "/resolve/" +:+ rev +:+ "/" +:+ fp
    +:+ "?download=true".

Definition helper_tryFetch (url : string) (headers : Headers) : M Buf.buffer :=
  let* res := do_fetch url headers in
  if negb (res_ok res) then throw (Error_ (msg_hf_download_failed res))
  else lift (res_arrayBuffer res).

Definition tryRepoType (cleanToken repoId rev fp type : string) : M Buf.buffer :=
  let url := helper_buildUrl repoId rev fp type in
  if Str.nonempty cleanToken then
    try_catch (helper_tryFetch url (headersWithAuth_of cleanToken))
              (fun _ => helper_tryFetch url baseHeaders)
  else helper_tryFetch url baseHeaders.

Definition helper_downloadHFFileAsBuffer
  (repoId revision filePath repoType token : string) : M Buf.buffer :=
  let cleanToken := sanitizeToken (str_or token "") in
  let rev := encodeURIComponent (str_or revision "main") in
  let fp := encodeHFPath filePath in
  if String.eqb repoType "datasets" || String.eqb repoType "models" then
    tryRepoType cleanToken repoId rev fp repoType
  else
    try_catch (tryRepoType cleanToken repoId rev fp "datasets")
              (fun _ => tryRepoType cleanToken repoId rev fp "models").

End HelperFetcher.

(** ** Row extractor and import loop of the helper script *)

Module Js.

(** [!v] is [negb (truthy v)]. *)
Definition truthy (v : value) : bool :=
  match v with
  | VUndefined | VNull => false
  | VBool b => b
  | VNumber n => negb (num_falsy n)
  | VString s => Str.nonempty s
  | _ => true
  end.

(** [v != null] *)
Definition not_nullish (v : value) : bool :=
  match v with
  | VUndefined | VNull => false
  | _ => true
  end.

(** [a ?? b] *)
Definition coalesce (a b : value) : value := if not_nullish a then a else b.

Fixpoint assoc (key : string) (l : list (string * value)) : value :=
  match l with
  | (k, v) :: l' => if String.eqb k key then v else assoc key l'
  | [] => VUndefined
  end.

(** [v?.key] and [v[key]] for one of the keys the code reads, none of
    which is a property of a string, a buffer or a [Map]. *)
Definition prop (v : value) (key : string) : value :=
  match v with
  | VObject fields => assoc key fields
  | _ => VUndefined
  end.

End Js.

Record Args := mkArgs {
  arg_datasetDir : option string;
  arg_parquetFile : option string;
  arg_repoId : option string;
  arg_revision : option string;
  arg_repoType : option string;
  arg_hfToken : option string;
}.

Record RowError := mkRowError { row : nat; error : string }.

Record Summary := mkSummary {
  imported : nat;
  skipped : nat;
  errors : list RowError;
}.

(** How the body of the loop ends when it does not throw: at [imported++]
    or at [continue] after [skipped++]. *)
Inductive RowEnd := RowImported | RowSkipped.

Definition msg_missing_args : string :=
  "Missing required args: --datasetDir and --parquetFile".
Definition msg_no_image_bytes : string :=
  "Could not extract image bytes from parquet row (expected image.bytes or image.path)".

(** [e?.message || String(e)] *)
Definition error_text (e : JsError) : string :=
  str_or (err_message e) (String_of_error e).

(** [s.replace(/\.[^/.]+$/, '')] *)
Fixpoint strip_extension (s : string) : string :=
  match s with
  | String c s' =>
      if Ascii.eqb c "." && Str.nonempty s' && Str.no_char "." s' && Str.no_char "/" s'
      then EmptyString
      else String c (strip_extension s')
  | EmptyString => EmptyString
  end.

(** [ext.replace(/^\./, '')] *)
Definition strip_leading_dot (s : string) : string :=
  match s with
  | String c s' => if Ascii.eqb c "." then s' else s
  | EmptyString => EmptyString
  end.

Definition getSidecarCaptionPath (imageAbsPath : string) : string :=
  strip_extension imageAbsPath +:+ ".txt".

Section Helper.

Context `{NodeLib} `{Network}.

(** [String(v)] *)
Definition js_String (v : value) : string :=
  match v with
  | VUndefined => "undefined"
  | VNull => "null"
  | VBool b => if b then "true" else "false"
  | VNumber n => num_String n
  | VString s => s
  | VBuffer b => toString_utf8 b
  | VUint8Array b =>
      Str.join "," (List.map (fun x => Str.of_nat (N.to_nat (Byte.to_N x))) b)
  | VArrayBuffer _ => "[object ArrayBuffer]"
  | VObject _ => "[object Object]"
  | VMap _ => "[object Map]"
  end.

Definition md5Hex (buf : Buf.buffer) : string := md5Hex_digest buf.

Definition getRow (table : Table) (idx : nat) : value :=
  VObject (List.map (fun name => (name, cell table name idx)) (columnNames table)).

Definition pickCaptionColumn (row : value) : option string :=
  if Js.not_nullish (Js.prop row "text") then Some (js_String (Js.prop row "text"))
  else if Js.not_nullish (Js.prop row "caption") then Some (js_String (Js.prop row "caption"))
  else None.

Definition pickImageColumn (row : value) : value := Js.prop row "image".

Definition getStructField (val : value) (key : string) : value :=
  if negb (Js.truthy val) then VNull
  else match val with
       | VMap entries => Js.assoc key entries
       | VObject fields => Js.assoc key fields
       | VBuffer _ | VUint8Array _ | VArrayBuffer _ => VUndefined
       | _ => VNull
       end.

Definition coerceToBuffer (v : value) : option Buf.buffer :=
  if negb (Js.truthy v) then None
  else match v with
       | VBuffer b => Some b
       | VUint8Array b => Some b
       | VArrayBuffer b => Some b
       | VString s => Some (Buf.from_utf8 s)
       | _ => None
       end.

Definition inferExtensionFromBytes (imageBytes : Buf.buffer) : option string :=
  match fileTypeFromBuffer imageBytes with
  | Returned (Some ext) => if Str.nonempty ext then Some ext else None
  | Returned None => None
  | Thrown _ => None
  end.

Definition m_uniquePath (dir baseName extensionWithDot : string) : M string :=
  fun w => (uniquePath (w_fs w) dir baseName extensionWithDot, w).

Definition m_writeFileSync (p : string) (data : Buf.buffer) : M unit :=
  fun w =>
    match writeFileSync (w_fs w) p data with
    | Returned fs' => (Returned tt, mkWorld (w_net w) (w_log w) fs')
    | Thrown e => (Thrown e, w)
    end.

Definition m_readFileSync (p : string) : M Buf.buffer :=
  fun w => (readFileSync (w_fs w) p, w).

(** The base name and the extension that the path hint gives, if any. *)
Definition names_of_hint (imagePathHint : string) : option string * option string :=
  if Str.nonempty imagePathHint then
    let bn := posix_basename imagePathHint in
    if Str.nonempty bn && negb (String.eqb bn ".") && negb (String.eqb bn "/") then
      let ext := posix_extname bn in
      (Some (strip_extension bn),
       if Str.nonempty ext then Some (strip_leading_dot ext) else None)
    else (None, None)
  else (None, None).

(** The bytes of the image: embedded, or downloaded when the row only has a
    path and the repository is known. *)
Definition imageBytes_of (args : Args) (env_HF_TOKEN : option string) (imageValue : value)
  : M (option Buf.buffer) :=
  let imageBytesValue :=
    Js.coalesce (Js.coalesce (getStructField imageValue "bytes")
                             (getStructField imageValue "data")) VNull in
  let imageBytes := coerceToBuffer imageBytesValue in
  let imagePathInRepo := getStructField imageValue "path" in
  match imageBytes with
  | None =>
      if Js.truthy imagePathInRepo && Str.nonempty (or_default (arg_repoId args) "") then
        let token := or_default (arg_hfToken args) (or_default env_HF_TOKEN "") in
        let* buf :=
          helper_downloadHFFileAsBuffer
            (tmpl (arg_repoId args))
            (or_default (arg_revision args) "main")
            (js_String imagePathInRepo)
            (or_default (arg_repoType args) "auto")
            token in
        ret (Some buf)
      else ret None
  | Some b => ret (Some b)
  end.

(** The body of the [try] block for the row of index [rowIndex]. *)
Definition row_body (args : Args) (env_HF_TOKEN : option string) (datasetDir : string)
  (table : Table) (rowIndex : nat) : M RowEnd :=
  let row := getRow table (rowIndex - 1) in
  let caption := default "" (pickCaptionColumn row) in
  let imageValue := pickImageColumn row in
  if negb (Js.truthy imageValue) then ret RowSkipped
  else
    let* imageBytes := imageBytes_of args env_HF_TOKEN imageValue in
    match imageBytes with
    | None => throw (Error_ msg_no_image_bytes)
    | Some imageBytes =>
        let imagePathHint :=
          if Js.truthy (Js.prop imageValue "path")
          then js_String (Js.prop imageValue "path") else "" in
        let '(baseName0, extension0) := names_of_hint imagePathHint in
        let baseName := str_or (default "" baseName0) (md5Hex imageBytes) in
        let extension :=
          str_or (default "" extension0)
                 (or_default (inferExtensionFromBytes imageBytes) "jpg") in
        let* absImagePath := m_uniquePath datasetDir baseName ("." +:+ extension) in
        let* _ := m_writeFileSync absImagePath imageBytes in
        let* _ := m_writeFileSync (getSidecarCaptionPath absImagePath)
                                  (Buf.from_utf8 caption) in
        ret RowImported
    end.

(** One turn of the loop: the [try] block and its [catch]. *)
Definition row_step (args : Args) (env_HF_TOKEN : option string) (datasetDir : string)
  (table : Table) (acc : Summary) (rowIndex : nat) : M Summary :=
  try_catch
    (let* r := row_body args env_HF_TOKEN datasetDir table rowIndex in
     match r with
     | RowImported => ret (mkSummary (S (imported acc)) (skipped acc) (errors acc))
     | RowSkipped => ret (mkSummary (imported acc) (S (skipped acc)) (errors acc))
     end)
    (fun e =>
       ret (mkSummary (imported acc) (skipped acc)
                      (errors acc ++ [mkRowError rowIndex (error_text e)]))).

(** [for (let rowIndex = ...; rowIndex <= table.numRows; rowIndex++)], with
    [n] rows left. *)
Fixpoint rows_from (args : Args) (env_HF_TOKEN : option string) (datasetDir : string)
  (table : Table) (n rowIndex : nat) (acc : Summary) : M Summary :=
  match n with
  | O => ret acc
  | S n' =>
      let* acc' := row_step args env_HF_TOKEN datasetDir table acc rowIndex in
      rows_from args env_HF_TOKEN datasetDir table n' (S rowIndex) acc'
  end.

(** One turn of the loop as a tagged result: the row is imported, skipped,
    or its exception becomes an entry of the error list.  The loop is
    compared with the fold of this function over the row indices. *)
Definition run_step (args : Args) (env_HF_TOKEN : option string) (datasetDir : string)
  (table : Table) (st : Summary * World) (rowIndex : nat) : Summary * World :=
  let acc := fst st in
  match row_body args env_HF_TOKEN datasetDir table rowIndex (snd st) with
  | (Returned RowImported, w') =>
      (mkSummary (S (imported acc)) (skipped acc) (errors acc), w')
  | (Returned RowSkipped, w') =>
      (mkSummary (imported acc) (S (skipped acc)) (errors acc), w')
  | (Thrown e, w') =>
      (mkSummary (imported acc) (skipped acc)
                 (errors acc ++ [mkRowError rowIndex (error_text e)]), w')
  end.

(** What [main] does before the loop: the arguments and the decoding. *)
Definition load_table (args : Args) : M (string * Table) :=
  let datasetDir := or_default (arg_datasetDir args) "" in
  let parquetFile := or_default (arg_parquetFile args) "" in
  if negb (Str.nonempty datasetDir) || negb (Str.nonempty parquetFile)
  then throw (Error_ msg_missing_args)
  else
    let* _ := lift initSync_wasm in
    let* parquetBuffer := m_readFileSync parquetFile in
    let* table := lift (decodeParquet parquetBuffer) in
    ret (datasetDir, table).

Definition main (args : Args) (env_HF_TOKEN : option string) : M Summary :=
  let* loaded := load_table args in
  let '(datasetDir, table) := loaded in
  rows_from args env_HF_TOKEN datasetDir table (numRows table) 1 (mkSummary 0 0 []).

End Helper.

(** The summary after the rows [1..k]: every row is counted once, the
    entries of the error list have increasing row indices between 1 and
    [k]. *)
Definition summary_upto (s : Summary) (k : nat) : Prop :=
  (imported s + skipped s + length (errors s) = k)%nat
  /\ StronglySorted lt (row <$> errors s)
  /\ Forall (fun r => (1 <= row r <= k)%nat) (errors s).

(** The fields of the image struct give no bytes: no payload under [bytes]
    or [data] that converts to a buffer, and no path that can be
    downloaded (none, or no repository given). *)
Definition no_bytes_by_either_route `{NodeLib} `{Network} (args : Args)
  (imageValue : value) : bool :=
  match coerceToBuffer
          (Js.coalesce (Js.coalesce (getStructField imageValue "bytes")
                                    (getStructField imageValue "data")) VNull) with
  | Some _ => false
  | None =>
      negb (Js.truthy (getStructField imageValue "path")
            && Str.nonempty (or_default (arg_repoId args) ""))
  end.

(** ** The fetch policy, in the words of the specification

    With a token: each candidate with the [Authorization] header, then the
    same candidate without it; the code adds a last request for the second
    candidate.  Without a token: each candidate, then the second one once
    more. *)

Definition planned_requests (token url : string) : list (string * option string) :=
  let auth := h_authorization (headersWithAuth_of token) in
  if Str.nonempty token then
    [ (url, auth); (url, None);
      (withDownloadQuery url, auth); (withDownloadQuery url, None);
      (withDownloadQuery url, auth) ]
  else
    [ (url, None); (withDownloadQuery url, None); (withDownloadQuery url, None) ].

Definition request_of (x : Exchange) : string * option string :=
  (ex_url x, ex_authorization x).

Definition answered_2xx (x : Exchange) : bool :=
  match ex_result x with
  | Returned res => res_ok res
  | Thrown _ => false
  end.

Definition answered_non_2xx (x : Exchange) : bool :=
  match ex_result x with
  | Returned res => negb (res_ok res)
  | Thrown _ => false
  end.

(** The headers of a request of the route, with or without the
    [Authorization] header. *)
Definition headers_for (authorization : option string) : Headers :=
  mkHeaders "ai-toolkit" "*/*" authorization.

(** The exchanges [l] were performed, in order, on the remote side in the
    state [n]: each answer is what [fetch] gave to that request, and [n'] is
    the state of the remote side after the last one. *)
Fixpoint answered_by `{Network} (n : net) (l : list Exchange) (n' : net) : Prop :=
  match l with
  | [] => n' = n
  | x :: rest =>
      let answer := fetch n (ex_url x) (headers_for (ex_authorization x)) in
      ex_result x = fst answer /\ answered_by (snd answer) rest n'
  end.

(** A run from [w] to [w'] with result [r] follows a plan of requests: the
    run performed its requests on the remote side, one after the other, and
    changed nothing else; its requests are the first ones of the plan, in
    order; it goes past a request only after an answer that is not 2xx; its
    result is what the last answer gives; and it stops before the end of the
    plan only on an answer that is 2xx or on a rejection. *)
Definition follows_plan `{Network} (plan : list (string * option string))
  (w w' : World) (r : outcome HFDownloadAttempt) : Prop :=
  exists l : list Exchange,
    w_log w' = w_log w ++ l
    /\ answered_by (w_net w) l (w_net w')
    /\ w_fs w' = w_fs w
    /\ (request_of <$> l) `prefix_of` plan
    /\ Forall (fun x => answered_non_2xx x = true) (removelast l)
    /\ exists x, last l = Some x
                /\ r = attempt_of (ex_url x) (ex_result x)
                /\ (answered_non_2xx x = true -> length l = length plan).

(** An error message carries an exchange when it shows its URL, its status
    and its diagnostic header. *)
Definition carries (message : string) (x : Exchange) : bool :=
  match ex_result x with
  | Returned res =>
      Str.includes message (ex_url x)
      && Str.includes message (Str.of_nat (res_status res))
      && Str.includes message (or_default (res_x_error_message res) "")
  | Thrown _ => true
  end.

(** ** A small environment to run the model on examples

    [path.join] on a directory without a trailing slash and a plain file
    name, base names and extensions of plain relative paths, a digest and
    a decompressor that only stand for the real ones, and a remote side
    that answers from a script. *)

Module Sample.

Definition join (dir name : string) : string := dir +:+ "/" +:+ name.

Definition basename (p : string) : string :=
  default "" (last (Str.split "/" p)).

Definition extname (bn : string) : string :=
  let stem := strip_extension bn in
  if Str.nonempty stem
  then String.substring (String.length stem) (String.length bn - String.length stem) bn
  else "".

Definition digest (buf : Buf.buffer) : string :=
  "digest" +:+ Str.of_nat (length buf).

Definition gunzip (buf : Buf.buffer) : outcome Buf.buffer :=
  match buf with
  | x1f :: x8b :: rest => Returned rest
  | _ => Thrown (mkError "Error" "incorrect header check")
  end.

Definition sniff (buf : Buf.buffer) : outcome (option string) :=
  match buf with
  | xff :: xd8 :: xff :: _ => Returned (Some "jpg")
  | x89 :: x50 :: x4e :: x47 :: _ => Returned (Some "png")
  | _ => Returned None
  end.

Definition jpeg : Buf.buffer := [xff; xd8; xff; xe0]%byte.

(** Three rows: embedded bytes with a caption, an image struct without
    bytes, no image at all. *)
Definition table : Table :=
  mkTable ["image"; "caption"] 3
    (fun name idx =>
       match name, idx with
       | "image", 0%nat => VObject [("bytes", VUint8Array jpeg); ("path", VNull)]
       | "caption", 0%nat => VString "a cat"
       | "image", 1%nat => VObject [("bytes", VNull); ("path", VNull)]
       | "caption", 1%nat => VString "a dog"
       | _, _ => VNull
       end).

Definition png : Buf.buffer := [x89; x50; x4e; x47]%byte.

(** Two rows: embedded bytes with a caption, a path reference without a
    caption. *)
Definition table_with_path : Table :=
  mkTable ["image"; "caption"] 2
    (fun name idx =>
       match name, idx with
       | "image", 0%nat => VObject [("bytes", VUint8Array jpeg)]
       | "caption", 0%nat => VString "a cat"
       | "image", 1%nat => VObject [("path", VString "imgs/dog.png")]
       | _, _ => VNull
       end).

Definition parquet_file : Buf.buffer := PAR1 ++ PAR1.
Definition parquet_file_with_path : Buf.buffer := PAR1 ++ [x00]%byte ++ PAR1.

(** The decoder of the examples knows the two files above. *)
Definition decode (buf : Buf.buffer) : outcome Table :=
  if isParquetBuffer buf then
    Returned (if (length buf =? 8)%nat then table else table_with_path)
  else Thrown (mkError "Error" "not a parquet file").

#[export] Instance lib : NodeLib := {|
  path_join := join;
  posix_basename := basename;
  posix_extname := extname;
  md5Hex_digest := digest;
  gunzipSync := gunzip;
  fileTypeFromBuffer := sniff;
  toString_utf8 := string_of_list_byte;
  JSON_stringify := fun s => s;
  initSync_wasm := Returned tt;
  decodeParquet := decode;
|}.

Definition not_found : Response :=
  mkResponse 404 "Not Found" "" None None None (Returned []) (Returned "").

(** The remote side answers from a script, then with 404. *)
#[export] Instance scripted : Network := {|
  net := list (outcome Response);
  fetch := fun script _ _ =>
    match script with
    | r :: script' => (r, script')
    | [] => (Returned not_found, [])
    end;
|}.

Definition world (script : list (outcome Response)) (fs : filesystem) : World :=
  mkWorld script [] fs.

Definition server_error : Response :=
  mkResponse 500 "Internal Server Error" "" None None (Some "backend down")
             (Returned []) (Returned "").

Definition ok_response (body : Buf.buffer) (encoding : option string) : Response :=
  mkResponse 200 "OK" "" (Some "application/octet-stream") encoding None
             (Returned body) (Returned "").

(** A download where the first answer is a server error with a diagnostic
    header and the other answers are 404. *)
Definition failed_download : outcome HFDownloadOk * World :=
  downloadHFFile None "org/repo" "main" "data/train.parquet" datasets
    (world [Returned server_error] ∅).

Definition first_request_url : string :=
  "https://huggingface.co/datasets/org/repo/resolve/main/data/train.parquet".

Definition failed_download_message : string :=
  "Failed to download from Hugging Face (404 Not Found) at "
  +:+ first_request_url +:+ "?download=true: ".

(** A download with a token: 401 with the token, 200 without it. *)
Definition unauthorized : Response :=
  mkResponse 401 "Unauthorized" "" None None None (Returned []) (Returned "").

Definition retried_world : World :=
  world [Returned unauthorized; Returned (ok_response parquet_file None)] ∅.

(** A gzip answer: the toy compressed form of a parquet file. *)
Definition gzipped : HFDownloadOk :=
  mkOk ([x1f; x8b]%byte ++ parquet_file) 200 "OK" first_request_url first_request_url
       (Some "application/octet-stream") (Some "gzip").

(** The directories of the examples: the dataset directory and the
    directory of the temporary parquet file. *)
Definition folders : filesystem :=
  {[ "/" := Dir; "/tmp" := Dir; "/data" := Dir; "/data/cats" := Dir ]}.

(** A dataset directory where a first image was written, and then a second
    one of the same name. *)
Definition one_cat : filesystem := <["/data/cats/my_cat.jpg" := File jpeg]> folders.

Definition two_cats : filesystem := <["/data/cats/my_cat_1.jpg" := File jpeg]> one_cat.

Definition start : World :=
  mkWorld [] [] (<["/tmp/input.parquet" := File parquet_file]> folders).

Definition args_with_repo : Args :=
  mkArgs (Some "/data/cats") (Some "/tmp/input.parquet") (Some "org/repo") None None None.

Definition start_with_path : World :=
  mkWorld [Returned (ok_response png None)] []
          (<["/tmp/input.parquet" := File parquet_file_with_path]> folders).

(** The same disk when the remote side has nothing: every answer is 404. *)
Definition start_with_path_offline : World :=
  mkWorld [] [] (<["/tmp/input.parquet" := File parquet_file_with_path]> folders).

Definition args : Args :=
  mkArgs (Some "/data/cats") (Some "/tmp/input.parquet") None None None None.

Definition disk : filesystem := <["/tmp/input.parquet" := File parquet_file]> folders.

End Sample.

(** * Part I, continued: the rest of the cited files *)

(** ** More on strings *)

Module StrX.

(** Every character of [s] satisfies [P]. *)
Fixpoint all (P : ascii -> bool) (s : string) : bool :=
  match s with
  | String c s' => P c && all P s'
  | EmptyString => true
  end.

(** The characters of a percent-encoded component: the unreserved ones, the
    percent sign and the hexadecimal digits (which are unreserved). *)
Definition is_encoded_char (c : ascii) : bool :=
  is_unreserved c || Ascii.eqb c "%".

(** The characters of an encoded path: those of a component, and the
    slash between components. *)
Definition is_path_char (c : ascii) : bool :=
  is_encoded_char c || Ascii.eqb c "/".

(** The characters of a token that needs no cleaning: no white space and
    no quote. *)
Definition is_plain_token_char (c : ascii) : bool :=
  negb (Str.is_space c) && negb (Ascii.eqb c Str.dquote) && negb (Ascii.eqb c "'").

End StrX.

(** ** Effects that leave the file system alone *)

(** The computation [m] may use the network, never the file system. *)
Definition keeps_fs `{Network} {A} (m : M A) : Prop :=
  forall w, w_fs (snd (m w)) = w_fs w.

(** The computation [m] only adds requests to those already performed, at
    most [n] of them, each of which satisfies [P]. *)
Definition requests_within `{Network} {A} (n : nat) (P : Exchange -> Prop) (m : M A) : Prop :=
  forall w, exists l : list Exchange,
    w_log (snd (m w)) = w_log w ++ l /\ (length l <= n)%nat /\ Forall P l.


(** ** What a computation leaves as it is *)

(** Every run of [m] ends in a world related by [R] to the one it started
    in, whether it returns or throws. *)
Definition stays `{Network} {A} (R : World -> World -> Prop) (m : M A) : Prop :=
  forall w, R w (snd (m w)).

(** No request was made: the remote side and the list of the requests are
    the same. *)
Definition same_requests `{Network} (w w' : World) : Prop :=
  w_net w' = w_net w /\ w_log w' = w_log w.

(** From [fs] to [fs'] every node is kept, except that a file whose path
    ends with [.txt] may have a new content.  New paths may appear. *)
Definition grown_from (fs fs' : filesystem) : Prop :=
  forall p n, fs !! p = Some n ->
    fs' !! p = Some n
    \/ (Str.endsWith p ".txt" = true
        /\ exists c c', n = File c /\ fs' !! p = Some (File c')).

Definition files_grown `{Network} (w w' : World) : Prop :=
  grown_from (w_fs w) (w_fs w').

(** ** Command line of the helper script *)

(** The loop of [parseArgs] over the rest of [argv]: a word that starts
    with [--] names a key ([a.slice(2)]) and takes the next word as its
    value, [undefined] when there is none; other words are passed over.
    The map holds the properties that the loop sets on the object [out]. *)
Fixpoint parseArgs_from (out : gmap string (option string)) (argv : list string)
  : gmap string (option string) :=
  match argv with
  | [] => out
  | a :: rest =>
      match Str.strip_prefix "--" a with
      | Some key =>
          match rest with
          | val :: rest' => parseArgs_from (<[key := Some val]> out) rest'
          | [] => <[key := None]> out
          end
      | None => parseArgs_from out rest
      end
  end.

Definition parseArgs (argv : list string) : gmap string (option string) :=
  parseArgs_from ∅ (drop 2 argv).

(** The keys that the script reads from the parsed arguments.  None of
    them is a property that an object has without being given it. *)
Definition arg_names : list string :=
  ["datasetDir"; "parquetFile"; "repoId"; "revision"; "repoType"; "hfToken"].

(** [args.key] for one of these keys: [undefined] when the key is absent or
    was given no value. *)
Definition read_arg (out : gmap string (option string)) (key : string) : option string :=
  match out !! key with
  | Some v => v
  | None => None
  end.

(** The six properties of the parsed arguments that the script reads. *)
Definition args_of (out : gmap string (option string)) : Args :=
  mkArgs (read_arg out "datasetDir") (read_arg out "parquetFile")
         (read_arg out "repoId") (read_arg out "revision")
         (read_arg out "repoType") (read_arg out "hfToken").

(** The words of a command line that gives each key of [kvs] its value. *)
Definition flag_words (kvs : list (string * string)) : list string :=
  flat_map (fun kv => ["--" +:+ fst kv; snd kv]) kvs.

(** [process.argv] of the helper script as [importWithNodeHelper] of the
    route starts it: [execFile(process.execPath, [scriptPath, '--datasetDir',
    datasetDir, '--parquetFile', parquetPath])]. *)
Definition route_argv (execPath scriptPath datasetDir parquetPath : string) : list string :=
  [execPath; scriptPath; "--datasetDir"; datasetDir; "--parquetFile"; parquetPath].

(** [main] of the helper script from [process.argv]. *)
Definition main_argv `{NodeLib} `{Network} (argv : list string)
  (env_HF_TOKEN : option string) : M Summary :=
  main (args_of (parseArgs argv)) env_HF_TOKEN.

(** ** Settings of the server *)

Module Settings.

(** The rows of the settings table: [findFirst({ where: { key } })] gives the
    value of the row of that key, if there is one with a value. *)
Abbreviation database := (gmap string string).

(** The entries of [myCache]. *)
Abbreviation cache := (gmap string string).

Definition flushCache (c : cache) : cache := ∅.

(** The body that [getDatasetsRoot], [getTrainingFolder] and [getDataRoot]
    share; they differ in the key and in the default.  The result is the
    value returned and the cache afterwards. *)
Definition cached_setting (key dflt : string) (c : cache) (db : database)
  : string * cache :=
  let from_db :=
    let value :=
      match db !! key with
      | Some v => if Str.nonempty v then v else dflt
      | None => dflt
      end in
    (value, <[key := value]> c) in
  match c !! key with
  | Some cached => if Str.nonempty cached then (cached, c) else from_db
  | None => from_db
  end.

Section Defaults.

(** The constants of [@/paths]. *)
Variables defaultDatasetsFolder defaultTrainFolder defaultDataRoot : string.

Definition getDatasetsRoot : cache -> database -> string * cache :=
  cached_setting "DATASETS_FOLDER" defaultDatasetsFolder.

Definition getTrainingFolder : cache -> database -> string * cache :=
  cached_setting "TRAINING_FOLDER" defaultTrainFolder.

Definition getDataRoot : cache -> database -> string * cache :=
  cached_setting "DATA_ROOT" defaultDataRoot.

End Defaults.

(** [getHFToken] of the settings: read from the table at every call. *)
Definition getHFToken_of (db : database) : string := getHFToken (db !! "HF_TOKEN").

End Settings.

(** ** Colours and dataset names of the loss graph *)

Module LossGraph.

(** [ToInt32]: the number modulo 2^32, read as a signed 32-bit integer. *)
Definition toInt32 (z : Z) : Z :=
  let m := (z mod 2 ^ 32)%Z in
  if (m <? 2 ^ 31)%Z then m else (m - 2 ^ 32)%Z.

(** [a ^ b] *)
Definition xor32 (a b : Z) : Z := Z.lxor (toInt32 a) (toInt32 b).

(** [Math.imul(a, b)] *)
Definition imul (a b : Z) : Z := toInt32 (toInt32 a * toInt32 b).

(** The loop of [hashToIndex] over the code units of the string. *)
Fixpoint hash_from (h : Z) (str : string) : Z :=
  match str with
  | String c rest => hash_from (imul (xor32 h (Z.of_N (Str.code c))) 16777619) rest
  | EmptyString => h
  end.

(** [Math.abs(h) % mod]; the remainder is a number when [mod] is not 0. *)
Definition hashToIndex (str : string) (mod_ : Z) : Z :=
  Z.rem (Z.abs (hash_from 2166136261 str)) mod_.

Definition PALETTE : list string :=
  [ "rgba(96,165,250,1)"; "rgba(52,211,153,1)"; "rgba(167,139,250,1)";
    "rgba(251,191,36,1)"; "rgba(244,114,182,1)"; "rgba(248,113,113,1)";
    "rgba(34,211,238,1)"; "rgba(129,140,248,1)" ].

(** [PALETTE[hashToIndex(key, PALETTE.length)]]: [None] stands for
    [undefined], the value of an index outside the array. *)
Definition strokeForKey (key : string) : option string :=
  let i := hashToIndex key (Z.of_nat (length PALETTE)) in
  if (i <? 0)%Z then None else PALETTE !! Z.to_nat i.

Definition backslash : ascii := ascii_of_nat 92.

(** [path.replace(/\\/g, '/')] *)
Fixpoint slashes (path : string) : string :=
  match path with
  | String c rest => String (if Ascii.eqb c backslash then "/"%char else c) (slashes rest)
  | EmptyString => EmptyString
  end.

(** [segs.pop()] *)
Definition pop (segs : list string) : list string := removelast segs.

(** The function mapped over the parts: the part without its last segment,
    when it has more than one. *)
Definition folder_of (p : string) : string :=
  let segs := Str.split "/" (Str.trim p) in
  Str.join "/" (if (1 <? length segs)%nat then pop segs else segs).

Definition getDatasetFromPath (path : option string) : string :=
  match path with
  | Some p =>
      if Str.nonempty p
      then Str.join " | " (List.map folder_of (Str.split "," (slashes p)))
      else "unknown"
  | None => "unknown"
  end.

End LossGraph.
(** * Part II: facts about the embedding *)

(** ** The magic check *)

Lemma isParquet_same buf : isParquet buf = isParquetBuffer buf.
Proof. reflexivity. Qed.

Lemma isParquetBuffer_short buf :
  (length buf < 8)%nat -> isParquetBuffer buf = false.
Proof.
  intros H. unfold isParquetBuffer.
  destruct (Nat.ltb_spec (length buf) 8) as [_|Hge]; [reflexivity | lia].
Qed.

Example isParquetBuffer_marker_alone : isParquetBuffer PAR1 = false.
Proof. reflexivity. Qed.

Lemma isParquetBuffer_marked buf :
  (8 <= length buf)%nat ->
  take 4 buf = PAR1 ->
  drop (length buf - 4) buf = PAR1 ->
  isParquetBuffer buf = true.
Proof.
  intros Hlen Hhead Htail. unfold isParquetBuffer.
  destruct (Nat.ltb_spec (length buf) 8) as [Hlt|_]; [lia|].
  unfold Buf.subarray_to, Buf.subarray_from. rewrite Hhead, Htail.
  reflexivity.
Qed.

(** The exact condition the code tests: both ends decode to the marker
    once the highest bit of each byte is cleared. *)
Lemma isParquetBuffer_spec buf :
  isParquetBuffer buf = true <->
  (8 <= length buf)%nat
  /\ Buf.toString_ascii (take 4 buf) = "PAR1"
  /\ Buf.toString_ascii (drop (length buf - 4) buf) = "PAR1".
Proof.
  unfold isParquetBuffer, Buf.subarray_to, Buf.subarray_from.
  destruct (Nat.ltb_spec (length buf) 8) as [Hlt|Hge].
  - split; [discriminate | intros [H _]; lia].
  - rewrite andb_true_iff, !String.eqb_eq. intuition.
Qed.

(** C10 (divergence).  The check is meant to accept exactly the buffers of
    at least 8 bytes that start and end with the bytes of [PAR1]; it also
    accepts a buffer whose first four bytes are not those of [PAR1],
    because the comparison goes through the 7-bit decoding. *)
Theorem isParquetBuffer_accepts_high_bit :
  isParquetBuffer high_bit_marker = true
  /\ isParquet high_bit_marker = true
  /\ take 4 high_bit_marker <> PAR1.
Proof. split; [reflexivity | split; [reflexivity | discriminate]]. Qed.

Module ParserExamples.

Example parse_bare :
  parseHFParquetPath "org/repo/data/train.parquet"
  = Returned (mkRef "org/repo" "main" "data/train.parquet" auto).
Proof. reflexivity. Qed.

Example parse_at_rev :
  parseHFParquetPath "org/repo@v2/data/train.parquet"
  = Returned (mkRef "org/repo" "v2" "data/train.parquet" auto).
Proof. reflexivity. Qed.

Example parse_prefixed :
  parseHFParquetPath "datasets/org/repo/data/train.parquet"
  = Returned (mkRef "org/repo" "main" "data/train.parquet" datasets).
Proof. reflexivity. Qed.

Example parse_full_url :
  parseHFParquetPath "https://huggingface.co/org/repo/resolve/main/data/train.parquet"
  = Returned (mkRef "org/repo" "main" "data/train.parquet" models).
Proof. reflexivity. Qed.

Example parse_full_url_datasets :
  parseHFParquetPath "https://huggingface.co/datasets/org/repo/blob/main/data/train.parquet"
  = Returned (mkRef "org/repo" "main" "data/train.parquet" datasets).
Proof. reflexivity. Qed.

Example parse_upper_suffix :
  is_returned (parseHFParquetPath "  org/repo/X.PARQUET ") = true.
Proof. reflexivity. Qed.

Example parse_two_segments :
  parseHFParquetPath "org/file.parquet" = Thrown (Error_ msg_invalid_path).
Proof. reflexivity. Qed.

Example parse_keyword_three_segments :
  parseHFParquetPath "datasets/org/file.parquet" = Thrown (Error_ msg_invalid_path).
Proof. reflexivity. Qed.

Example parse_url_without_file :
  parseHFParquetPath "org/repo/resolve/file.parquet" = Thrown (Error_ msg_invalid_url).
Proof. reflexivity. Qed.

Example parse_empty_repo_name :
  parseHFParquetPath "org/@dev/file.parquet"
  = Returned (mkRef "org/@dev" "dev" "file.parquet" auto).
Proof. reflexivity. Qed.

End ParserExamples.

(** ** Strings *)

Module StrFacts.
Import Str.

Lemma append_nil_l (s : string) : "" +:+ s = s.
Proof. reflexivity. Qed.

Lemma append_cons x (a b : string) : String x a +:+ b = String x (a +:+ b).
Proof. reflexivity. Qed.

Lemma append_assoc (a b c : string) : (a +:+ b) +:+ c = a +:+ (b +:+ c).
Proof.
  induction a as [|x a IH]; [reflexivity|].
  by rewrite !append_cons, IH.
Qed.

Lemma append_empty_r (a : string) : a +:+ "" = a.
Proof.
  induction a as [|x a IH]; [reflexivity|].
  by rewrite append_cons, IH.
Qed.

Lemma eqb_refl_true (s : string) : String.eqb s s = true.
Proof. by apply String.eqb_eq. Qed.

Lemma strip_prefix_app (p s : string) : strip_prefix p (p +:+ s) = Some s.
Proof.
  induction p as [|x p IH]; [reflexivity|].
  rewrite append_cons. simpl. by rewrite Ascii.eqb_refl.
Qed.

Lemma strip_prefix_Some (p s r : string) :
  strip_prefix p s = Some r -> s = p +:+ r.
Proof.
  revert s. induction p as [|x p IH]; intros s H; simpl in *.
  - by injection H as ->.
  - destruct s as [|y s]; [discriminate|].
    destruct (Ascii.eqb_spec x y) as [->|]; [|discriminate].
    by rewrite append_cons, (IH _ H).
Qed.

(** *** [endsWith] *)

Lemma endsWith_unfold (s p : string) :
  endsWith s p
  = String.eqb s p
    || match s with String _ s' => endsWith s' p | EmptyString => false end.
Proof. by destruct s. Qed.

Lemma endsWith_spec (s p : string) :
  endsWith s p = true <-> exists q, s = q +:+ p.
Proof.
  induction s as [|x s IH]; rewrite endsWith_unfold.
  - rewrite orb_false_r. destruct (String.eqb_spec "" p) as [<-|Hne]; split.
    + intros _. by exists "".
    + done.
    + done.
    + intros [q Hq]. destruct q; [done | discriminate].
  - rewrite orb_true_iff, IH.
    destruct (String.eqb_spec (String x s) p) as [<-|Hne]; split.
    + intros _. by exists "".
    + by left.
    + intros [? | [q ->]]; [done | by exists (String x q)].
    + intros [q Hq]. destruct q as [|y q]; [done|].
      rewrite append_cons in Hq. injection Hq as _ ->. right. by exists q.
Qed.

Lemma endsWith_app (a s p : string) :
  endsWith s p = true -> endsWith (a +:+ s) p = true.
Proof.
  rewrite !endsWith_spec. intros [q ->]. exists (a +:+ q).
  by rewrite append_assoc.
Qed.

(** *** [no_char], [split], [join] *)

Lemma no_char_app c (a b : string) :
  no_char c (a +:+ b) = no_char c a && no_char c b.
Proof.
  induction a as [|x a IH]; [reflexivity|].
  rewrite append_cons. simpl. by rewrite IH, andb_assoc.
Qed.

Lemma split_not_nil sep s : split sep s <> [].
Proof.
  destruct s as [|c s]; simpl; [done|].
  destruct (Ascii.eqb c sep); [done|]. by destruct (split sep s).
Qed.

Lemma split_no_char sep s : no_char sep s = true -> split sep s = [s].
Proof.
  induction s as [|c s IH]; simpl; [done|].
  intros [Hc Hs]%andb_true_iff. apply negb_true_iff in Hc.
  by rewrite Hc, (IH Hs).
Qed.

Lemma split_app sep (a b : string) :
  no_char sep a = true ->
  split sep (a +:+ String sep b) = a :: split sep b.
Proof.
  induction a as [|c a IH].
  - intros _. rewrite append_nil_l. simpl. by rewrite Ascii.eqb_refl.
  - intros [Hc Ha]%andb_true_iff. apply negb_true_iff in Hc.
    rewrite append_cons. simpl. by rewrite Hc, (IH Ha).
Qed.

Lemma split_segments_no_char sep s :
  Forall (fun x => no_char sep x = true) (split sep s).
Proof.
  induction s as [|c s IH]; simpl.
  - by repeat constructor.
  - destruct (Ascii.eqb_spec c sep) as [->|Hne].
    + by constructor.
    + destruct (split sep s) as [|x xs]; inversion IH; subst.
      * repeat constructor. simpl. apply andb_true_iff. split; [|done].
        apply negb_true_iff. by apply Ascii.eqb_neq.
      * constructor; [|done]. simpl. apply andb_true_iff. split; [|done].
        apply negb_true_iff. by apply Ascii.eqb_neq.
Qed.

Lemma join_cons2 sep x y (l : list string) :
  join sep (x :: y :: l) = x +:+ sep +:+ join sep (y :: l).
Proof. reflexivity. Qed.

Lemma join_app sep (l1 l2 : list string) :
  l1 <> [] -> l2 <> [] ->
  join sep (l1 ++ l2) = join sep l1 +:+ sep +:+ join sep l2.
Proof.
  intros H1 H2. induction l1 as [|x l1 IH]; [done|].
  destruct l1 as [|y l1].
  - destruct l2 as [|z l2]; [done|]. reflexivity.
  - change ((x :: y :: l1) ++ l2) with (x :: y :: (l1 ++ l2)).
    rewrite !join_cons2.
    change (y :: l1 ++ l2) with ((y :: l1) ++ l2).
    rewrite IH by done. by rewrite !append_assoc.
Qed.

Lemma split_join sep (l : list string) :
  l <> [] ->
  Forall (fun x => no_char sep x = true) l ->
  split sep (join (String sep "") l) = l.
Proof.
  intros Hne Hall. induction Hall as [|x l Hx Hl IH]; [done|].
  destruct l as [|y l].
  - simpl. by apply split_no_char.
  - rewrite join_cons2, append_cons, append_nil_l.
    rewrite split_app by done. by rewrite IH.
Qed.

Lemma filter_Boolean_id (l : list string) :
  Forall (fun x => nonempty x = true) l -> filter_Boolean l = l.
Proof.
  induction 1 as [|x l Hx Hl IH]; [done|].
  unfold filter_Boolean in *. simpl. by rewrite Hx, IH.
Qed.

Lemma filter_Boolean_nonempty (l : list string) :
  Forall (fun x => nonempty x = true) (filter_Boolean l).
Proof.
  unfold filter_Boolean. induction l as [|x l IH]; simpl; [constructor|].
  destruct (nonempty x) eqn:E; [by constructor | done].
Qed.

Lemma filter_Boolean_no_char c (l : list string) :
  Forall (fun x => no_char c x = true) l ->
  Forall (fun x => no_char c x = true) (filter_Boolean l).
Proof.
  unfold filter_Boolean. induction 1 as [|x l Hx Hl IH]; simpl; [constructor|].
  destruct (nonempty x); [by constructor | done].
Qed.

(** *** [trim] *)

Lemma trimStart_app (a b : string) :
  a <> "" -> starts_with_space a = false -> trimStart (a +:+ b) = a +:+ b.
Proof.
  destruct a as [|c a]; [done|]. simpl. intros _ Hc.
  rewrite append_cons. simpl. by rewrite Hc.
Qed.

Lemma trimEnd_app (a b : string) :
  b <> "" -> trimEnd b = b -> trimEnd (a +:+ b) = a +:+ b.
Proof.
  intros Hb Heq. induction a as [|x a IH]; [done|].
  rewrite append_cons. simpl. rewrite IH.
  destruct (a +:+ b) eqn:E; [|done].
  destruct a; [by rewrite append_nil_l in E | discriminate].
Qed.

Lemma trimEnd_last (q : string) c :
  is_space c = false -> trimEnd (q +:+ String c "") = q +:+ String c "".
Proof.
  intros Hc. apply trimEnd_app; [done|]. simpl. by rewrite Hc.
Qed.

(** *** [toLowerCase] *)

Lemma toLowerCase_app (a b : string) :
  toLowerCase (a +:+ b) = toLowerCase a +:+ toLowerCase b.
Proof.
  induction a as [|x a IH]; [done|].
  rewrite append_cons. simpl. by rewrite IH.
Qed.

Lemma toLowerCase_app_inv (s a b : string) :
  toLowerCase s = a +:+ b ->
  exists a' b', s = a' +:+ b' /\ toLowerCase a' = a /\ toLowerCase b' = b.
Proof.
  revert s. induction a as [|x a IH]; intros s H.
  - exists "", s. by rewrite append_nil_l in H.
  - rewrite append_cons in H. destruct s as [|y s]; [discriminate|].
    simpl in H. injection H as Hx Hs.
    destruct (IH _ Hs) as (a' & b' & -> & Ha & Hb).
    exists (String y a'), b'. simpl. by rewrite Hx, Ha, Hb.
Qed.

Lemma lower_char_slash c : lower_char c = "/"%char -> c = "/"%char.
Proof. destruct c as [[] [] [] [] [] [] [] []]; vm_compute; congruence. Qed.

Lemma lower_char_space c : is_space c = true -> lower_char c = c.
Proof. by destruct c as [[] [] [] [] [] [] [] []]; vm_compute. Qed.

Lemma toLowerCase_no_slash (s : string) :
  no_char "/" s = true -> no_char "/" (toLowerCase s) = true.
Proof.
  induction s as [|c s IH]; [done|]. simpl.
  intros [Hc Hs]%andb_true_iff. rewrite (IH Hs), andb_true_r.
  apply negb_true_iff, Ascii.eqb_neq. intros H%lower_char_slash.
  apply negb_true_iff, Ascii.eqb_neq in Hc. done.
Qed.

(** A name that ends with the suffix (in any case) is not empty and does not
    end with white space. *)
Lemma trimEnd_parquet (fp : string) :
  endsWith (toLowerCase fp) ".parquet" = true -> fp <> "" /\ trimEnd fp = fp.
Proof.
  intros [q Hq]%endsWith_spec.
  apply toLowerCase_app_inv in Hq as (a & b & -> & _ & Hb).
  do 8 (destruct b as [|? b]; [discriminate|]).
  destruct b; [|discriminate].
  simpl in Hb. injection Hb as _ _ _ _ _ _ _ Ht.
  assert (is_space a7 = false) as Hsp.
  { destruct (is_space a7) eqn:E; [|done].
    rewrite (lower_char_space _ E) in Ht. by subst. }
  split.
  - destruct a; discriminate.
  - change (String a0 (String a1 (String a2 (String a3 (String a4 (String a5
              (String a6 (String a7 ""))))))))
      with (String a0 (String a1 (String a2 (String a3 (String a4 (String a5
              (String a6 ""))))))  +:+ String a7 "").
    rewrite <- append_assoc. by apply trimEnd_last.
Qed.

(** *** [includes] of one character *)

Lemma includes_char (s : string) c :
  includes s (String c "") = negb (no_char c s).
Proof.
  induction s as [|x s IH]; [done|].
  simpl. unfold startsWith. simpl. rewrite IH.
  rewrite (Ascii.eqb_sym c x). by destruct (Ascii.eqb x c).
Qed.

End StrFacts.

(** ** Reference parser: from the input string to its segments *)

Module SegmentFacts.
Import Str StrFacts.

#[local] Arguments Ascii.eqb : simpl never.

Lemma segment_inv (s : string) :
  segment s = true -> nonempty s = true /\ no_char "/" s = true.
Proof. by intros ?%andb_true_iff. Qed.

Lemma segment_head (s : string) :
  segment s = true ->
  exists c r, s = String c r /\ c <> "/"%char.
Proof.
  intros [Hne Hno]%segment_inv. destruct s as [|c r]; [done|].
  exists c, r. split; [done|]. simpl in Hno.
  apply andb_true_iff in Hno as [Hc _]. by apply negb_true_iff, Ascii.eqb_neq in Hc.
Qed.

Lemma Forall_segment_nonempty (l : list string) :
  Forall (fun x => segment x = true) l -> Forall (fun x => nonempty x = true) l.
Proof. intros H. eapply Forall_impl; [exact H|]. by intros x [? _]%segment_inv. Qed.

Lemma Forall_segment_no_slash (l : list string) :
  Forall (fun x => segment x = true) l -> Forall (fun x => no_char "/" x = true) l.
Proof. intros H. eapply Forall_impl; [exact H|]. by intros x [_ ?]%segment_inv. Qed.

(** A pattern with two adjacent separators does not begin a string whose
    first separator is followed by another character. *)
Lemma strip_prefix_double_slash (p0 p1 a r : string) c :
  no_char "/" p0 = true -> no_char "/" a = true -> c <> "/"%char ->
  strip_prefix (p0 +:+ "//" +:+ p1) (a +:+ String "/" (String c r)) = None.
Proof.
  intros Hp0 Ha Hc. revert a Ha.
  induction p0 as [|y p0 IH]; intros a Ha.
  - change ("" +:+ "//" +:+ p1) with (String "/" (String "/" p1)).
    destruct a as [|x a].
    + rewrite append_nil_l. simpl.
      apply Ascii.eqb_neq in Hc. by rewrite (Ascii.eqb_sym "/" c), Hc.
    + rewrite append_cons. simpl in Ha |- *.
      apply andb_true_iff in Ha as [Hx _]. apply negb_true_iff in Hx.
      by rewrite (Ascii.eqb_sym "/" x), Hx.
  - simpl in Hp0. apply andb_true_iff in Hp0 as [Hy Hp0].
    apply negb_true_iff in Hy. rewrite append_cons.
    destruct a as [|x a].
    + rewrite append_nil_l. simpl. by rewrite Hy.
    + rewrite append_cons. simpl in Ha |- *.
      apply andb_true_iff in Ha as [_ Ha].
      destruct (Ascii.eqb y x); [by apply IH | done].
Qed.

Lemma strip_host_no_double_slash (a r : string) c :
  no_char "/" a = true -> c <> "/"%char ->
  strip_host (a +:+ String "/" (String c r)) = a +:+ String "/" (String c r).
Proof.
  intros Ha Hc. set (s := a +:+ String "/" (String c r)).
  assert (forall p0 p1, no_char "/" p0 = true ->
            strip_prefix (p0 +:+ "//" +:+ p1) s = None) as Hnone.
  { intros p0 p1 Hp0. by apply strip_prefix_double_slash. }
  pose proof (Hnone "https:" "www.huggingface.co/" eq_refl) as H1.
  pose proof (Hnone "https:" "huggingface.co/" eq_refl) as H2.
  pose proof (Hnone "http:" "www.huggingface.co/" eq_refl) as H3.
  pose proof (Hnone "http:" "huggingface.co/" eq_refl) as H4.
  unfold strip_host, host_prefixes. cbn [strip_first].
  change ("https:" +:+ "//" +:+ "www.huggingface.co/")
    with "https://www.huggingface.co/" in H1.
  change ("https:" +:+ "//" +:+ "huggingface.co/")
    with "https://huggingface.co/" in H2.
  change ("http:" +:+ "//" +:+ "www.huggingface.co/")
    with "http://www.huggingface.co/" in H3.
  change ("http:" +:+ "//" +:+ "huggingface.co/")
    with "http://huggingface.co/" in H4.
  by rewrite H1, H2, H3, H4.
Qed.

Lemma strip_host_prefixed (h x : string) :
  h ∈ host_prefixes -> strip_host (h +:+ x) = x.
Proof.
  unfold host_prefixes. rewrite !elem_of_cons, elem_of_nil.
  intros [->|[->|[->|[->|[]]]]]; reflexivity.
Qed.

Lemma host_prefix_shape (h : string) :
  h ∈ host_prefixes -> h <> "" /\ starts_with_space h = false.
Proof.
  unfold host_prefixes. rewrite !elem_of_cons, elem_of_nil.
  intros [->|[->|[->|[->|[]]]]]; by split.
Qed.

Lemma join_cons_head sep x y (l : list string) c r :
  y = String c r ->
  exists r', join sep (x :: y :: l) = x +:+ sep +:+ String c r'.
Proof.
  intros ->. rewrite join_cons2. destruct l as [|z l].
  - by exists r.
  - rewrite join_cons2, append_cons. by eexists.
Qed.

Lemma join_nonempty sep x (l : list string) :
  x <> "" -> join sep (x :: l) <> "".
Proof.
  intros Hx. destruct l as [|y l]; [done|].
  rewrite join_cons2. destruct x; [done | discriminate].
Qed.

(** The segments of a slash-separated string without a host prefix. *)
Lemma segments_join (x y : string) (l : list string) :
  Forall (fun s => segment s = true) (x :: y :: l) ->
  starts_with_space x = false ->
  trimEnd (join "/" (x :: y :: l)) = join "/" (x :: y :: l) ->
  segments (join "/" (x :: y :: l)) = x :: y :: l.
Proof.
  intros Hall Hsp Hend. unfold segments, trim.
  pose proof (Forall_inv Hall) as Hx.
  pose proof (Forall_inv (Forall_inv_tail Hall)) as Hy.
  destruct (segment_inv _ Hx) as [Hxne Hxno].
  destruct (segment_head _ Hy) as (c & r & Hyeq & Hc).
  assert (x <> "") as Hx0 by (by destruct x).
  assert (trimStart (join "/" (x :: y :: l)) = join "/" (x :: y :: l)) as ->.
  { rewrite join_cons2. by apply trimStart_app. }
  rewrite Hend.
  destruct (join_cons_head "/" x y l c r Hyeq) as [r' Hj].
  assert (strip_host (join "/" (x :: y :: l)) = join "/" (x :: y :: l)) as ->.
  { rewrite Hj. by apply strip_host_no_double_slash. }
  rewrite split_join; [| done | by apply Forall_segment_no_slash].
  by apply filter_Boolean_id, Forall_segment_nonempty.
Qed.

(** The segments of a full URL. *)
Lemma segments_hosted (h x : string) (l : list string) :
  h ∈ host_prefixes ->
  Forall (fun s => segment s = true) (x :: l) ->
  trimEnd (join "/" (x :: l)) = join "/" (x :: l) ->
  segments (h +:+ join "/" (x :: l)) = x :: l.
Proof.
  intros Hh Hall Hend. unfold segments, trim.
  pose proof (Forall_inv Hall) as [Hxne _]%segment_inv.
  assert (x <> "") as Hx0 by (by destruct x).
  assert (trimStart (h +:+ join "/" (x :: l)) = h +:+ join "/" (x :: l)) as ->.
  { destruct (host_prefix_shape _ Hh). by apply trimStart_app. }
  rewrite trimEnd_app; [| by apply join_nonempty | done].
  rewrite strip_host_prefixed by done.
  rewrite split_join; [| done | by apply Forall_segment_no_slash].
  by apply filter_Boolean_id, Forall_segment_nonempty.
Qed.

(** What [split] and [filter] leave are segments. *)
Lemma segments_are_segments (input : string) :
  Forall (fun s => segment s = true) (segments input).
Proof.
  unfold segments.
  pose proof (filter_Boolean_nonempty (split "/" (strip_host (trim input)))) as H1.
  pose proof (filter_Boolean_no_char "/" _
                (split_segments_no_char "/" (strip_host (trim input)))) as H2.
  revert H1 H2. generalize (filter_Boolean (split "/" (strip_host (trim input)))).
  intros l H1. induction H1 as [|s l Hs Hl IH]; intros H2; [constructor|].
  inversion H2; subst. constructor; [|by apply IH].
  unfold segment. by apply andb_true_iff.
Qed.

End SegmentFacts.

(** ** Reference parser: the shapes of one resource *)

Module ParserFacts.
Import Str StrFacts SegmentFacts.

#[local] Arguments String.eqb : simpl never.
#[local] Arguments Str.endsWith : simpl never.
#[local] Arguments Str.toLowerCase : simpl never.
#[local] Arguments Str.includes : simpl never.
#[local] Arguments Str.split : simpl never.
#[local] Arguments Str.join : simpl never.

Section SameResource.

Variables org repo rev : string.
Variable file : list string.

Hypothesis org_segment : segment org = true.
Hypothesis org_no_space : starts_with_space org = false.
Hypothesis org_not_keyword : org <> "datasets".
Hypothesis repo_segment : segment repo = true.
Hypothesis repo_no_at : no_char "@" repo = true.
Hypothesis rev_segment : segment rev = true.
Hypothesis rev_no_at : no_char "@" rev = true.
Hypothesis file_segments : Forall (fun s => segment s = true) file.
Hypothesis file_not_resolve : head file <> Some "resolve".
Hypothesis file_not_blob : head file <> Some "blob".
Hypothesis file_suffix :
  endsWith (toLowerCase (join "/" file)) ".parquet" = true.

Let result (t : HFRepoType) : outcome HFParquetRef :=
  Returned (mkRef (org +:+ "/" +:+ repo) rev (join "/" file) t).

Lemma org_eqb_keyword : String.eqb org "datasets" = false.
Proof. by apply String.eqb_neq. Qed.

Lemma file_cons : exists f file', file = f :: file'.
Proof.
  destruct file as [|f file']; [|by eauto].
  by vm_compute in file_suffix.
Qed.

Lemma nonempty_of_segment (s : string) : segment s = true -> nonempty s = true.
Proof. by intros [? _]%segment_inv. Qed.

Lemma split_revision_plain : split_revision repo = (repo, "main").
Proof.
  unfold split_revision. by rewrite includes_char, repo_no_at.
Qed.

Lemma split_revision_at : split_revision (repo +:+ "@" +:+ rev) = (repo, rev).
Proof.
  unfold split_revision. rewrite includes_char, no_char_app.
  replace (no_char "@" ("@" +:+ rev)) with false by done.
  rewrite andb_false_r. simpl negb. cbv iota.
  change ("@" +:+ rev) with (String "@" rev).
  rewrite split_app by done. rewrite split_no_char by done. simpl.
  by rewrite (nonempty_of_segment _ repo_segment), (nonempty_of_segment _ rev_segment).
Qed.

Lemma head_eqb_false (lit : string) f file' :
  file = f :: file' -> head file <> Some lit -> String.eqb f lit = false.
Proof. intros -> H. apply String.eqb_neq. intros ->. by apply H. Qed.

(** The shape [org/repo...] without a keyword. *)
Lemma parse_parts_plain (r repo' rev' : string) :
  split_revision r = (repo', rev') ->
  parse_parts (org :: r :: file)
  = Returned (mkRef (org +:+ "/" +:+ repo') rev' (join "/" file) auto).
Proof.
  intros Hsplit. destruct file_cons as (f & file' & Hfile).
  pose proof (head_eqb_false "resolve" _ _ Hfile file_not_resolve) as Hres.
  pose proof (head_eqb_false "blob" _ _ Hfile file_not_blob) as Hblob.
  pose proof file_suffix as Hsuf. rewrite Hfile in Hsuf |- *.
  unfold parse_parts, isResolveOrBlob, keyword_offset. simpl.
  rewrite org_eqb_keyword. simpl. rewrite Hres, Hblob. simpl.
  by rewrite Hsplit, Hsuf.
Qed.

(** The shape [datasets/org/repo...]. *)
Lemma parse_parts_keyword (r repo' rev' : string) :
  split_revision r = (repo', rev') ->
  parse_parts ("datasets" :: org :: r :: file)
  = Returned (mkRef (org +:+ "/" +:+ repo') rev' (join "/" file) datasets).
Proof.
  intros Hsplit. destruct file_cons as (f & file' & Hfile).
  pose proof (head_eqb_false "resolve" _ _ Hfile file_not_resolve) as Hres.
  pose proof (head_eqb_false "blob" _ _ Hfile file_not_blob) as Hblob.
  pose proof file_suffix as Hsuf. rewrite Hfile in Hsuf |- *.
  unfold parse_parts, isResolveOrBlob, keyword_offset. simpl.
  replace (String.eqb "datasets" "datasets") with true by done. simpl.
  rewrite Hres, Hblob. simpl.
  by rewrite Hsplit, Hsuf.
Qed.

(** The shape [org/repo/(resolve|blob)/rev/...] of a full URL. *)
Lemma parse_parts_url (lit : string) :
  lit = "resolve" \/ lit = "blob" ->
  parse_parts (org :: repo :: lit :: rev :: file) = result models.
Proof.
  intros Hlit. destruct file_cons as (f & file' & Hfile).
  pose proof file_suffix as Hsuf. unfold result. rewrite Hfile in Hsuf |- *.
  unfold parse_parts, isResolveOrBlob, keyword_offset. simpl.
  rewrite org_eqb_keyword. simpl.
  assert (String.eqb lit "resolve" || String.eqb lit "blob" = true) as ->.
  { by destruct Hlit as [-> | ->]. }
  simpl. by rewrite Hsuf, (nonempty_of_segment _ rev_segment).
Qed.

Lemma parse_parts_url_keyword (lit : string) :
  lit = "resolve" \/ lit = "blob" ->
  parse_parts ("datasets" :: org :: repo :: lit :: rev :: file) = result datasets.
Proof.
  intros Hlit. destruct file_cons as (f & file' & Hfile).
  pose proof file_suffix as Hsuf. unfold result. rewrite Hfile in Hsuf |- *.
  unfold parse_parts, isResolveOrBlob, keyword_offset. simpl.
  replace (String.eqb "datasets" "datasets") with true by done. simpl.
  assert (String.eqb lit "resolve" || String.eqb lit "blob" = true) as ->.
  { by destruct Hlit as [-> | ->]. }
  simpl. by rewrite Hsuf, (nonempty_of_segment _ rev_segment).
Qed.

Lemma file_segment_facts :
  join "/" file <> "" /\ trimEnd (join "/" file) = join "/" file.
Proof. by apply trimEnd_parquet. Qed.

Lemma trimEnd_join_file (pre : list string) :
  pre <> [] ->
  trimEnd (join "/" (pre ++ file)) = join "/" (pre ++ file).
Proof.
  intros Hpre. destruct file_cons as (f & file' & Hfile).
  destruct file_segment_facts as [Hne Htrim].
  rewrite join_app; [| done | by rewrite Hfile].
  rewrite <- append_assoc. by apply trimEnd_app.
Qed.

Lemma at_revision_segment : segment (repo +:+ "@" +:+ rev) = true.
Proof.
  destruct (segment_inv _ repo_segment) as [Hne Hno].
  destruct (segment_inv _ rev_segment) as [_ Hno'].
  unfold segment. rewrite !no_char_app, Hno, Hno'.
  destruct repo; [done|]. reflexivity.
Qed.

Lemma segments_of (x y : string) (l : list string) :
  segment x = true -> starts_with_space x = false -> segment y = true ->
  Forall (fun s => segment s = true) l ->
  segments (join "/" (x :: y :: l ++ file)) = x :: y :: l ++ file.
Proof.
  intros Hx Hsp Hy Hl. apply segments_join; [| done |].
  - constructor; [done|]. constructor; [done|]. by apply Forall_app.
  - by apply (trimEnd_join_file (x :: y :: l)).
Qed.

Lemma segments_of_url (x : string) (l : list string) :
  Forall (fun s => segment s = true) (x :: l) ->
  segments ("https://huggingface.co/" +:+ join "/" (x :: l ++ file))
  = x :: l ++ file.
Proof.
  intros Hl. apply segments_hosted.
  - unfold host_prefixes. set_solver.
  - change (x :: l ++ file) with ((x :: l) ++ file). by apply Forall_app.
  - by apply (trimEnd_join_file (x :: l)).
Qed.

(** C3 (amended).  For a resource whose names can be told apart in every
    shape (the hypotheses of the section: organisation, repository and
    revision are segments, the organisation is not the keyword [datasets]
    and does not begin with white space, repository and revision have no
    [@], the file path is made of segments, ends with [.parquet] and does not
    begin with the segment [resolve] or [blob]), all the shapes give the
    same [repoId], [revision] and [filePath].  The [repoType] follows the
    shape: [auto] for [org/repo/path] and [org/repo@rev/path], [datasets]
    when the input starts with the [datasets] keyword, [models] for a resolve
    or blob URL without that keyword.  The shapes without a revision stand
    for the revision [main]. *)
Theorem parse_shapes_agree :
  parseHFParquetPath (Shapes.at_revision org repo rev file) = result auto
  /\ parseHFParquetPath (Shapes.prefixed_at_revision org repo rev file) = result datasets
  /\ parseHFParquetPath (Shapes.url "resolve" org repo rev file) = result models
  /\ parseHFParquetPath (Shapes.url "blob" org repo rev file) = result models
  /\ parseHFParquetPath (Shapes.url_prefixed "resolve" org repo rev file) = result datasets
  /\ parseHFParquetPath (Shapes.url_prefixed "blob" org repo rev file) = result datasets
  /\ (rev = "main" ->
      parseHFParquetPath (Shapes.bare org repo file) = result auto
      /\ parseHFParquetPath (Shapes.prefixed org repo file) = result datasets).
Proof.
  pose proof at_revision_segment as Hat.
  assert (segment "datasets" = true) as Hkw by done.
  assert (segment "resolve" = true) as Hres by done.
  assert (segment "blob" = true) as Hblob by done.
  unfold parseHFParquetPath, Shapes.at_revision, Shapes.prefixed_at_revision,
    Shapes.url, Shapes.url_prefixed, Shapes.bare, Shapes.prefixed.
  assert (forall l, Forall (fun s => segment s = true) l ->
            Forall (fun s => segment s = true) (rev :: l)) as Hrev
    by (by constructor).
  repeat split.
  - pose proof (segments_of org _ [] org_segment org_no_space Hat
                  (Forall_nil_2 _)) as Hs.
    cbn [app] in Hs. rewrite Hs.
    apply parse_parts_plain, split_revision_at.
  - pose proof (segments_of "datasets" org [repo +:+ "@" +:+ rev]
                  Hkw eq_refl org_segment) as Hs.
    cbn [app] in Hs. rewrite Hs by (by repeat constructor).
    apply parse_parts_keyword, split_revision_at.
  - pose proof (segments_of_url org [repo; "resolve"; rev]) as Hs.
    cbn [app] in Hs. rewrite Hs by (by repeat constructor).
    apply parse_parts_url. by left.
  - pose proof (segments_of_url org [repo; "blob"; rev]) as Hs.
    cbn [app] in Hs. rewrite Hs by (by repeat constructor).
    apply parse_parts_url. by right.
  - pose proof (segments_of_url "datasets" [org; repo; "resolve"; rev]) as Hs.
    cbn [app] in Hs. rewrite Hs by (by repeat constructor).
    apply parse_parts_url_keyword. by left.
  - pose proof (segments_of_url "datasets" [org; repo; "blob"; rev]) as Hs.
    cbn [app] in Hs. rewrite Hs by (by repeat constructor).
    apply parse_parts_url_keyword. by right.
  - pose proof (segments_of org repo [] org_segment org_no_space repo_segment
                  (Forall_nil_2 _)) as Hs.
    cbn [app] in Hs. rewrite Hs.
    rewrite (parse_parts_plain _ _ _ split_revision_plain). unfold result.
    match goal with H : rev = "main" |- _ => by rewrite H end.
  - pose proof (segments_of "datasets" org [repo] Hkw eq_refl org_segment) as Hs.
    cbn [app] in Hs. rewrite Hs by (by repeat constructor).
    rewrite (parse_parts_keyword _ _ _ split_revision_plain). unfold result.
    match goal with H : rev = "main" |- _ => by rewrite H end.
Qed.

End SameResource.

Lemma parse_shapes_agree_witness :
  parseHFParquetPath "org/repo/data/train.parquet"
  = Returned (mkRef "org/repo" "main" "data/train.parquet" auto)
  /\ parseHFParquetPath "https://huggingface.co/org/repo/resolve/main/data/train.parquet"
     = Returned (mkRef "org/repo" "main" "data/train.parquet" models).
Proof.
  assert (Forall (fun s => segment s = true) ["data"; "train.parquet"]) as Hfile
    by (by repeat constructor).
  destruct (parse_shapes_agree "org" "repo" "main" ["data"; "train.parquet"]
              eq_refl eq_refl ltac:(discriminate) eq_refl eq_refl eq_refl eq_refl
              Hfile ltac:(discriminate) ltac:(discriminate) eq_refl)
    as (_ & _ & Hurl & _ & _ & _ & Hbare).
  destruct (Hbare eq_refl) as [Hb _].
  split; [exact Hb | exact Hurl].
Defined.

(** C3 (as stated, refuted).  Three shapes of the same file in the same
    repository at revision [main] give three different [repoType]s, hence
    three different results. *)
Lemma parse_shapes_differ_in_repoType :
  parseHFParquetPath "org/repo/data/train.parquet"
  = Returned (mkRef "org/repo" "main" "data/train.parquet" auto)
  /\ parseHFParquetPath "datasets/org/repo/data/train.parquet"
     = Returned (mkRef "org/repo" "main" "data/train.parquet" datasets)
  /\ parseHFParquetPath "https://huggingface.co/org/repo/resolve/main/data/train.parquet"
     = Returned (mkRef "org/repo" "main" "data/train.parquet" models)
  /\ parseHFParquetPath "org/repo/data/train.parquet"
     <> parseHFParquetPath "https://huggingface.co/org/repo/resolve/main/data/train.parquet".
Proof. repeat split. discriminate. Qed.

(** *** When the parser fails *)

Lemma eqb_no_char_false c (s p : string) :
  no_char c p = true -> no_char c s = false -> String.eqb s p = false.
Proof. intros Hp Hs. apply String.eqb_neq. intros ->. congruence. Qed.

Lemma endsWith_skip_segment (a t p : string) :
  no_char "/" p = true ->
  endsWith (a +:+ "/" +:+ t) p = endsWith t p.
Proof.
  intros Hp. induction a as [|x a IH].
  - rewrite append_nil_l. change ("/" +:+ t) with (String "/" t).
    rewrite (endsWith_unfold (String "/" t)).
    by rewrite (eqb_no_char_false "/" _ _ Hp).
  - rewrite append_cons, endsWith_unfold, IH.
    rewrite (eqb_no_char_false "/" _ _ Hp); [reflexivity|].
    simpl. rewrite no_char_app. change ("/" +:+ t) with (String "/" t).
    simpl. by rewrite !andb_false_r.
Qed.

Lemma endsWith_lower_join (l : list string) :
  l <> [] ->
  endsWith (toLowerCase (join "/" l)) ".parquet"
  = endsWith (toLowerCase (default "" (last l))) ".parquet".
Proof.
  induction l as [|x l IH]; [done|]. intros _.
  destruct l as [|y l]; [reflexivity|].
  rewrite join_cons2, !toLowerCase_app, last_cons_cons.
  change (toLowerCase "/") with "/".
  rewrite endsWith_skip_segment by done. by apply IH.
Qed.

Lemma last_drop {A} (l : list A) k :
  (k < length l)%nat -> last (drop k l) = last l.
Proof.
  revert k. induction l as [|x l IH]; intros k Hk; [simpl in Hk; lia|].
  destruct k as [|k]; [done|]. simpl in Hk. rewrite skipn_cons.
  rewrite IH by lia. destruct l; [simpl in Hk; lia | done].
Qed.

Lemma suffix_of_path (parts : list string) k :
  (k < length parts)%nat ->
  endsWith (toLowerCase (join "/" (drop k parts))) ".parquet"
  = endsWith (toLowerCase (trailing_segment parts)) ".parquet".
Proof.
  intros Hk. unfold trailing_segment. rewrite <- (last_drop parts k Hk).
  apply endsWith_lower_join. intros Hnil.
  apply (f_equal length) in Hnil. rewrite length_drop in Hnil. simpl in Hnil. lia.
Qed.

(** C8 (amended).  The parser fails exactly when fewer than three segments
    remain after the optional [datasets] keyword, or the input has the
    resolve/blob URL shape and fewer than five segments after the keyword
    (no file path after the revision), or the trailing segment does not end
    with [.parquet] in any case; otherwise it returns a reference. *)
Theorem parseHFParquetPath_fails_iff (input : string) :
  let parts := segments input in
  let i := keyword_offset parts in
  is_returned (parseHFParquetPath input) = false
  <-> ((length parts < i + 3)%nat
       \/ (isResolveOrBlob parts = true /\ (length parts < i + 5)%nat)
       \/ endsWith (toLowerCase (trailing_segment parts)) ".parquet" = false).
Proof.
  intros parts i. unfold parseHFParquetPath, parse_parts.
  fold parts. fold i.
  assert (i <= 1)%nat as Hi.
  { unfold i, keyword_offset. destruct (is_lit _ _); lia. }
  destruct (Nat.ltb_spec (length parts) 3) as [Hlt|Hge].
  { simpl. split; [intros _; left; lia | done]. }
  destruct (isResolveOrBlob parts) eqn:Hurl.
  - destruct (Nat.ltb_spec (length parts) (i + 5)) as [Hlt5|Hge5].
    { simpl. split; [intros _; right; left; split; [done | lia] | done]. }
    rewrite (suffix_of_path parts (i + 4)) by lia.
    destruct (endsWith _ _) eqn:Hsuf; simpl.
    + split; [done|]. intros [?|[[_ ?]|?]]; (lia || done).
    + split; [intros _; by right; right | done].
  - destruct (Nat.ltb_spec (length parts) (i + 3)) as [Hlt3|Hge3].
    { simpl. split; [intros _; left; lia | done]. }
    destruct (split_revision _) as [repo revision].
    rewrite (suffix_of_path parts (i + 2)) by lia.
    destruct (endsWith _ _) eqn:Hsuf; simpl.
    + split; [done|]. intros [?|[[? _]|?]]; (lia || done).
    + split; [intros _; by right; right | done].
Qed.

(** Every failure of the parser is one of its three errors. *)
Lemma parseHFParquetPath_errors (input : string) (e : JsError) :
  parseHFParquetPath input = Thrown e ->
  e = Error_ msg_invalid_path \/ e = Error_ msg_invalid_url
  \/ e = Error_ msg_not_parquet.
Proof.
  unfold parseHFParquetPath, parse_parts.
  repeat match goal with
         | |- context [if ?b then _ else _] => destruct b
         | |- context [let '(_, _) := ?p in _] => destruct p
         end; intros H; try discriminate; injection H as <-; auto.
Qed.

(** C8 (as stated, refuted).  Three segments remain and the trailing one
    ends with the suffix, and the parser fails all the same: the keyword
    took one of the three. *)
Lemma parse_fails_with_three_segments :
  let input := "datasets/org/file.parquet" in
  length (segments input) = 3%nat
  /\ endsWith (toLowerCase (trailing_segment (segments input))) ".parquet" = true
  /\ parseHFParquetPath input = Thrown (Error_ msg_invalid_path)
  /\ ~ (is_returned (parseHFParquetPath input) = false
        <-> ((length (segments input) < 3)%nat
             \/ endsWith (toLowerCase (trailing_segment (segments input)))
                  ".parquet" = false)).
Proof.
  repeat split. intros [H _]. specialize (H eq_refl).
  destruct H as [H | H]; [vm_compute in H; lia | vm_compute in H; discriminate].
Qed.

(** Outside the hypotheses of [parse_shapes_agree] the shapes overlap: the
    bare path of the file [blob/main/x.parquet] is read as the URL shape,
    and a repository of the organisation [datasets] is read with the
    keyword. *)
Example parse_bare_path_read_as_url :
  parseHFParquetPath (Shapes.bare "org" "repo" ["blob"; "main"; "x.parquet"])
  = Returned (mkRef "org/repo" "main" "x.parquet" models)
  /\ parseHFParquetPath (Shapes.bare "datasets" "repo" ["a"; "x.parquet"])
     = Returned (mkRef "repo/a" "main" "x.parquet" datasets).
Proof. by vm_compute. Qed.

End ParserFacts.

(** ** The model on small inputs *)

Module ModelExamples.

Example trim_spaces : Str.trim "  a b  " = "a b".
Proof. reflexivity. Qed.

Example split_slashes : Str.split "/" "a//b/" = ["a"; ""; "b"; ""].
Proof. reflexivity. Qed.

Example segments_of_url_input :
  segments " https://www.huggingface.co/datasets/org/repo/blob/main/x.parquet"
  = ["datasets"; "org"; "repo"; "blob"; "main"; "x.parquet"].
Proof. reflexivity. Qed.

Example host_is_case_sensitive :
  segments "https://HuggingFace.co/org/repo/x.parquet"
  = ["https:"; "HuggingFace.co"; "org"; "repo"; "x.parquet"].
Proof. reflexivity. Qed.

Example token_with_scheme : sanitizeToken "  Bearer   hf_abc  " = "hf_abc".
Proof. reflexivity. Qed.

Example token_in_quotes :
  sanitizeToken (String Str.dquote "hf_abc" +:+ String Str.dquote "") = "hf_abc".
Proof. reflexivity. Qed.

Example token_with_second_word : sanitizeToken "'hf_abc' extra" = "'hf_abc'".
Proof. reflexivity. Qed.

Example token_empty : sanitizeToken "   " = "".
Proof. reflexivity. Qed.

Example encode_path : encodeHFPath "/data//train 0+1.parquet" = "data/train%200%2B1.parquet".
Proof. reflexivity. Qed.

Example build_datasets_url :
  buildUrl "org/repo" "main" "data/x.parquet" datasets
  = "https://huggingface.co/datasets/org/repo/resolve/main/data/x.parquet".
Proof. reflexivity. Qed.

Example download_query :
  withDownloadQuery "https://huggingface.co/org/repo/resolve/main/x.parquet"
  = "https://huggingface.co/org/repo/resolve/main/x.parquet?download=true".
Proof. reflexivity. Qed.

Example strip_last_extension : strip_extension "a.b.c" = "a.b".
Proof. reflexivity. Qed.

Example strip_no_extension : strip_extension "dir.d/file" = "dir.d/file".
Proof. reflexivity. Qed.

Example sidecar_of_image : getSidecarCaptionPath "/data/cats/dog.png" = "/data/cats/dog.txt".
Proof. reflexivity. Qed.

Example sanitize_path_separators : sanitizeFileName "../a b.png" = ".._a_b.png".
Proof. reflexivity. Qed.

Example error_text_of_error : error_text (Error_ "boom") = "boom".
Proof. reflexivity. Qed.

Example error_text_without_message : error_text (Error_ "") = "Error".
Proof. reflexivity. Qed.

Example format_failed_attempt :
  formatAttempt "datasets"
    (AttemptErr (mkErr 404 "Not Found" "https://huggingface.co/x" "Repository not found" ""))
  = "- datasets: https://huggingface.co/x -> 404 Not Found (x-error-message: Repository not found)".
Proof. reflexivity. Qed.

Example parent_of_nested : parent_of "/data/cats/my_cat.jpg" = "/data/cats".
Proof. reflexivity. Qed.

Example parent_of_top : parent_of "/input.parquet" = "/".
Proof. reflexivity. Qed.

Example write_without_directory :
  writeFileSync {[ "/" := Dir ]} "/data/cats/my_cat.jpg" []
  = Thrown (mkError "Error"
              "ENOENT: no such file or directory, open '/data/cats/my_cat.jpg'").
Proof. by vm_compute. Qed.

Example write_into_directory :
  writeFileSync {[ "/" := Dir ]} "/my_cat.jpg" []
  = Returned (<["/my_cat.jpg" := File []]> {[ "/" := Dir ]}).
Proof. by vm_compute. Qed.

Example write_onto_directory :
  writeFileSync {[ "/" := Dir; "/data" := Dir ]} "/data" []
  = Thrown (mkError "Error" "EISDIR: illegal operation on a directory, open '/data'").
Proof. by vm_compute. Qed.

Example truthy_of_numbers :
  Js.truthy (VNumber (mkNumber true "0")) = false
  /\ Js.truthy (VNumber (mkNumber true "NaN")) = false
  /\ Js.truthy (VNumber (mkNumber false "1e+21")) = true.
Proof. done. Qed.

End ModelExamples.

(** ** File writer *)

Module WriterFacts.

Lemma attempt_bound_pos : (1 <= attempt_bound)%nat.
Proof. apply Nat.leb_le. reflexivity. Qed.

#[local] Opaque attempt_bound.

(** A write that returns found the directory of the path, did not find a
    directory at the path, and put the file there. *)
Lemma writeFileSync_Returned (fs fs' : filesystem) p data :
  writeFileSync fs p data = Returned fs' ->
  fs' = <[p := File data]> fs
  /\ fs !! parent_of p = Some Dir
  /\ fs !! p <> Some Dir.
Proof.
  unfold writeFileSync.
  destruct (fs !! parent_of p) as [[c|]|]; [discriminate| |discriminate].
  destruct (fs !! p) as [[c|]|]; [|discriminate|]; by intros [= <-].
Qed.

Lemma existsSync_write (fs fs' : filesystem) p data :
  writeFileSync fs p data = Returned fs' -> existsSync fs' p = true.
Proof.
  intros (-> & _ & _)%writeFileSync_Returned.
  unfold existsSync. by rewrite lookup_insert_eq.
Qed.

Lemma existsSync_write_mono (fs fs' : filesystem) p data q :
  writeFileSync fs p data = Returned fs' ->
  existsSync fs q = true -> existsSync fs' q = true.
Proof.
  intros (-> & _ & _)%writeFileSync_Returned. unfold existsSync. intros Hq.
  destruct (decide (p = q)) as [->|Hne].
  - by rewrite lookup_insert_eq.
  - by rewrite lookup_insert_ne.
Qed.

Section Allocation.

Context `{NodeLib}.
Variable fs : filesystem.
Variables dir baseName extensionWithDot : string.

Local Abbreviation plain := (plain_candidate dir baseName extensionWithDot).
Local Abbreviation suffixed := (suffixed_candidate dir baseName extensionWithDot).
Local Abbreviation loop := (uniquePath_loop fs dir baseName extensionWithDot).

Lemma uniquePath_loop_Some n i c :
  loop n i = Some c ->
  exists k, (i <= k < i + n)%nat /\ c = suffixed k
            /\ existsSync fs c = false
            /\ forall j, (i <= j < k)%nat -> existsSync fs (suffixed j) = true.
Proof.
  revert i. induction n as [|n IH]; intros i; simpl; [discriminate|].
  destruct (existsSync fs (suffixed i)) eqn:Hex; simpl.
  - intros Hloop. destruct (IH _ Hloop) as (k & Hk & -> & Hfree & Hbelow).
    exists k. split; [lia|]. split; [done|]. split; [done|].
    intros j Hj. destruct (decide (j = i)) as [->|]; [done|]. apply Hbelow. lia.
  - intros [= <-]. exists i. split; [lia|]. split; [done|]. split; [done|].
    intros j Hj. lia.
Qed.

Lemma uniquePath_loop_None n i :
  loop n i = None <->
  forall j, (i <= j < i + n)%nat -> existsSync fs (suffixed j) = true.
Proof.
  revert i. induction n as [|n IH]; intros i; simpl.
  - split; [intros _ j Hj; lia | done].
  - destruct (existsSync fs (suffixed i)) eqn:Hex; simpl.
    + rewrite IH. split.
      * intros Hall j Hj. destruct (decide (j = i)) as [->|]; [done|].
        apply Hall. lia.
      * intros Hall j Hj. apply Hall. lia.
    + split; [done|]. intros Hall. rewrite Hall in Hex by lia. done.
Qed.

Lemma uniquePath_loop_first n i k :
  (i <= k < i + n)%nat ->
  existsSync fs (suffixed k) = false ->
  (forall j, (i <= j < k)%nat -> existsSync fs (suffixed j) = true) ->
  loop n i = Some (suffixed k).
Proof.
  revert i. induction n as [|n IH]; intros i Hk Hfree Hbelow; [lia|].
  simpl. destruct (decide (k = i)) as [->|Hne].
  - by rewrite Hfree.
  - rewrite Hbelow by lia. simpl. apply IH; [lia | done |].
    intros j Hj. apply Hbelow. lia.
Qed.

Lemma uniquePath_returns_free p :
  uniquePath fs dir baseName extensionWithDot = Returned p ->
  existsSync fs p = false.
Proof.
  unfold uniquePath. destruct (existsSync fs plain) eqn:Hex; simpl.
  - destruct (loop (attempt_bound - 1) 1) as [c|] eqn:Hloop; [|discriminate].
    intros [= <-]. by destruct (uniquePath_loop_Some _ _ _ Hloop) as (k & _ & _ & ? & _).
  - by intros [= <-].
Qed.

Lemma uniquePath_suffixed p :
  existsSync fs plain = true ->
  uniquePath fs dir baseName extensionWithDot = Returned p ->
  exists k, (1 <= k < attempt_bound)%nat /\ p = suffixed k.
Proof.
  intros Hex. unfold uniquePath. rewrite Hex. simpl.
  destruct (loop (attempt_bound - 1) 1) as [c|] eqn:Hloop; [|discriminate].
  intros [= <-]. destruct (uniquePath_loop_Some _ _ _ Hloop) as (k & Hk & -> & _).
  exists k. pose proof attempt_bound_pos. split; [lia | done].
Qed.

End Allocation.

Section AllocationOrder.

Context `{NodeLib}.
Variable fs : filesystem.
Variables dir baseName extensionWithDot : string.

Local Abbreviation plain := (plain_candidate dir baseName extensionWithDot).
Local Abbreviation suffixed := (suffixed_candidate dir baseName extensionWithDot).
Local Abbreviation loop := (uniquePath_loop fs dir baseName extensionWithDot).

(** The allocation in terms of the candidates of the loop. *)
Lemma uniquePath_by_candidates :
  (existsSync fs plain = false ->
   uniquePath fs dir baseName extensionWithDot = Returned plain)
  /\ (forall k,
        existsSync fs plain = true ->
        (1 <= k < attempt_bound)%nat ->
        existsSync fs (suffixed k) = false ->
        (forall j, (1 <= j < k)%nat -> existsSync fs (suffixed j) = true) ->
        uniquePath fs dir baseName extensionWithDot = Returned (suffixed k))
  /\ (forall e,
        uniquePath fs dir baseName extensionWithDot = Thrown e
        <-> e = Error_ msg_no_unique
            /\ existsSync fs plain = true
            /\ forall j, (1 <= j < attempt_bound)%nat ->
                         existsSync fs (suffixed j) = true)
  /\ (forall p1 (fs2 : filesystem) baseName2 extension2 p2,
        uniquePath fs dir baseName extensionWithDot = Returned p1 ->
        (forall q, existsSync fs q = true -> existsSync fs2 q = true) ->
        existsSync fs2 p1 = true ->
        safeBase_of baseName2 = safeBase_of baseName ->
        safeExt_of extension2 = safeExt_of extensionWithDot ->
        uniquePath fs2 dir baseName2 extension2 = Returned p2 ->
        p1 <> p2 /\ exists k, (1 <= k < attempt_bound)%nat /\ p2 = suffixed k).
Proof.
  pose proof attempt_bound_pos as Hpos.
  split; [|split; [|split]].
  - intros Hfree. unfold uniquePath. by rewrite Hfree.
  - intros k Hex Hk Hfree Hbelow. unfold uniquePath. rewrite Hex. simpl.
    rewrite (uniquePath_loop_first fs dir baseName extensionWithDot _ 1 k);
      [done | lia | done | done].
  - intros e. unfold uniquePath.
    destruct (existsSync fs plain) eqn:Hex; simpl.
    + destruct (loop (attempt_bound - 1) 1) as [c|] eqn:Hloop.
      * split; [discriminate|]. intros (_ & _ & Hall).
        destruct (uniquePath_loop_Some _ _ _ _ _ _ _ Hloop)
          as (k & Hk & -> & Hfree & _).
        rewrite Hall in Hfree by lia. discriminate.
      * pose proof (proj1 (uniquePath_loop_None _ _ _ _ _ _) Hloop) as Hall. split.
        -- intros [= <-]. split; [done|]. split; [done|].
           intros j Hj. apply Hall. lia.
        -- by intros (-> & _ & _).
    + split; [discriminate | by intros (_ & ? & _)].
  - intros p1 fs2 baseName2 extension2 p2 Hp1 Hmono Hp1ex Hbase Hext Hp2.
    split.
    + intros ->. apply uniquePath_returns_free in Hp2. congruence.
    + assert (existsSync fs2 plain = true) as Hplain.
      { revert Hp1. unfold uniquePath.
        destruct (existsSync fs plain) eqn:Hex; simpl.
        - intros _. by apply Hmono.
        - by intros [= <-]. }
      assert (plain_candidate dir baseName2 extension2 = plain) as Hsame.
      { unfold plain_candidate. by rewrite Hbase, Hext. }
      rewrite <- Hsame in Hplain.
      destruct (uniquePath_suffixed _ _ _ _ _ Hplain Hp2) as (k & Hk & ->).
      exists k. split; [done|]. unfold suffixed_candidate. by rewrite Hbase, Hext.
Qed.

Lemma of_nat_decimal (i : nat) :
  Nat.of_uint <$> NilEmpty.uint_of_string (Str.of_nat i) = Some i.
Proof.
  unfold Str.of_nat. rewrite NilEmpty.usu. cbn [fmap option_fmap option_map].
  by rewrite DecimalNat.Unsigned.of_to.
Qed.

(** C7.  With [base] and [ext] the sanitized base name and the sanitized
    extension (with its dot): the allocation returns [dir/base ext] when
    that path is free; otherwise the first free path [dir/base_i ext], where
    [i] is written in decimal and counts from 1 up to the bound 10000
    (excluded); it fails with the no-unique-name error exactly when the
    plain path and all the numbered paths below the bound exist.  The path
    it returns is free, so a second asset with the same sanitized name,
    allocated once the first path exists, gets a different path, which
    carries a numeric suffix. *)
Theorem uniquePath_allocation :
  let base := sanitizeFileName baseName in
  let ext :=
    sanitizeFileName (if Str.startsWith extensionWithDot "." then extensionWithDot
                      else "." +:+ extensionWithDot) in
  let plain_path := path_join dir (base +:+ ext) in
  let numbered (i : nat) := path_join dir (base +:+ "_" +:+ Str.of_nat i +:+ ext) in
  (existsSync fs plain_path = false ->
   uniquePath fs dir baseName extensionWithDot = Returned plain_path)
  /\ (forall k,
        existsSync fs plain_path = true ->
        (1 <= k < attempt_bound)%nat ->
        existsSync fs (numbered k) = false ->
        (forall j, (1 <= j < k)%nat -> existsSync fs (numbered j) = true) ->
        uniquePath fs dir baseName extensionWithDot = Returned (numbered k))
  /\ (forall e,
        uniquePath fs dir baseName extensionWithDot = Thrown e
        <-> e = Error_ msg_no_unique
            /\ existsSync fs plain_path = true
            /\ forall j, (1 <= j < attempt_bound)%nat ->
                         existsSync fs (numbered j) = true)
  /\ (forall p1 (fs2 : filesystem) baseName2 extension2 p2,
        uniquePath fs dir baseName extensionWithDot = Returned p1 ->
        (forall q, existsSync fs q = true -> existsSync fs2 q = true) ->
        existsSync fs2 p1 = true ->
        sanitizeFileName baseName2 = base ->
        sanitizeFileName (if Str.startsWith extension2 "." then extension2
                          else "." +:+ extension2) = ext ->
        uniquePath fs2 dir baseName2 extension2 = Returned p2 ->
        p1 <> p2 /\ exists k, (1 <= k < attempt_bound)%nat /\ p2 = numbered k)
  /\ (forall i, Nat.of_uint <$> NilEmpty.uint_of_string (Str.of_nat i) = Some i)
  /\ attempt_bound = 10000%nat.
Proof.
  intros base ext plain_path numbered.
  destruct uniquePath_by_candidates as (Hplain & Hnumbered & Hthrown & Hsecond).
  split; [exact Hplain|]. split; [exact Hnumbered|]. split; [exact Hthrown|].
  split; [exact Hsecond|]. split; [exact of_nat_decimal|].
  apply Nat.eqb_eq. by vm_compute.
Qed.

End AllocationOrder.

Import (hints) Sample.

Example sanitize_space : sanitizeFileName "my cat" = "my_cat".
Proof. reflexivity. Qed.

Lemma below_attempt_bound (k : nat) : (k <? attempt_bound)%nat = true -> (k < attempt_bound)%nat.
Proof. apply Nat.ltb_lt. Qed.

(** An empty dataset directory, then the directory after a first and after
    a second image of the same sanitized name. *)
Lemma uniquePath_allocation_witness :
  uniquePath Sample.folders "/data/cats" "my cat" ".jpg" = Returned "/data/cats/my_cat.jpg"
  /\ uniquePath Sample.one_cat "/data/cats" "my_cat" "jpg"
     = Returned "/data/cats/my_cat_1.jpg"
  /\ uniquePath Sample.two_cats "/data/cats" "my?cat" ".jpg"
     = Returned "/data/cats/my_cat_2.jpg"
  /\ "/data/cats/my_cat.jpg" <> "/data/cats/my_cat_1.jpg".
Proof.
  pose proof (uniquePath_allocation Sample.folders "/data/cats" "my cat" ".jpg")
    as (Hplain & _ & _ & Hsecond & _).
  pose proof (uniquePath_allocation Sample.one_cat "/data/cats" "my_cat" "jpg")
    as (_ & Hone & _).
  pose proof (uniquePath_allocation Sample.two_cats "/data/cats" "my?cat" ".jpg")
    as (_ & Htwo & _).
  assert (1 <= 1 < attempt_bound)%nat as H1
    by (split; [lia | apply below_attempt_bound; by vm_compute]).
  assert (1 <= 2 < attempt_bound)%nat as H2
    by (split; [lia | apply below_attempt_bound; by vm_compute]).
  specialize (Hplain eq_refl).
  specialize (Hone 1%nat eq_refl H1 eq_refl).
  specialize (Htwo 2%nat eq_refl H2 eq_refl).
  assert (uniquePath Sample.one_cat "/data/cats" "my_cat" "jpg"
          = Returned "/data/cats/my_cat_1.jpg") as Hp1.
  { apply Hone. intros j Hj. lia. }
  split; [exact Hplain|]. split; [exact Hp1|]. split.
  - apply Htwo. intros j Hj. assert (j = 1%nat) as -> by lia. reflexivity.
  - refine (proj1 (Hsecond "/data/cats/my_cat.jpg" Sample.one_cat "my_cat" "jpg"
                     "/data/cats/my_cat_1.jpg" Hplain _ eq_refl eq_refl eq_refl Hp1)).
    intros q Hq. unfold existsSync in *. unfold Sample.one_cat.
    destruct (decide ("/data/cats/my_cat.jpg" = q)) as [<-|Hne].
    + by rewrite lookup_insert_eq.
    + by rewrite lookup_insert_ne.
Defined.

End WriterFacts.

(** ** Remote fetcher *)

Module FetchFacts.

Section Policy.

Context `{Network}.

Lemma tryFetch_run (url : string) (headers : Headers) (w : World) :
  tryFetch url headers w
  = (attempt_of url (fst (fetch (w_net w) url headers)),
     mkWorld (snd (fetch (w_net w) url headers))
             (w_log w ++ [mkExchange url (h_authorization headers)
                                     (fst (fetch (w_net w) url headers))])
             (w_fs w)).
Proof.
  unfold tryFetch, bind, do_fetch, attempt_of, lift, ret.
  destruct (fetch (w_net w) url headers) as [[res|e] n']; simpl; [|done].
  destruct (res_ok res); [|done]. by destruct (res_arrayBuffer res).
Qed.

Lemma attempt_err_non_2xx url auth (o : outcome Response) err :
  attempt_of url o = Returned (AttemptErr err) ->
  answered_non_2xx (mkExchange url auth o) = true
  /\ exists res, o = Returned res /\ err = err_of_response url res.
Proof.
  unfold attempt_of, answered_non_2xx. simpl.
  destruct o as [res|e]; [|discriminate].
  destruct (res_ok res).
  - by destruct (res_arrayBuffer res).
  - intros [= <-]. split; [done|]. by exists res.
Qed.

Lemma attempt_ok_2xx url auth (o : outcome Response) a :
  attempt_of url o = Returned (AttemptOk a) ->
  answered_non_2xx (mkExchange url auth o) = false.
Proof.
  unfold attempt_of, answered_non_2xx. simpl.
  destruct o as [res|e]; [|discriminate].
  by destruct (res_ok res).
Qed.

Lemma attempt_thrown url auth (o : outcome Response) e :
  attempt_of url o = Thrown e ->
  answered_non_2xx (mkExchange url auth o) = false.
Proof.
  unfold attempt_of, answered_non_2xx. simpl.
  destruct o as [res|e']; [|done].
  by destruct (res_ok res).
Qed.

Lemma headers_for_auth (token : string) :
  headers_for (h_authorization (headersWithAuth_of token)) = headersWithAuth_of token.
Proof. unfold headersWithAuth_of. by destruct (Str.nonempty token). Qed.

(** The run stops at the request [x], after the requests [before]. *)
Lemma follows_plan_stop plan (w : World) n' (before : list Exchange) x r :
  answered_by (w_net w) (before ++ [x]) n' ->
  (request_of <$> (before ++ [x])) `prefix_of` plan ->
  Forall (fun y => answered_non_2xx y = true) before ->
  r = attempt_of (ex_url x) (ex_result x) ->
  (answered_non_2xx x = true -> length (before ++ [x]) = length plan) ->
  follows_plan plan w (mkWorld n' (w_log w ++ before ++ [x]) (w_fs w)) r.
Proof.
  intros Hnet Hpre Hall Hr Hlen. exists (before ++ [x]). split; [done|].
  split; [done|]. split; [done|].
  split; [done|]. split; [by rewrite removelast_last|].
  exists x. by rewrite last_snoc.
Qed.

Lemma attempt_err_answered url auth (o : outcome Response) err :
  attempt_of url o = Returned (AttemptErr err) ->
  answered_non_2xx (mkExchange url auth o) = true.
Proof. intros Hatt. by destruct (attempt_err_non_2xx url auth o err Hatt). Qed.

Ltac next_fetch Hatt :=
  rewrite tryFetch_run; simpl;
  match goal with
  | |- context [attempt_of ?u (fst ?f)] =>
      destruct (attempt_of u (fst f)) as [[?|?]|?] eqn:Hatt; simpl
  end.

Ltac stop_after before :=
  match goal with
  | |- follows_plan _ ?w (mkWorld _ ?log _) _ =>
      rewrite <- ?(app_assoc (w_log w)); simpl;
      apply (follows_plan_stop _ w _ before);
      [ repeat match goal with x := _ |- _ => subst x end;
        simpl; rewrite ?headers_for_auth; by repeat split
      | simpl; by eexists
      | repeat constructor; eauto using attempt_err_answered
      | simpl; congruence
      | simpl; first
          [ reflexivity
          | intros Hx;
            first [ erewrite attempt_ok_2xx in Hx by eassumption
                  | erewrite attempt_thrown in Hx by eassumption ];
            discriminate ] ]
  end.

Lemma tryWithFallbackAuth_follows_plan (token url : string) (w : World) :
  follows_plan (planned_requests token url) w
    (snd (tryWithFallbackAuth token url w))
    (fst (tryWithFallbackAuth token url w)).
Proof.
  unfold tryWithFallbackAuth, planned_requests.
  destruct (Str.nonempty token) eqn:Htok.
  - unfold auth_loop, plain_loop, attemptOnce, bind, ret.
    set (auth := headersWithAuth_of token).
    next_fetch H1; [stop_after (@nil Exchange) | | stop_after (@nil Exchange)].
    set (x1 := mkExchange url (h_authorization auth) _).
    next_fetch H2; [stop_after [x1] | | stop_after [x1]].
    set (x2 := mkExchange url None _).
    next_fetch H3; [stop_after [x1; x2] | | stop_after [x1; x2]].
    set (x3 := mkExchange (withDownloadQuery url) (h_authorization auth) _).
    next_fetch H4; [stop_after [x1; x2; x3] | | stop_after [x1; x2; x3]].
    set (x4 := mkExchange (withDownloadQuery url) None _).
    next_fetch H5; stop_after [x1; x2; x3; x4].
  - unfold auth_loop, plain_loop, attemptOnce, bind, ret.
    next_fetch H1; [stop_after (@nil Exchange) | | stop_after (@nil Exchange)].
    set (x1 := mkExchange url None _).
    next_fetch H2; [stop_after [x1] | | stop_after [x1]].
    set (x2 := mkExchange (withDownloadQuery url) None _).
    next_fetch H3; stop_after [x1; x2].
Qed.

Lemma auth_header (token : string) :
  Str.nonempty token = true ->
  h_authorization (headersWithAuth_of token) = Some ("Bearer " +:+ token).
Proof. intros Htok. unfold headersWithAuth_of. by rewrite Htok. Qed.

Lemma helper_tryFetch_run (url : string) (headers : Headers) (w : World) :
  helper_tryFetch url headers w
  = (helper_result_of (fst (fetch (w_net w) url headers)),
     mkWorld (snd (fetch (w_net w) url headers))
             (w_log w ++ [mkExchange url (h_authorization headers)
                                     (fst (fetch (w_net w) url headers))])
             (w_fs w)).
Proof.
  unfold helper_tryFetch, bind, do_fetch, helper_result_of, lift, throw.
  destruct (fetch (w_net w) url headers) as [[res|e] n']; simpl; [|done].
  by destruct (res_ok res).
Qed.

(** The helper script, with a token: the URL with the header; unless that
    gives the bytes, the same URL without the header, whose result is the
    result. *)
Lemma tryRepoType_with_token (cleanToken repoId rev fp type : string) (w : World) :
  Str.nonempty cleanToken = true ->
  let url := helper_buildUrl repoId rev fp type in
  let auth := headersWithAuth_of cleanToken in
  let first := fetch (w_net w) url auth in
  let x1 := mkExchange url (Some ("Bearer " +:+ cleanToken)) (fst first) in
  let second := fetch (snd first) url baseHeaders in
  let x2 := mkExchange url None (fst second) in
  tryRepoType cleanToken repoId rev fp type w
  = match helper_result_of (fst first) with
    | Returned buf => (Returned buf, mkWorld (snd first) (w_log w ++ [x1]) (w_fs w))
    | Thrown _ =>
        (helper_result_of (fst second),
         mkWorld (snd second) (w_log w ++ [x1; x2]) (w_fs w))
    end.
Proof.
  intros Htok. simpl. unfold tryRepoType, try_catch. rewrite Htok.
  rewrite helper_tryFetch_run, (auth_header _ Htok).
  destruct (helper_result_of _) as [buf|e]; [done|].
  rewrite helper_tryFetch_run. simpl. by rewrite <- app_assoc.
Qed.

(** C6.  With a token, the route asks for each candidate URL with the
    [Authorization] header first and, after an answer that is not 2xx, for
    the same URL without the header, before it goes to the next candidate;
    the first 2xx answer ends the run and is the result.  The requests of
    the run are performed on the remote side, one after the other: each
    answer is the one that [fetch] gave, the remote side ends in the state
    after the last request, and the file system is untouched.  The helper
    script does the same with its single URL. *)
Theorem fetch_tries_auth_then_plain (token url : string) (w : World) :
  Str.nonempty token = true ->
  follows_plan
    [ (url, Some ("Bearer " +:+ token)); (url, None);
      (withDownloadQuery url, Some ("Bearer " +:+ token));
      (withDownloadQuery url, None);
      (withDownloadQuery url, Some ("Bearer " +:+ token)) ]
    w (snd (tryWithFallbackAuth token url w)) (fst (tryWithFallbackAuth token url w))
  /\ forall repoId rev fp type,
       let helper_url := helper_buildUrl repoId rev fp type in
       let first := fetch (w_net w) helper_url (headersWithAuth_of token) in
       let x1 := mkExchange helper_url (Some ("Bearer " +:+ token)) (fst first) in
       let second := fetch (snd first) helper_url baseHeaders in
       let x2 := mkExchange helper_url None (fst second) in
       tryRepoType token repoId rev fp type w
       = match helper_result_of (fst first) with
         | Returned buf => (Returned buf, mkWorld (snd first) (w_log w ++ [x1]) (w_fs w))
         | Thrown _ =>
             (helper_result_of (fst second),
              mkWorld (snd second) (w_log w ++ [x1; x2]) (w_fs w))
         end.
Proof.
  intros Htok. split.
  - pose proof (tryWithFallbackAuth_follows_plan token url w) as Hplan.
    unfold planned_requests in Hplan.
    by rewrite Htok, (auth_header _ Htok) in Hplan.
  - intros repoId rev fp type. by apply tryRepoType_with_token.
Qed.

(** *** Total failure *)

Lemma planned_requests_last (token url : string) :
  last (planned_requests token url)
  = Some (withDownloadQuery url, h_authorization (headersWithAuth_of token)).
Proof.
  unfold planned_requests, headersWithAuth_of.
  by destruct (Str.nonempty token).
Qed.

Lemma prefix_same_length {A} (l1 l2 : list A) :
  l1 `prefix_of` l2 -> length l1 = length l2 -> l1 = l2.
Proof.
  intros [k ->] Hlen. rewrite length_app in Hlen.
  destruct k; [by rewrite app_nil_r | simpl in Hlen; lia].
Qed.

(** When [tryWithFallbackAuth] returns a failed attempt, the whole plan was
    requested, every answer was not 2xx, and the attempt is the last one:
    the forced-download URL. *)
Lemma tryWithFallbackAuth_failed (token url : string) (w : World) err :
  fst (tryWithFallbackAuth token url w) = Returned (AttemptErr err) ->
  exists (l : list Exchange) x res,
    w_log (snd (tryWithFallbackAuth token url w)) = w_log w ++ l
    /\ request_of <$> l = planned_requests token url
    /\ Forall (fun y => answered_non_2xx y = true) l
    /\ last l = Some x
    /\ ex_url x = withDownloadQuery url
    /\ ex_result x = Returned res
    /\ err = err_of_response (withDownloadQuery url) res.
Proof.
  intros Hrun.
  destruct (tryWithFallbackAuth_follows_plan token url w)
    as (l & Hlog & _ & _ & Hpre & Hall & x & Hlast & Hres & Hlen).
  rewrite Hrun in Hres. symmetry in Hres.
  destruct x as [xurl xauth xres]. simpl in Hres.
  destruct (attempt_err_non_2xx xurl xauth xres err Hres) as (Hnon & res & -> & ->).
  specialize (Hlen Hnon).
  assert (request_of <$> l = planned_requests token url) as Hreq.
  { apply prefix_same_length; [done|]. by rewrite length_fmap. }
  assert (xurl = withDownloadQuery url) as ->.
  { pose proof (planned_requests_last token url) as Hpl.
    rewrite <- Hreq, fmap_last, Hlast in Hpl. simpl in Hpl. by injection Hpl. }
  exists l, (mkExchange (withDownloadQuery url) xauth (Returned res)), res.
  repeat split; try done.
  apply last_Some in Hlast as [l' ->].
  rewrite removelast_last in Hall. apply Forall_app. split; [done|].
  by repeat constructor.
Qed.

(** When every answer was not 2xx, [tryWithFallbackAuth] returns a failed
    attempt. *)
Lemma tryWithFallbackAuth_all_failed (token url : string) (w : World)
  (l : list Exchange) :
  w_log (snd (tryWithFallbackAuth token url w)) = w_log w ++ l ->
  Forall (fun y => answered_non_2xx y = true) l ->
  exists err, fst (tryWithFallbackAuth token url w) = Returned (AttemptErr err).
Proof.
  intros Hlog Hall.
  destruct (tryWithFallbackAuth_follows_plan token url w)
    as (l' & Hlog' & _ & _ & _ & _ & x & Hlast & Hres & _).
  rewrite Hlog in Hlog'. apply app_inv_head in Hlog' as ->.
  assert (answered_non_2xx x = true) as Hx.
  { rewrite Forall_forall in Hall. apply Hall.
    apply last_Some in Hlast as [l'' ->]. set_solver. }
  rewrite Hres. unfold answered_non_2xx in Hx. unfold attempt_of.
  destruct (ex_result x) as [res|e]; [|discriminate].
  apply negb_true_iff in Hx. rewrite Hx. by eexists.
Qed.

Lemma tryWithFallbackAuth_log (token url : string) (w : World) :
  exists l : list Exchange,
    w_log (snd (tryWithFallbackAuth token url w)) = w_log w ++ l.
Proof.
  destruct (tryWithFallbackAuth_follows_plan token url w) as (l & Hlog & _).
  by exists l.
Qed.

Lemma downloadHFFile_single (token url : string) (w : World) (e : JsError)
  (l : list Exchange) :
  let run :=
    (let* out := tryWithFallbackAuth token url in
     match out with
     | AttemptOk o => ret o
     | AttemptErr err => throw (Error_ (msg_download_failed err))
     end) w in
  fst run = Thrown e ->
  w_log (snd run) = w_log w ++ l ->
  Forall (fun x => answered_non_2xx x = true) l ->
  exists x res,
    request_of <$> l = planned_requests token url
    /\ last l = Some x
    /\ ex_result x = Returned res
    /\ e = Error_ (msg_download_failed (err_of_response (withDownloadQuery url) res)).
Proof.
  simpl. unfold bind, ret, throw.
  destruct (tryWithFallbackAuth token url w) as [[[o|err]|e'] w1] eqn:Hrun; simpl.
  - discriminate.
  - intros [= <-] Hlog Hall.
    destruct (tryWithFallbackAuth_failed token url w err) as
      (l' & x & res & Hlog' & Hreq & _ & Hlast & _ & Hres & ->);
      [by rewrite Hrun|].
    rewrite Hrun in Hlog'. simpl in Hlog'. rewrite Hlog in Hlog'.
    apply app_inv_head in Hlog' as <-. by exists x, res.
  - intros _ Hlog Hall.
    destruct (tryWithFallbackAuth_all_failed token url w l) as [err Herr];
      [by rewrite Hrun | done |].
    rewrite Hrun in Herr. discriminate.
Qed.

(** C4 (amended).  When every request of a download was answered and no
    answer was 2xx, the requests were the whole plan of each repository kind
    tried (the canonical URL and the forced-download URL, with and without
    the token), and the error that is raised is made of the last answer of
    each kind only, the one to the forced-download URL requested once more:
    its URL, its status, and its diagnostic header or else the body
    preview.  *)
Theorem downloadHFFile_reports_last_attempt (hf_token_row : option string)
  (repoId revision filePath : string) (repoType : HFRepoType) (w : World)
  (e : JsError) (l : list Exchange) :
  let run := downloadHFFile hf_token_row repoId revision filePath repoType w in
  let token := sanitizeToken (str_or (getHFToken hf_token_row) "") in
  let url t :=
    buildUrl repoId (encodeURIComponent (str_or revision "main"))
             (encodeHFPath filePath) t in
  fst run = Thrown e ->
  w_log (snd run) = w_log w ++ l ->
  Forall (fun x => answered_non_2xx x = true) l ->
  match repoType with
  | auto =>
      exists ld lm xd xm resd resm,
        l = ld ++ lm
        /\ request_of <$> ld = planned_requests token (url datasets)
        /\ request_of <$> lm = planned_requests token (url models)
        /\ last ld = Some xd /\ ex_result xd = Returned resd
        /\ last lm = Some xm /\ ex_result xm = Returned resm
        /\ e = Error_ (msg_download_failed_auto
                         (err_of_response (withDownloadQuery (url datasets)) resd)
                         (err_of_response (withDownloadQuery (url models)) resm))
  | t =>
      exists x res,
        request_of <$> l = planned_requests token (url t)
        /\ last l = Some x /\ ex_result x = Returned res
        /\ e = Error_ (msg_download_failed
                         (err_of_response (withDownloadQuery (url t)) res))
  end.
Proof.
  intros run token url. subst run. unfold downloadHFFile. fold token.
  destruct repoType.
  - (* auto *)
    change (buildUrl repoId _ _ datasets) with (url datasets).
    change (buildUrl repoId _ _ models) with (url models).
    clearbody url token. unfold bind, ret, throw.
    destruct (tryWithFallbackAuth token (url datasets) w)
      as [[[o|d]|e'] w1] eqn:Hrun1; simpl.
    + discriminate.
    + destruct (tryWithFallbackAuth_failed token (url datasets) w d) as
        (ld & xd & resd & Hlogd & Hreqd & _ & Hlastd & _ & Hresd & ->);
        [by rewrite Hrun1|].
      rewrite Hrun1 in Hlogd. simpl in Hlogd.
      destruct (tryWithFallbackAuth_log token (url models) w1) as [lm Hlogm].
      destruct (tryWithFallbackAuth token (url models) w1)
        as [[[o|m]|e'] w2] eqn:Hrun2; simpl in Hlogm; simpl.
      * intros Hr. discriminate Hr.
      * intros [= <-] Hlog Hall.
        destruct (tryWithFallbackAuth_failed token (url models) w1 m) as
          (lm' & xm & resm & Hlogm' & Hreqm & _ & Hlastm & _ & Hresm & ->);
          [by rewrite Hrun2|].
        rewrite Hrun2 in Hlogm'. simpl in Hlogm'.
        rewrite Hlogm in Hlogm'. apply app_inv_head in Hlogm' as <-.
        rewrite Hlogm, Hlogd, <- app_assoc in Hlog.
        apply app_inv_head in Hlog as <-.
        by exists ld, lm, xd, xm, resd, resm.
      * intros _ Hlog Hall.
        rewrite Hlogm, Hlogd, <- app_assoc in Hlog.
        apply app_inv_head in Hlog as <-.
        apply Forall_app in Hall as [_ Hall].
        destruct (tryWithFallbackAuth_all_failed token (url models) w1 lm)
          as [err Herr]; [by rewrite Hrun2 | done |].
        rewrite Hrun2 in Herr. discriminate.
    + intros _ Hlog Hall.
      destruct (tryWithFallbackAuth_all_failed token (url datasets) w l)
        as [err Herr]; [by rewrite Hrun1 | done |].
      rewrite Hrun1 in Herr. discriminate.
  - apply (downloadHFFile_single token (url datasets) w e l).
  - apply (downloadHFFile_single token (url models) w e l).
Qed.

End Policy.

Lemma fetch_tries_auth_then_plain_witness :
  Str.nonempty "hf_abc" = true
  /\ follows_plan
       [ (Sample.first_request_url, Some "Bearer hf_abc");
         (Sample.first_request_url, None);
         (withDownloadQuery Sample.first_request_url, Some "Bearer hf_abc");
         (withDownloadQuery Sample.first_request_url, None);
         (withDownloadQuery Sample.first_request_url, Some "Bearer hf_abc") ]
       Sample.retried_world
       (snd (tryWithFallbackAuth "hf_abc" Sample.first_request_url Sample.retried_world))
       (fst (tryWithFallbackAuth "hf_abc" Sample.first_request_url Sample.retried_world)).
Proof.
  split; [reflexivity|].
  exact (proj1 (fetch_tries_auth_then_plain "hf_abc" Sample.first_request_url
                  Sample.retried_world eq_refl)).
Defined.

(** The run of the witness: two requests, the second one without the
    header, whose answer is the result. *)
Example retried_without_token :
  request_of <$> w_log (snd (tryWithFallbackAuth "hf_abc" Sample.first_request_url
                               Sample.retried_world))
  = [ (Sample.first_request_url, Some "Bearer hf_abc");
      (Sample.first_request_url, None) ]
  /\ ok_status <$> (match fst (tryWithFallbackAuth "hf_abc" Sample.first_request_url
                                 Sample.retried_world) with
                    | Returned (AttemptOk o) => Some o
                    | _ => None
                    end) = Some 200%nat.
Proof. by vm_compute. Qed.

Lemma downloadHFFile_reports_last_attempt_witness :
  exists x res,
    request_of <$> w_log (snd Sample.failed_download)
    = planned_requests "" Sample.first_request_url
    /\ last (w_log (snd Sample.failed_download)) = Some x
    /\ ex_result x = Returned res
    /\ Error_ Sample.failed_download_message
       = Error_ (msg_download_failed
                   (err_of_response (withDownloadQuery Sample.first_request_url) res)).
Proof.
  assert (Forall (fun x => answered_non_2xx x = true)
                 (w_log (snd Sample.failed_download))) as Hall.
  { vm_compute. repeat constructor. }
  exact (downloadHFFile_reports_last_attempt None "org/repo" "main"
           "data/train.parquet" datasets (Sample.world [Returned Sample.server_error] ∅)
           (Error_ Sample.failed_download_message)
           (w_log (snd Sample.failed_download)) eq_refl eq_refl Hall).
Defined.

(** C4 (as stated, refuted).  Three requests are made and none is answered
    with 2xx.  The first answer has status 500 and a diagnostic header; the
    error shows neither, only the 404 of the last request. *)
Lemma download_error_omits_first_attempt :
  let first :=
    mkExchange Sample.first_request_url None (Returned Sample.server_error) in
  fst Sample.failed_download = Thrown (Error_ Sample.failed_download_message)
  /\ length (w_log (snd Sample.failed_download)) = 3%nat
  /\ Forall (fun x => answered_non_2xx x = true) (w_log (snd Sample.failed_download))
  /\ w_log (snd Sample.failed_download) !! 0%nat = Some first
  /\ carries Sample.failed_download_message first = false
  /\ Str.includes Sample.failed_download_message "500" = false
  /\ Str.includes Sample.failed_download_message "backend down" = false.
Proof.
  vm_compute. repeat split. repeat constructor.
Qed.

End FetchFacts.

(** ** Content validator *)

Module ValidatorFacts.

Section Gzip.

Context `{NodeLib} `{Network}.

(** C5.  When the declared encoding or type names gzip: if the
    decompression succeeds, the magic check is made on the decompressed
    bytes, so a buffer that only passes the check once decompressed is
    accepted; if the decompression throws, the check is made on the bytes as
    they came. *)
Theorem gzip_before_magic (out : HFDownloadOk) (expectParquet : bool) :
  declares_gzip (ok_contentEncoding out) (ok_contentType out) = true ->
  (forall plain,
     gunzipSync (ok_buf out) = Returned plain ->
     validate_download expectParquet out
     = (if expectParquet && negb (isParquetBuffer plain)
        then Thrown (Error_ (msg_invalid_parquet out plain))
        else Returned plain)
     /\ (isParquetBuffer plain = true ->
         validate_download expectParquet out = Returned plain))
  /\ (forall e,
        gunzipSync (ok_buf out) = Thrown e ->
        validate_download expectParquet out
        = (if expectParquet && negb (isParquetBuffer (ok_buf out))
           then Thrown (Error_ (msg_invalid_parquet out (ok_buf out)))
           else Returned (ok_buf out)))
  /\ (forall hf_token_row repoId revision filePath repoType (w w1 : World),
        downloadHFFile hf_token_row repoId revision filePath repoType w
        = (Returned out, w1) ->
        downloadHFFileAsBuffer hf_token_row repoId revision filePath repoType
                               expectParquet w
        = (validate_download expectParquet out, w1)).
Proof.
  intros Hgzip. split; [|split].
  - intros plain Hplain. unfold validate_download, maybeGunzip.
    rewrite Hgzip, Hplain. split; [done|].
    intros ->. by rewrite andb_false_r.
  - intros e He. unfold validate_download, maybeGunzip. by rewrite Hgzip, He.
  - intros hf_token_row repoId revision filePath repoType w w1 Hrun.
    unfold downloadHFFileAsBuffer, bind, lift. by rewrite Hrun.
Qed.

End Gzip.

Import (hints) Sample.

Lemma gzip_before_magic_witness :
  declares_gzip (ok_contentEncoding Sample.gzipped) (ok_contentType Sample.gzipped) = true
  /\ isParquetBuffer (ok_buf Sample.gzipped) = false
  /\ validate_download true Sample.gzipped = Returned Sample.parquet_file.
Proof.
  split; [reflexivity|]. split; [reflexivity|].
  exact (proj2 (proj1 (gzip_before_magic Sample.gzipped true eq_refl)
                  Sample.parquet_file eq_refl) eq_refl).
Defined.

End ValidatorFacts.

(** ** Import loop *)

Module LoopFacts.

Section Loop.

Context `{NodeLib} `{Network}.
Variable args : Args.
Variable env_HF_TOKEN : option string.
Variable datasetDir : string.
Variable table : Table.

Local Abbreviation body := (row_body args env_HF_TOKEN datasetDir table).
Local Abbreviation step := (row_step args env_HF_TOKEN datasetDir table).
Local Abbreviation loop := (rows_from args env_HF_TOKEN datasetDir table).
Local Abbreviation total := (run_step args env_HF_TOKEN datasetDir table).

(** The [catch] turns every end of the body into a summary. *)
Lemma row_step_total (acc : Summary) (rowIndex : nat) (w : World) :
  step acc rowIndex w
  = (Returned (fst (total (acc, w) rowIndex)), snd (total (acc, w) rowIndex)).
Proof.
  unfold row_step, run_step, try_catch, bind, ret. simpl.
  by destruct (body rowIndex w) as [[[]|e] w'].
Qed.

(** The loop is the fold of the turns over the row indices, in order. *)
Lemma rows_from_foldl (n rowIndex : nat) (acc : Summary) (w : World) :
  loop n rowIndex acc w
  = (Returned (fst (foldl total (acc, w) (seq rowIndex n))),
     snd (foldl total (acc, w) (seq rowIndex n))).
Proof.
  revert rowIndex acc w. induction n as [|n IH]; intros rowIndex acc w; [done|].
  simpl. unfold bind. rewrite row_step_total, IH.
  by destruct (total (acc, w) rowIndex).
Qed.

(** The error list only grows. *)
Lemma run_step_errors_prefix (st : Summary * World) (rowIndex : nat) :
  errors (fst st) `prefix_of` errors (fst (total st rowIndex)).
Proof.
  unfold run_step. destruct (body rowIndex (snd st)) as [[[]|e] w']; simpl;
    [done | done | by apply prefix_app_r].
Qed.

Lemma foldl_errors_prefix (l : list nat) (st : Summary * World) :
  errors (fst st) `prefix_of` errors (fst (foldl total st l)).
Proof.
  revert st. induction l as [|i l IH]; intros st; [done|].
  simpl. etrans; [apply run_step_errors_prefix | apply IH].
Qed.

(** One turn keeps the count and the order of the summary. *)
Lemma run_step_summary_upto (st : Summary * World) (k : nat) :
  summary_upto (fst st) k -> summary_upto (fst (total st (S k))) (S k).
Proof.
  intros (Hcount & Hsorted & Hbounds).
  assert (Forall (fun r => (1 <= row r <= S k)%nat) (errors (fst st))) as Hb'.
  { eapply Forall_impl; [exact Hbounds|]. simpl. intros r Hr. lia. }
  unfold run_step. destruct (body (S k) (snd st)) as [[[]|e] w']; simpl.
  - split; [simpl; lia | done].
  - split; [simpl; lia | done].
  - split; [|split].
    + simpl. rewrite length_app. simpl. lia.
    + simpl. rewrite fmap_app. simpl.
      apply StronglySorted_app_2; [| done | by repeat constructor].
      intros x1 x2 Hx1 Hx2. apply list_elem_of_singleton in Hx2 as ->.
      apply list_elem_of_fmap in Hx1 as (r & -> & Hr).
      rewrite Forall_forall in Hbounds. specialize (Hbounds r Hr). lia.
    + simpl. apply Forall_app. split; [done|].
      constructor; [simpl; lia | constructor].
Qed.

Lemma foldl_summary_upto (n k : nat) (st : Summary * World) :
  summary_upto (fst st) k ->
  summary_upto (fst (foldl total st (seq (S k) n))) (k + n).
Proof.
  revert k st. induction n as [|n IH]; intros k st Hst.
  - simpl. by rewrite Nat.add_0_r.
  - simpl. replace (k + S n)%nat with (S k + n)%nat by lia.
    apply IH. by apply run_step_summary_upto.
Qed.

Lemma summary_upto_empty : summary_upto (mkSummary 0 0 []) 0.
Proof. split; [done|]. split; constructor. Qed.

(** A row without an image value is skipped. *)
Lemma row_step_skips (acc : Summary) (rowIndex : nat) (w : World) :
  Js.truthy (pickImageColumn (getRow table (rowIndex - 1))) = false ->
  step acc rowIndex w
  = (Returned (mkSummary (imported acc) (S (skipped acc)) (errors acc)), w).
Proof.
  intros Himage. unfold row_step, row_body, try_catch, bind, ret.
  by rewrite Himage.
Qed.

(** A row with an image value that gives no bytes is an error. *)
Lemma row_step_no_bytes (acc : Summary) (rowIndex : nat) (w : World) :
  Js.truthy (pickImageColumn (getRow table (rowIndex - 1))) = true ->
  no_bytes_by_either_route args (pickImageColumn (getRow table (rowIndex - 1))) = true ->
  step acc rowIndex w
  = (Returned (mkSummary (imported acc) (skipped acc)
                 (errors acc ++ [mkRowError rowIndex msg_no_image_bytes])), w).
Proof.
  intros Himage Hnone. unfold no_bytes_by_either_route in Hnone.
  unfold row_step, row_body, imageBytes_of, try_catch, bind, ret, throw.
  rewrite Himage. simpl negb. cbv iota.
  destruct (coerceToBuffer _) as [b|]; [discriminate|].
  apply negb_true_iff in Hnone. by rewrite Hnone.
Qed.

End Loop.

Section Run.

Context `{NodeLib} `{Network}.
Variable args : Args.
Variable env_HF_TOKEN : option string.

Lemma main_after_load (w w0 : World) (dir : string) (table : Table) :
  load_table args w = (Returned (dir, table), w0) ->
  main args env_HF_TOKEN w
  = (Returned (fst (foldl (run_step args env_HF_TOKEN dir table)
                          (mkSummary 0 0 [], w0) (seq 1 (numRows table)))),
     snd (foldl (run_step args env_HF_TOKEN dir table)
                (mkSummary 0 0 [], w0) (seq 1 (numRows table)))).
Proof.
  intros Hload. unfold main, bind. rewrite Hload. apply rows_from_foldl.
Qed.

Lemma main_thrown (w w' : World) (e : JsError) :
  main args env_HF_TOKEN w = (Thrown e, w') ->
  load_table args w = (Thrown e, w').
Proof.
  unfold main, bind.
  destruct (load_table args w) as [[[dir table]|e0] w0] eqn:Hload.
  - by rewrite rows_from_foldl.
  - by intros [= -> ->].
Qed.

(** C1.  The run fails only where the loading of the table fails, before
    the loop.  Once the table is loaded the run returns the summary of the
    turns of all the rows, in order.  When the body of row [i] throws, the
    summary gets the entry of [i] with the message of the exception, the
    rows after [i] are processed from there, and the entry is in the final
    summary. *)
Theorem import_loop_contains_row_failures (w : World) :
  (forall e w', main args env_HF_TOKEN w = (Thrown e, w') ->
                load_table args w = (Thrown e, w'))
  /\ (forall dir table w0,
        load_table args w = (Returned (dir, table), w0) ->
        let turn := run_step args env_HF_TOKEN dir table in
        let start := (mkSummary 0 0 [], w0) in
        let final := foldl turn start (seq 1 (numRows table)) in
        main args env_HF_TOKEN w = (Returned (fst final), snd final)
        /\ forall i e w',
             (1 <= i <= numRows table)%nat ->
             let before := foldl turn start (seq 1 (i - 1)) in
             row_body args env_HF_TOKEN dir table i (snd before) = (Thrown e, w') ->
             let recorded :=
               (mkSummary (imported (fst before)) (skipped (fst before))
                          (errors (fst before) ++ [mkRowError i (error_text e)]),
                w') in
             final = foldl turn recorded (seq (S i) (numRows table - i))
             /\ mkRowError i (error_text e) ∈ errors (fst final)).
Proof.
  split; [intros e w'; apply main_thrown|].
  intros dir table w0 Hload turn start final.
  split; [by apply main_after_load|].
  intros i e w' Hi before Hthrown recorded.
  assert (final = foldl turn recorded (seq (S i) (numRows table - i))) as Hfinal.
  { unfold final.
    replace (numRows table) with ((i - 1) + (1 + (numRows table - i)))%nat at 1 by lia.
    rewrite seq_app, foldl_app. fold before.
    replace (1 + (i - 1))%nat with i by lia.
    change (seq i (1 + (numRows table - i)))
      with (i :: seq (S i) (numRows table - i)).
    simpl. f_equal. unfold turn, run_step. by rewrite Hthrown. }
  split; [done|]. rewrite Hfinal.
  pose proof (foldl_errors_prefix args env_HF_TOKEN dir table
                (seq (S i) (numRows table - i)) recorded) as [k Hk].
  fold turn in Hk. rewrite Hk. simpl.
  rewrite !elem_of_app, list_elem_of_singleton. by left; right.
Qed.

(** C9.  Once the table of [N] rows is loaded, the run returns a summary
    where [imported + skipped + length errors = N], and where the row
    indices of the error list lie between 1 and [N] and increase strictly. *)
Theorem main_counts_every_row (w w0 : World) (dir : string) (table : Table) :
  load_table args w = (Returned (dir, table), w0) ->
  exists s w',
    main args env_HF_TOKEN w = (Returned s, w')
    /\ (imported s + skipped s + length (errors s) = numRows table)%nat
    /\ Forall (fun r => (1 <= row r <= numRows table)%nat) (errors s)
    /\ StronglySorted lt (row <$> errors s).
Proof.
  intros Hload. eexists _, _. split; [by apply main_after_load|].
  pose proof (foldl_summary_upto args env_HF_TOKEN dir table (numRows table) 0
                (mkSummary 0 0 [], w0) summary_upto_empty)
    as (Hcount & Hsorted & Hbounds).
  done.
Qed.

(** A row that has an image value is not skipped: its body imports it or
    throws. *)
Lemma row_body_with_image (dir : string) (table : Table) (rowIndex : nat) (w w' : World) :
  Js.truthy (pickImageColumn (getRow table (rowIndex - 1))) = true ->
  row_body args env_HF_TOKEN dir table rowIndex w <> (Returned RowSkipped, w').
Proof.
  intros Himage. unfold row_body. rewrite Himage. cbn [negb]. unfold bind at 1.
  destruct (imageBytes_of _ _ _ w) as [[[bytes|]|e] w1]; [|discriminate..].
  destruct (names_of_hint _) as [baseName0 extension0].
  unfold bind, m_uniquePath, m_writeFileSync, ret.
  destruct (uniquePath _ _ _ _); [|discriminate].
  destruct (writeFileSync _ _ _); [|discriminate]. cbn [w_fs].
  destruct (writeFileSync _ _ _); discriminate.
Qed.

(** A row without a payload whose download throws: the exception of the
    download is the entry of the row. *)
Lemma row_step_download_fails (dir : string) (table : Table) (acc : Summary)
  (rowIndex : nat) (w w' : World) (e : JsError) :
  let imageValue := pickImageColumn (getRow table (rowIndex - 1)) in
  Js.truthy imageValue = true ->
  coerceToBuffer
    (Js.coalesce (Js.coalesce (getStructField imageValue "bytes")
                              (getStructField imageValue "data")) VNull) = None ->
  Js.truthy (getStructField imageValue "path") = true ->
  Str.nonempty (or_default (arg_repoId args) "") = true ->
  helper_downloadHFFileAsBuffer
    (tmpl (arg_repoId args)) (or_default (arg_revision args) "main")
    (js_String (getStructField imageValue "path"))
    (or_default (arg_repoType args) "auto")
    (or_default (arg_hfToken args) (or_default env_HF_TOKEN "")) w = (Thrown e, w') ->
  row_step args env_HF_TOKEN dir table acc rowIndex w
  = (Returned (mkSummary (imported acc) (skipped acc)
                 (errors acc ++ [mkRowError rowIndex (error_text e)])), w').
Proof.
  intros imageValue Himage Hnone Hpath Hrepo Hdown.
  unfold row_step, row_body, imageBytes_of, try_catch. fold imageValue.
  rewrite Himage, Hnone, Hpath, Hrepo. cbn [negb andb].
  unfold bind. by rewrite Hdown.
Qed.

(** C2 (amended).  A row whose image column is missing, null or otherwise
    falsy is skipped and adds nothing to the error list.  A row that has an
    image value is never skipped.  When it has no payload that converts to a
    buffer: without a path, or without a repository, it adds an entry with
    the message of the missing bytes to the error list; with a path and a
    repository the image is downloaded, and when the download throws, the
    row adds an entry with the error of the download. *)
Theorem row_without_image_skipped_without_bytes_error (dir : string) (table : Table)
  (acc : Summary) (rowIndex : nat) (w : World) :
  let imageValue := pickImageColumn (getRow table (rowIndex - 1)) in
  (Js.truthy imageValue = false ->
   row_step args env_HF_TOKEN dir table acc rowIndex w
   = (Returned (mkSummary (imported acc) (S (skipped acc)) (errors acc)), w))
  /\ (Js.truthy imageValue = true ->
      no_bytes_by_either_route args imageValue = true ->
      row_step args env_HF_TOKEN dir table acc rowIndex w
      = (Returned (mkSummary (imported acc) (skipped acc)
                     (errors acc ++ [mkRowError rowIndex msg_no_image_bytes])), w))
  /\ (Js.truthy imageValue = true ->
      coerceToBuffer
        (Js.coalesce (Js.coalesce (getStructField imageValue "bytes")
                                  (getStructField imageValue "data")) VNull) = None ->
      Js.truthy (getStructField imageValue "path") = true ->
      Str.nonempty (or_default (arg_repoId args) "") = true ->
      forall e w',
        helper_downloadHFFileAsBuffer
          (tmpl (arg_repoId args)) (or_default (arg_revision args) "main")
          (js_String (getStructField imageValue "path"))
          (or_default (arg_repoType args) "auto")
          (or_default (arg_hfToken args) (or_default env_HF_TOKEN "")) w
        = (Thrown e, w') ->
        row_step args env_HF_TOKEN dir table acc rowIndex w
        = (Returned (mkSummary (imported acc) (skipped acc)
                       (errors acc ++ [mkRowError rowIndex (error_text e)])), w'))
  /\ (Js.truthy imageValue = true ->
      exists s w',
        row_step args env_HF_TOKEN dir table acc rowIndex w = (Returned s, w')
        /\ skipped s = skipped acc
        /\ (imported s + length (errors s)
            = S (imported acc + length (errors acc)))%nat).
Proof.
  intros imageValue.
  split; [apply row_step_skips|]. split; [apply row_step_no_bytes|].
  split.
  - intros Himage Hnone Hpath Hrepo e w' Hdown.
    by apply row_step_download_fails.
  - intros Himage. rewrite row_step_total. unfold run_step. cbn [fst snd].
    pose proof (row_body_with_image dir table rowIndex w) as Hbody.
    destruct (row_body args env_HF_TOKEN dir table rowIndex w) as [[[]|e] w1];
      cbn [fst snd].
    + eexists _, _. split; [reflexivity|]. cbn. split; [done | lia].
    + by destruct (Hbody w1 Himage).
    + eexists _, _. split; [reflexivity|]. cbn. rewrite length_app. cbn.
      split; [done | lia].
Qed.

End Run.

Import (hints) Sample.

(** The sample run: row 1 has embedded bytes, row 2 has an image struct
    without bytes or path, row 3 has no image. *)
Example sample_run :
  fst (main Sample.args None Sample.start)
  = Returned (mkSummary 1 1 [mkRowError 2 msg_no_image_bytes]).
Proof. by vm_compute. Qed.

Example sample_run_files :
  let fs := w_fs (snd (main Sample.args None Sample.start)) in
  fs !! "/data/cats/digest4.jpg" = Some (File Sample.jpeg)
  /\ fs !! "/data/cats/digest4.txt" = Some (File (Buf.from_utf8 "a cat")).
Proof. by vm_compute. Qed.

(** Two rows, the second with a path only and the repository known: the
    helper downloads the image from the datasets URL and both rows are
    imported, under the digest of the bytes and under the base name of the
    path. *)
Example sample_run_with_path :
  let run := main Sample.args_with_repo None Sample.start_with_path in
  fst run = Returned (mkSummary 2 0 [])
  /\ ex_url <$> w_log (snd run)
     = ["https://huggingface.co/datasets/org/repo/resolve/main/imgs/dog.png?download=true"]
  /\ w_fs (snd run) !! "/data/cats/digest4.jpg" = Some (File Sample.jpeg)
  /\ w_fs (snd run) !! "/data/cats/digest4.txt" = Some (File (Buf.from_utf8 "a cat"))
  /\ w_fs (snd run) !! "/data/cats/dog.png" = Some (File Sample.png)
  /\ w_fs (snd run) !! "/data/cats/dog.txt" = Some (File []).
Proof. by vm_compute. Qed.

Lemma sample_load :
  load_table Sample.args Sample.start
  = (Returned ("/data/cats", Sample.table), Sample.start).
Proof. reflexivity. Defined.

Lemma import_loop_contains_row_failures_witness :
  mkRowError 2 msg_no_image_bytes
  ∈ errors (fst (foldl (run_step Sample.args None "/data/cats" Sample.table)
                       (mkSummary 0 0 [], Sample.start)
                       (seq 1 (numRows Sample.table)))).
Proof.
  pose proof (proj2 (import_loop_contains_row_failures Sample.args None Sample.start)
                "/data/cats" Sample.table Sample.start sample_load) as [_ Hrows].
  refine (proj2 (Hrows 2%nat (Error_ msg_no_image_bytes) _ _ _)).
  - simpl. lia.
  - vm_compute. reflexivity.
Defined.

Lemma main_counts_every_row_witness :
  exists s w',
    main Sample.args None Sample.start = (Returned s, w')
    /\ (imported s + skipped s + length (errors s) = 3)%nat
    /\ Forall (fun r => (1 <= row r <= 3)%nat) (errors s)
    /\ StronglySorted lt (row <$> errors s).
Proof.
  exact (main_counts_every_row Sample.args None Sample.start Sample.start
           "/data/cats" Sample.table sample_load).
Defined.

Lemma row_without_image_skipped_without_bytes_error_witness :
  row_step Sample.args None "/data/cats" Sample.table (mkSummary 1 0 []) 2 Sample.start
  = (Returned (mkSummary 1 0 [mkRowError 2 msg_no_image_bytes]), Sample.start)
  /\ row_step Sample.args None "/data/cats" Sample.table (mkSummary 1 0 []) 3 Sample.start
     = (Returned (mkSummary 1 1 []), Sample.start)
  /\ fst (row_step Sample.args_with_repo None "/data/cats" Sample.table_with_path
                   (mkSummary 1 0 []) 2 Sample.start_with_path_offline)
     = Returned (mkSummary 1 0 [mkRowError 2 "HF download failed (404 Not Found): "]).
Proof.
  split; [|split].
  - exact (proj1 (proj2 (row_without_image_skipped_without_bytes_error Sample.args None
                           "/data/cats" Sample.table (mkSummary 1 0 []) 2 Sample.start))
             eq_refl eq_refl).
  - exact (proj1 (row_without_image_skipped_without_bytes_error Sample.args None
                    "/data/cats" Sample.table (mkSummary 1 0 []) 3 Sample.start)
             eq_refl).
  - pose (w' := snd (helper_downloadHFFileAsBuffer "org/repo" "main" "imgs/dog.png" "auto" ""
                       Sample.start_with_path_offline)).
    assert (helper_downloadHFFileAsBuffer "org/repo" "main" "imgs/dog.png" "auto" ""
              Sample.start_with_path_offline
            = (Thrown (Error_ "HF download failed (404 Not Found): "), w')) as Hdown
      by (vm_compute; reflexivity).
    by rewrite (proj1 (proj2 (proj2 (row_without_image_skipped_without_bytes_error
                  Sample.args_with_repo None "/data/cats" Sample.table_with_path
                  (mkSummary 1 0 []) 2 Sample.start_with_path_offline)))
                  eq_refl eq_refl eq_refl eq_refl _ w' Hdown).
Defined.

(** C2 (as stated, refuted).  Row 2 of the sample has an image struct whose
    [bytes] and [path] are null and no [data]: no bytes by either route.
    The run counts it in the error list, not among the skipped rows. *)
Lemma row_without_bytes_is_reported_as_error :
  let imageValue := pickImageColumn (getRow Sample.table 1) in
  getStructField imageValue "bytes" = VNull
  /\ getStructField imageValue "data" = VUndefined
  /\ getStructField imageValue "path" = VNull
  /\ no_bytes_by_either_route Sample.args imageValue = true
  /\ fst (main Sample.args None Sample.start)
     = Returned (mkSummary 1 1 [mkRowError 2 msg_no_image_bytes])
  /\ fst (row_step Sample.args None "/data/cats" Sample.table (mkSummary 1 0 []) 2
                   Sample.start)
     <> Returned (mkSummary 1 1 []).
Proof.
  vm_compute. repeat split. discriminate.
Qed.

End LoopFacts.

(** * Part III: further properties of the code *)

(** ** File names *)

Module NameFacts.
Import Str StrFacts.

Lemma is_safe_char_underscore : is_safe_char "_" = true.
Proof. reflexivity. Qed.

Lemma is_safe_char_not_slash c : is_safe_char c = true -> c <> "/"%char.
Proof. intros Hc ->. discriminate. Qed.

Lemma all_app P (a b : string) : StrX.all P (a +:+ b) = StrX.all P a && StrX.all P b.
Proof.
  induction a as [|x a IH]; [done|].
  rewrite append_cons. simpl. by rewrite IH, andb_assoc.
Qed.

Lemma all_impl (P Q : ascii -> bool) (s : string) :
  (forall c, P c = true -> Q c = true) -> StrX.all P s = true -> StrX.all Q s = true.
Proof.
  intros HPQ. induction s as [|c s IH]; [done|]. simpl.
  intros [Hc Hs]%andb_true_iff. by rewrite (HPQ c Hc), (IH Hs).
Qed.

Lemma all_safe_no_slash (s : string) :
  StrX.all is_safe_char s = true -> no_char "/" s = true.
Proof.
  induction s as [|c s IH]; [done|]. simpl.
  intros [Hc Hs]%andb_true_iff. rewrite (IH Hs), andb_true_r.
  apply negb_true_iff, Ascii.eqb_neq. by apply is_safe_char_not_slash.
Qed.

Lemma sanitizeFileName_all_safe (s : string) :
  StrX.all is_safe_char (sanitizeFileName s) = true.
Proof.
  induction s as [|c s IH]; [done|]. simpl. rewrite IH, andb_true_r.
  by destruct (is_safe_char c) eqn:Hc.
Qed.

Lemma sanitizeFileName_fixed (s : string) :
  StrX.all is_safe_char s = true -> sanitizeFileName s = s.
Proof.
  induction s as [|c s IH]; [done|]. simpl.
  intros [Hc Hs]%andb_true_iff. by rewrite Hc, (IH Hs).
Qed.

Lemma sanitizeFileName_get (s : string) (i : nat) (c : ascii) :
  String.get i s = Some c ->
  String.get i (sanitizeFileName s) = Some (if is_safe_char c then c else "_"%char).
Proof.
  revert i. induction s as [|x s IH]; intros i; [done|].
  destruct i as [|i]; cbn [String.get sanitizeFileName].
  - by intros [= ->].
  - apply IH.
Qed.

Lemma is_safe_char_alphabet (c : ascii) :
  is_safe_char c
  = negb (no_char c "abcdefghijklmnopqrstuvwxyzABCDEFGHIJKLMNOPQRSTUVWXYZ0123456789._-").
Proof. by destruct c as [[] [] [] [] [] [] [] []]; vm_compute. Qed.

(** X1.  [sanitizeFileName] keeps the length of the name and works
    character by character: a letter, a digit, a dot, an underscore or a
    dash stays, any other character becomes an underscore.  So the result
    has safe characters only, hence no path separator; a name that is
    already safe is unchanged, and sanitizing twice is sanitizing once. *)
Theorem sanitizeFileName_safe_and_idempotent (fileName : string) :
  String.length (sanitizeFileName fileName) = String.length fileName
  /\ StrX.all is_safe_char (sanitizeFileName fileName) = true
  /\ no_char "/" (sanitizeFileName fileName) = true
  /\ sanitizeFileName (sanitizeFileName fileName) = sanitizeFileName fileName
  /\ (StrX.all is_safe_char fileName = true -> sanitizeFileName fileName = fileName)
  /\ (forall i c,
        String.get i fileName = Some c ->
        String.get i (sanitizeFileName fileName)
        = Some (if is_safe_char c then c else "_"%char))
  /\ (forall c,
        is_safe_char c
        = negb (no_char c
                  "abcdefghijklmnopqrstuvwxyzABCDEFGHIJKLMNOPQRSTUVWXYZ0123456789._-")).
Proof.
  split; [|split; [|split; [|split; [|split]]]].
  - induction fileName as [|c s IH]; [done|]. simpl. by rewrite IH.
  - apply sanitizeFileName_all_safe.
  - apply all_safe_no_slash, sanitizeFileName_all_safe.
  - apply sanitizeFileName_fixed, sanitizeFileName_all_safe.
  - apply sanitizeFileName_fixed.
  - split; [apply sanitizeFileName_get | apply is_safe_char_alphabet].
Qed.

Lemma sanitizeFileName_safe_and_idempotent_witness :
  sanitizeFileName "my_cat-1.jpg" = "my_cat-1.jpg"
  /\ String.get 2 (sanitizeFileName "my cat") = Some "_"%char.
Proof.
  split.
  - exact (proj1 (proj2 (proj2 (proj2 (proj2
             (sanitizeFileName_safe_and_idempotent "my_cat-1.jpg"))))) eq_refl).
  - exact (proj1 (proj2 (proj2 (proj2 (proj2 (proj2
             (sanitizeFileName_safe_and_idempotent "my cat"))))))
             2%nat " "%char eq_refl).
Defined.

Lemma string_of_uint_safe (u : Decimal.uint) :
  StrX.all is_safe_char (NilEmpty.string_of_uint u) = true.
Proof. induction u; simpl; done. Qed.

Lemma of_nat_safe (n : nat) : StrX.all is_safe_char (of_nat n) = true.
Proof. apply string_of_uint_safe. Qed.

Section Shape.

Context `{NodeLib}.

(** X2.  The path that [uniquePath] returns is free in the file system and
    is the directory joined with one file name made of safe characters only
    (no separator), which starts with the sanitized base name and ends with
    the sanitized extension. *)
Theorem uniquePath_result_shape (fs : filesystem) (dir baseName extensionWithDot p : string) :
  uniquePath fs dir baseName extensionWithDot = Returned p ->
  existsSync fs p = false
  /\ exists name,
       p = path_join dir name
       /\ StrX.all is_safe_char name = true
       /\ no_char "/" name = true
       /\ startsWith name (sanitizeFileName baseName) = true
       /\ endsWith name (safeExt_of extensionWithDot) = true.
Proof.
  intros Hp. split; [by eapply WriterFacts.uniquePath_returns_free|].
  assert (StrX.all is_safe_char (safeExt_of extensionWithDot) = true) as Hext
    by apply sanitizeFileName_all_safe.
  pose proof (sanitizeFileName_all_safe baseName) as Hbase.
  assert (forall rest,
            StrX.all is_safe_char rest = true ->
            endsWith rest (safeExt_of extensionWithDot) = true ->
            let name := sanitizeFileName baseName +:+ rest in
            StrX.all is_safe_char name = true
            /\ no_char "/" name = true
            /\ startsWith name (sanitizeFileName baseName) = true
            /\ endsWith name (safeExt_of extensionWithDot) = true) as Hname.
  { intros rest Hrest Hends name.
    assert (StrX.all is_safe_char name = true) as Hall
      by (unfold name; by rewrite all_app, Hbase, Hrest).
    split; [done|]. split; [by apply all_safe_no_slash|]. split.
    - unfold name, startsWith. by rewrite strip_prefix_app.
    - by apply endsWith_app. }
  revert Hp. unfold uniquePath.
  destruct (existsSync fs (plain_candidate dir baseName extensionWithDot)) eqn:Hex;
    cbn [negb].
  - destruct (uniquePath_loop _ _ _ _ _ _) as [c|] eqn:Hloop; [|discriminate].
    intros [= <-].
    destruct (WriterFacts.uniquePath_loop_Some _ _ _ _ _ _ _ Hloop)
      as (k & _ & -> & _).
    exists (sanitizeFileName baseName +:+ "_" +:+ of_nat k
            +:+ safeExt_of extensionWithDot).
    split; [done|]. apply Hname.
    + by rewrite !all_app, of_nat_safe, Hext.
    + do 2 apply endsWith_app. apply endsWith_spec. by exists "".
  - intros [= <-].
    exists (sanitizeFileName baseName +:+ safeExt_of extensionWithDot).
    split; [done|]. apply Hname; [done|]. apply endsWith_spec. by exists "".
Qed.

End Shape.

End NameFacts.

(** ** Reference parser: what a parsed reference looks like *)

Module ReferenceFacts.
Import Str StrFacts SegmentFacts ParserFacts.

#[local] Arguments String.eqb : simpl never.
#[local] Arguments Str.endsWith : simpl never.
#[local] Arguments Str.toLowerCase : simpl never.
#[local] Arguments Str.includes : simpl never.
#[local] Arguments Str.split : simpl never.
#[local] Arguments Str.join : simpl never.

Lemma split_cons sep x (s : string) :
  split sep (String x s)
  = if Ascii.eqb x sep then EmptyString :: split sep s
    else match split sep s with
         | y :: ys => String x y :: ys
         | [] => [String x EmptyString]
         end.
Proof. reflexivity. Qed.

Lemma split_keeps_no_char c sep (s : string) :
  no_char c s = true -> Forall (fun x => no_char c x = true) (split sep s).
Proof.
  induction s as [|x s IH]; [by repeat constructor|].
  rewrite split_cons. cbn [no_char].
  intros [Hx Hs]%andb_true_iff. specialize (IH Hs).
  destruct (Ascii.eqb x sep); [by constructor|].
  destruct (split sep s) as [|y ys]; inversion IH; subst.
  - repeat constructor. cbn [no_char]. by rewrite Hx.
  - constructor; [|done]. cbn [no_char]. by rewrite Hx.
Qed.

Lemma or_default_segment (x : option string) (d : string) :
  segment d = true ->
  (forall s, x = Some s -> no_char "/" s = true) ->
  segment (or_default x d) = true.
Proof.
  intros Hd Hx. unfold or_default. destruct x as [s|]; [|done].
  destruct (nonempty s) eqn:Hs; [|done].
  unfold segment. by rewrite Hs, (Hx s eq_refl).
Qed.

Lemma lookup_segment (parts : list string) (k : nat) s :
  Forall (fun x => segment x = true) parts -> parts !! k = Some s -> segment s = true.
Proof. intros Hall Hk. by eapply (proj1 (Forall_lookup _ _) Hall). Qed.

Lemma split_revision_segments (r : string) :
  segment r = true ->
  segment (fst (split_revision r)) = true /\ segment (snd (split_revision r)) = true.
Proof.
  intros Hr. destruct (segment_inv _ Hr) as [_ Hno].
  pose proof (split_keeps_no_char "/" "@" r Hno) as Hpieces.
  unfold split_revision. destruct (includes r "@"); [|by split]. simpl. split.
  - apply or_default_segment; [done|]. intros s Hs.
    by eapply (proj1 (Forall_lookup _ _) Hpieces).
  - apply or_default_segment; [done|]. intros s Hs.
    by eapply (proj1 (Forall_lookup _ _) Hpieces).
Qed.

(** X3.  Every reference that the parser returns is well formed: its
    [repoId] is [org/repo] with both parts non-empty and free of slashes (so
    it has exactly one slash), its revision is non-empty and free of
    slashes, and its file path is a non-empty sequence of non-empty segments
    joined by single slashes that ends with [.parquet] in any case. *)
Theorem parsed_reference_well_formed (input : string) (ref : HFParquetRef) :
  parseHFParquetPath input = Returned ref ->
  (exists org repo,
      repoId ref = org +:+ "/" +:+ repo
      /\ segment org = true /\ segment repo = true)
  /\ segment (revision ref) = true
  /\ (exists file,
        file <> [] /\ Forall (fun s => segment s = true) file
        /\ filePath ref = join "/" file)
  /\ endsWith (toLowerCase (filePath ref)) ".parquet" = true.
Proof.
  unfold parseHFParquetPath, parse_parts.
  pose proof (segments_are_segments input) as Hseg.
  set (parts := segments input) in *. set (i := keyword_offset parts).
  destruct (Nat.ltb_spec (length parts) 3) as [|Hlen3]; [discriminate|].
  assert (forall k, (k < length parts)%nat ->
            exists s, parts !! k = Some s /\ segment s = true) as Hat.
  { intros k Hk. destruct (lookup_lt_is_Some_2 parts k Hk) as [s Hs].
    exists s. split; [done|]. by eapply lookup_segment. }
  assert (forall k, (k < length parts)%nat ->
            drop k parts <> [] /\ Forall (fun s => segment s = true) (drop k parts))
    as Hdrop.
  { intros k Hk. split; [|by apply Forall_drop].
    intros Hnil. apply (f_equal length) in Hnil.
    rewrite length_drop in Hnil. simpl in Hnil. lia. }
  destruct (isResolveOrBlob parts).
  - destruct (Nat.ltb_spec (length parts) (i + 5)) as [|Hlen5]; [discriminate|].
    destruct (endsWith _ _) eqn:Hsuf; [|discriminate]. simpl.
    intros [= <-]. simpl.
    destruct (Hat i) as (org & -> & Horg); [lia|].
    destruct (Hat (i + 1)%nat) as (repo & -> & Hrepo); [lia|].
    destruct (Hat (i + 3)%nat) as (rev & -> & Hrev); [lia|].
    destruct (Hdrop (i + 4)%nat) as [Hne Hall]; [lia|].
    split; [by exists org, repo|]. split.
    { apply or_default_segment; [done|]. intros s [= <-].
      by destruct (segment_inv _ Hrev). }
    split; [by eexists|done].
  - destruct (Nat.ltb_spec (length parts) (i + 3)) as [|Hlen3']; [discriminate|].
    destruct (Hat i) as (org & -> & Horg); [lia|].
    destruct (Hat (i + 1)%nat) as (r & -> & Hr); [lia|].
    destruct (Hdrop (i + 2)%nat) as [Hne Hall]; [lia|].
    pose proof (split_revision_segments r Hr) as [Hrepo Hrev].
    simpl. destruct (split_revision r) as [repo rev]. simpl in Hrepo, Hrev.
    destruct (endsWith _ _) eqn:Hsuf; [|discriminate]. simpl.
    intros [= <-]. simpl.
    split; [by exists org, repo|]. split; [done|]. split; [by eexists|done].
Qed.

Lemma trimEnd_app_l (a x : string) :
  a <> "" -> trimEnd a = a -> trimEnd (a +:+ x) = a +:+ trimEnd x.
Proof.
  induction a as [|c a IH]; [done|]. intros _ Ha.
  rewrite !append_cons. cbn [trimEnd] in Ha |- *.
  destruct a as [|d a].
  - rewrite !append_nil_l. simpl in Ha.
    destruct (is_space c); [discriminate|]. by destruct (trimEnd x).
  - assert (trimEnd (String d a) = String d a) as Ha'.
    { destruct (trimEnd (String d a)) as [|e t].
      - destruct (is_space c); discriminate.
      - congruence. }
    rewrite (IH ltac:(done) Ha'). by rewrite append_cons.
Qed.

Lemma segments_after_host (h x : string) :
  h ∈ host_prefixes ->
  segments (h +:+ x) = filter_Boolean (split "/" (trimEnd x)).
Proof.
  intros Hh. unfold segments, trim.
  destruct (host_prefix_shape _ Hh) as [Hne Hsp].
  rewrite trimStart_app by done.
  assert (trimEnd h = h) as Hh'.
  { revert Hh. unfold host_prefixes. rewrite !elem_of_cons, elem_of_nil.
    intros [->|[->|[->|[->|[]]]]]; reflexivity. }
  rewrite trimEnd_app_l by done. by rewrite strip_host_prefixed.
Qed.

(** X4.  The four spellings of the host ([http] or [https], with or without
    [www.]) are interchangeable: the same rest of the URL parses to the same
    result, a reference or an error, after any of them. *)
Theorem host_spellings_equivalent (h1 h2 rest : string) :
  h1 ∈ host_prefixes -> h2 ∈ host_prefixes ->
  parseHFParquetPath (h1 +:+ rest) = parseHFParquetPath (h2 +:+ rest).
Proof.
  intros H1 H2. unfold parseHFParquetPath.
  by rewrite !segments_after_host.
Qed.

Lemma host_spellings_equivalent_witness :
  parseHFParquetPath "http://www.huggingface.co/org/repo/resolve/main/a.parquet"
  = parseHFParquetPath "https://huggingface.co/org/repo/resolve/main/a.parquet".
Proof.
  apply (host_spellings_equivalent "http://www.huggingface.co/" "https://huggingface.co/"
           "org/repo/resolve/main/a.parquet");
    unfold host_prefixes; rewrite !elem_of_cons; auto.
Defined.

Lemma parsed_reference_well_formed_witness :
  segment (revision (mkRef "org/repo" "v2" "data/train.parquet" auto)) = true.
Proof.
  exact (proj1 (proj2 (parsed_reference_well_formed "org/repo@v2/data/train.parquet"
                         (mkRef "org/repo" "v2" "data/train.parquet" auto) eq_refl))).
Defined.

End ReferenceFacts.

(** ** Token and URL *)

Module TokenFacts.
Import Str StrFacts NameFacts.

Lemma first_word_no_space (s : string) :
  StrX.all (fun c => negb (is_space c)) (first_word s) = true.
Proof.
  induction s as [|c s IH]; [done|]. simpl.
  destruct (is_space c) eqn:Hc; [done|]. simpl. by rewrite Hc.
Qed.

Lemma first_word_fixed (s : string) :
  StrX.all (fun c => negb (is_space c)) s = true -> first_word s = s.
Proof.
  induction s as [|c s IH]; [done|]. simpl.
  intros [Hc Hs]%andb_true_iff. apply negb_true_iff in Hc. by rewrite Hc, (IH Hs).
Qed.

Lemma trimEnd_fixed (s : string) :
  StrX.all (fun c => negb (is_space c)) s = true -> trimEnd s = s.
Proof.
  induction s as [|c s IH]; [done|]. simpl.
  intros [Hc Hs]%andb_true_iff. apply negb_true_iff in Hc. rewrite (IH Hs), Hc.
  by destruct s.
Qed.

Lemma trim_fixed (s : string) :
  StrX.all (fun c => negb (is_space c)) s = true -> trim s = s.
Proof.
  intros Hs. unfold trim.
  assert (trimStart s = s) as ->.
  { destruct s as [|c s]; [done|]. simpl in Hs |- *.
    apply andb_true_iff in Hs as [Hc _]. apply negb_true_iff in Hc. by rewrite Hc. }
  by apply trimEnd_fixed.
Qed.

Lemma plain_no_space (s : string) :
  StrX.all StrX.is_plain_token_char s = true ->
  StrX.all (fun c => negb (is_space c)) s = true.
Proof.
  apply all_impl. unfold StrX.is_plain_token_char.
  by intros c [[? _]%andb_true_iff _]%andb_true_iff.
Qed.

Lemma strip_prefix_ci_all P (p s rest : string) :
  strip_prefix_ci p s = Some rest -> StrX.all P s = true -> StrX.all P rest = true.
Proof.
  revert s. induction p as [|a p IH]; intros s; simpl.
  - by intros [= ->].
  - destruct s as [|b s]; [discriminate|].
    destruct (Ascii.eqb _ _); [|discriminate].
    intros Hrest [_ Hs]%andb_true_iff. by eapply IH.
Qed.

Lemma strip_bearer_plain (s : string) :
  StrX.all (fun c => negb (is_space c)) s = true -> strip_bearer s = s.
Proof.
  intros Hs. unfold strip_bearer.
  destruct (strip_prefix_ci "Bearer" s) as [rest|] eqn:Hrest; [|done].
  pose proof (strip_prefix_ci_all _ _ _ _ Hrest Hs) as Hr.
  destruct rest as [|c rest]; [done|]. simpl in Hr |- *.
  apply andb_true_iff in Hr as [Hc _]. apply negb_true_iff in Hc. by rewrite Hc.
Qed.

Lemma unquote_other (q : ascii) (s : string) :
  StrX.all (fun c => negb (Ascii.eqb c q)) s = true -> unquote q s = s.
Proof.
  destruct s as [|c rest]; [done|]. simpl.
  intros [Hc _]%andb_true_iff. apply negb_true_iff in Hc.
  destruct (unsnoc rest) as [[inner l]|]; [|done]. by rewrite Hc.
Qed.

Lemma unsnoc_snoc (s : string) c : unsnoc (s +:+ String c "") = Some (s, c).
Proof.
  induction s as [|x s IH]; [done|].
  rewrite append_cons. simpl. by rewrite IH.
Qed.

Lemma plain_no_line_terminator (s : string) :
  StrX.all StrX.is_plain_token_char s = true -> no_line_terminator s = true.
Proof.
  induction s as [|c s IH]; [done|]. simpl.
  intros [Hc Hs]%andb_true_iff. rewrite (IH Hs), andb_true_r.
  unfold StrX.is_plain_token_char in Hc.
  apply andb_true_iff in Hc as [[Hc _]%andb_true_iff _].
  revert Hc. unfold is_space, is_line_terminator.
  destruct (code c =? 10)%N eqn:E10.
  { apply N.eqb_eq in E10. by rewrite E10. }
  destruct (code c =? 13)%N eqn:E13.
  { apply N.eqb_eq in E13. by rewrite E13. }
  done.
Qed.

Lemma plain_not_quote (q : ascii) (s : string) :
  q = dquote \/ q = "'"%char ->
  StrX.all StrX.is_plain_token_char s = true ->
  StrX.all (fun c => negb (Ascii.eqb c q)) s = true.
Proof.
  intros Hq. apply all_impl. unfold StrX.is_plain_token_char.
  intros c [[_ Hd]%andb_true_iff Hs]%andb_true_iff. by destruct Hq as [-> | ->].
Qed.

Lemma unquote_quoted (q : ascii) (t : string) :
  t <> "" -> no_line_terminator t = true ->
  unquote q (String q (t +:+ String q "")) = t.
Proof.
  intros Hne Hnl. unfold unquote. rewrite unsnoc_snoc, Ascii.eqb_refl, Hnl.
  by destruct t.
Qed.

Lemma sanitize_plain (t : string) :
  StrX.all StrX.is_plain_token_char t = true -> sanitizeToken t = t.
Proof.
  intros Ht. pose proof (plain_no_space t Ht) as Hsp. unfold sanitizeToken.
  rewrite trim_fixed, strip_bearer_plain by done.
  rewrite (unquote_other dquote), (unquote_other "'")
    by (apply plain_not_quote; auto).
  by apply first_word_fixed.
Qed.

(** X5.  The cleaned token never contains white space, so it cannot break
    the [Authorization] header.  A token of plain characters (no white
    space, no quote) comes out unchanged, and so does the same token pasted
    with white space around it, with a [Bearer] prefix, or between double or
    single quotes. *)
Theorem sanitizeToken_tolerates_paste (raw t : string) :
  StrX.all (fun c => negb (is_space c)) (sanitizeToken raw) = true
  /\ (t <> "" -> StrX.all StrX.is_plain_token_char t = true ->
      sanitizeToken t = t
      /\ sanitizeToken (" " +:+ t +:+ " ") = t
      /\ sanitizeToken ("Bearer " +:+ t) = t
      /\ sanitizeToken (String dquote (t +:+ String dquote "")) = t
      /\ sanitizeToken (String "'" (t +:+ String "'" "")) = t).
Proof.
  split; [apply first_word_no_space|].
  intros Hne Ht. pose proof (plain_no_space t Ht) as Hsp.
  pose proof (plain_no_line_terminator t Ht) as Hnl.
  pose proof (sanitize_plain t Ht) as Hplain.
  assert (exists c r, t = String c r /\ is_space c = false) as (c & r & Ht0 & Hc).
  { destruct t as [|c r]; [done|]. exists c, r. split; [done|].
    simpl in Hsp. apply andb_true_iff in Hsp as [Hc _]. by apply negb_true_iff in Hc. }
  assert (trimEnd t = t) as Hte by (by apply trimEnd_fixed).
  split; [done|]. split; [|split; [|split]].
  - unfold sanitizeToken in *.
    assert (trim (" " +:+ t +:+ " ") = t) as ->; [|by rewrite trim_fixed in Hplain].
    unfold trim. change (" " +:+ t +:+ " ") with (String " " (t +:+ " ")).
    cbn [trimStart]. replace (is_space " ") with true by done. cbv iota.
    rewrite Ht0, append_cons. cbn [trimStart]. rewrite Hc, <- append_cons, <- Ht0.
    rewrite ReferenceFacts.trimEnd_app_l by done.
    change (trimEnd " ") with "". apply append_empty_r.
  - unfold sanitizeToken in *.
    assert (strip_bearer (trim ("Bearer " +:+ t)) = t) as ->.
    { assert (trim ("Bearer " +:+ t) = "Bearer " +:+ t) as ->.
      { unfold trim. rewrite trimStart_app by done. by apply trimEnd_app. }
      unfold strip_bearer. change ("Bearer " +:+ t) with ("Bearer" +:+ String " " t).
      replace (strip_prefix_ci "Bearer" ("Bearer" +:+ String " " t))
        with (Some (String " " t)) by done.
      cbn [starts_with_space trimStart]. replace (is_space " ") with true by done.
      cbv iota. rewrite Ht0. cbn [trimStart]. by rewrite Hc. }
    by rewrite trim_fixed, strip_bearer_plain in Hplain.
  - unfold sanitizeToken in *.
    set (quoted := String dquote (t +:+ String dquote "")).
    assert (trim quoted = quoted) as ->.
    { unfold trim, quoted. cbn [trimStart]. replace (is_space dquote) with false by done.
      cbv iota. change (String dquote (t +:+ String dquote ""))
        with ((String dquote t) +:+ String dquote "").
      by apply trimEnd_last. }
    assert (strip_bearer quoted = quoted) as -> by done.
    unfold quoted. rewrite unquote_quoted by done.
    by rewrite trim_fixed, strip_bearer_plain, (unquote_other dquote) in Hplain
      by (done || apply plain_not_quote; auto).
  - unfold sanitizeToken in *.
    set (quoted := String "'" (t +:+ String "'" "")).
    assert (trim quoted = quoted) as ->.
    { unfold trim, quoted. cbn [trimStart]. replace (is_space "'") with false by done.
      cbv iota. change (String "'" (t +:+ String "'" ""))
        with ((String "'" t) +:+ String "'" "").
      by apply trimEnd_last. }
    assert (strip_bearer quoted = quoted) as -> by done.
    assert (unquote dquote quoted = quoted) as ->
      by (unfold quoted, unquote; by rewrite unsnoc_snoc).
    unfold quoted. rewrite unquote_quoted by done.
    by rewrite trim_fixed, strip_bearer_plain, (unquote_other dquote),
      (unquote_other "'") in Hplain by (done || apply plain_not_quote; auto).
Qed.

End TokenFacts.

Module UrlFacts.
Import Str StrFacts NameFacts.

Lemma sanitizeToken_tolerates_paste_witness :
  sanitizeToken " hf_abc " = "hf_abc" /\ sanitizeToken "Bearer hf_abc" = "hf_abc".
Proof.
  destruct (proj2 (TokenFacts.sanitizeToken_tolerates_paste "" "hf_abc")
              ltac:(discriminate) eq_refl) as (_ & Hspace & Hbearer & _).
  split; [exact Hspace | exact Hbearer].
Defined.

Lemma encode_char_chars (c : ascii) :
  StrX.all StrX.is_encoded_char (encode_char c) = true
  /\ encode_char c <> "".
Proof. destruct c as [[] [] [] [] [] [] [] []]; by vm_compute. Qed.

Lemma encodeURIComponent_chars (s : string) :
  StrX.all StrX.is_encoded_char (encodeURIComponent s) = true.
Proof.
  induction s as [|c s IH]; [done|]. simpl.
  rewrite all_app, IH. by destruct (encode_char_chars c) as [-> _].
Qed.

Lemma encodeURIComponent_nonempty (s : string) :
  nonempty s = true -> nonempty (encodeURIComponent s) = true.
Proof.
  destruct s as [|c s]; [done|]. intros _. simpl.
  destruct (encode_char_chars c) as [_ Hne].
  destruct (encode_char c); [done|]. by rewrite append_cons.
Qed.

Lemma encoded_no_char (q : ascii) (s : string) :
  StrX.is_encoded_char q = false ->
  StrX.all StrX.is_encoded_char s = true -> no_char q s = true.
Proof.
  intros Hq. induction s as [|c s IH]; [done|]. simpl.
  intros [Hc Hs]%andb_true_iff. rewrite (IH Hs), andb_true_r.
  apply negb_true_iff, Ascii.eqb_neq. intros ->. congruence.
Qed.

Lemma all_join P (sep : string) (l : list string) :
  StrX.all P sep = true ->
  Forall (fun s => StrX.all P s = true) l ->
  StrX.all P (join sep l) = true.
Proof.
  intros Hsep Hall. induction Hall as [|x l Hx Hl IH]; [done|].
  destruct l as [|y l]; [done|].
  rewrite join_cons2, !all_app, Hx, Hsep. by rewrite IH.
Qed.

Lemma encoded_is_path_char (s : string) :
  StrX.all StrX.is_encoded_char s = true -> StrX.all StrX.is_path_char s = true.
Proof.
  apply all_impl. unfold StrX.is_path_char. intros c ->. done.
Qed.

(** The encoded components of a path. *)
Lemma encodeHFPath_components (p : string) :
  Forall (fun s => segment s = true /\ StrX.all StrX.is_encoded_char s = true)
         (List.map encodeURIComponent (filter_Boolean (split "/" p))).
Proof.
  pose proof (filter_Boolean_nonempty (split "/" p)) as Hne.
  induction Hne as [|s l Hs Hl IH]; [constructor|].
  simpl. constructor; [|done]. split; [|apply encodeURIComponent_chars].
  unfold segment. rewrite (encodeURIComponent_nonempty _ Hs). simpl.
  apply (encoded_no_char "/"); [done | apply encodeURIComponent_chars].
Qed.

Lemma path_no_char (q : ascii) (s : string) :
  StrX.is_path_char q = false ->
  StrX.all StrX.is_path_char s = true -> no_char q s = true.
Proof.
  intros Hq. induction s as [|c s IH]; [done|]. simpl.
  intros [Hc Hs]%andb_true_iff. rewrite (IH Hs), andb_true_r.
  apply negb_true_iff, Ascii.eqb_neq. intros ->. congruence.
Qed.

Lemma encodeHFPath_chars (p : string) :
  StrX.all StrX.is_path_char (encodeHFPath p) = true.
Proof.
  unfold encodeHFPath. apply all_join; [done|].
  eapply Forall_impl; [apply encodeHFPath_components|].
  intros s [_ Hs]. by apply encoded_is_path_char.
Qed.

(** X6.  The encoded file path of a URL is made of non-empty components
    joined by single slashes, whatever slashes the path had, and of
    unreserved characters, percent signs and slashes only: it has no
    question mark, hash sign or white space.  Encoding then splitting gives
    back the encoded components. *)
Theorem encodeHFPath_is_a_clean_path (p : string) :
  StrX.all StrX.is_path_char (encodeHFPath p) = true
  /\ no_char "?" (encodeHFPath p) = true
  /\ no_char "#" (encodeHFPath p) = true
  /\ StrX.all (fun c => negb (is_space c)) (encodeHFPath p) = true
  /\ Forall (fun s => segment s = true)
            (List.map encodeURIComponent (filter_Boolean (split "/" p)))
  /\ (filter_Boolean (split "/" p) <> [] ->
      split "/" (encodeHFPath p)
      = List.map encodeURIComponent (filter_Boolean (split "/" p))).
Proof.
  pose proof (encodeHFPath_chars p) as Hchars.
  pose proof (encodeHFPath_components p) as Hcomp.
  assert (Forall (fun s => segment s = true)
            (List.map encodeURIComponent (filter_Boolean (split "/" p)))) as Hseg.
  { eapply Forall_impl; [exact Hcomp|]. by intros s [? _]. }
  split; [done|]. split; [by apply (path_no_char "?")|].
  split; [by apply (path_no_char "#")|]. split.
  { revert Hchars. apply all_impl. intros c Hc.
    destruct c as [[] [] [] [] [] [] [] []]; by vm_compute in Hc |- *. }
  split; [done|]. intros Hne. unfold encodeHFPath. apply split_join.
  - intros Hnil. apply Hne. by destruct (filter_Boolean (split "/" p)).
  - by apply SegmentFacts.Forall_segment_no_slash.
Qed.

Lemma no_char_includes (q : ascii) (s : string) :
  no_char q s = true -> includes s (String q "") = false.
Proof. intros Hs. by rewrite includes_char, Hs. Qed.

(** X7.  For a repository name without a question mark, the forced-download
    candidate of the route is the canonical URL followed by
    [?download=true], and it is the very URL that the helper script
    requests for the same repository kind.  When the name has a question
    mark the route appends [&download=true] instead. *)
Theorem download_candidate_url (repoId revision filePath : string) :
  let rev := encodeURIComponent (str_or revision "main") in
  let fp := encodeHFPath filePath in
  (no_char "?" repoId = true ->
   (forall t, withDownloadQuery (buildUrl repoId rev fp t)
              = buildUrl repoId rev fp t +:+ "?download=true")
   /\ helper_buildUrl repoId rev fp "datasets"
      = withDownloadQuery (buildUrl repoId rev fp datasets)
   /\ helper_buildUrl repoId rev fp "models"
      = withDownloadQuery (buildUrl repoId rev fp models))
  /\ (no_char "?" repoId = false ->
      forall t, withDownloadQuery (buildUrl repoId rev fp t)
                = buildUrl repoId rev fp t +:+ "&download=true").
Proof.
  intros rev fp.
  assert (no_char "?" rev = true) as Hrev
    by (apply (encoded_no_char "?"); [done | apply encodeURIComponent_chars]).
  assert (no_char "?" fp = true) as Hfp
    by (apply (path_no_char "?"); [done | apply encodeHFPath_chars]).
  assert (forall t, no_char "?" (buildUrl repoId rev fp t) = no_char "?" repoId) as Hurl.
  { intros t. unfold buildUrl.
    destruct t; rewrite !no_char_app, Hrev, Hfp; simpl;
      by rewrite !andb_true_r. }
  split.
  - intros Hid.
    assert (forall t, withDownloadQuery (buildUrl repoId rev fp t)
                      = buildUrl repoId rev fp t +:+ "?download=true") as Hq.
    { intros t. unfold withDownloadQuery.
      by rewrite no_char_includes by (by rewrite Hurl). }
    split; [done|]. rewrite !Hq. unfold helper_buildUrl, buildUrl. simpl.
    by rewrite !append_assoc.
  - intros Hid t. unfold withDownloadQuery.
    by rewrite includes_char, Hurl, Hid.
Qed.

Lemma download_candidate_url_witness :
  helper_buildUrl "org/repo" (encodeURIComponent (str_or "" "main"))
                  (encodeHFPath "imgs/dog.png") "datasets"
  = "https://huggingface.co/datasets/org/repo/resolve/main/imgs/dog.png?download=true".
Proof.
  destruct (proj1 (download_candidate_url "org/repo" "" "imgs/dog.png") eq_refl)
    as (_ & Hd & _).
  exact Hd.
Defined.

Lemma encodeHFPath_is_a_clean_path_witness :
  split "/" (encodeHFPath "/data//train 0.parquet") = ["data"; "train%200.parquet"].
Proof.
  exact (proj2 (proj2 (proj2 (proj2 (proj2
           (encodeHFPath_is_a_clean_path "/data//train 0.parquet")))))
           ltac:(discriminate)).
Defined.

End UrlFacts.

(** ** What the downloads request, and what they leave alone *)

Module RequestFacts.
Import Str StrFacts.

Section Discipline.

Context `{Network}.

Lemma keeps_fs_ret {A} (a : A) : keeps_fs (ret a).
Proof. by intros w. Qed.

Lemma keeps_fs_throw {A} (e : JsError) : keeps_fs (throw (A := A) e).
Proof. by intros w. Qed.

Lemma keeps_fs_lift {A} (o : outcome A) : keeps_fs (lift o).
Proof. by intros w. Qed.

Lemma keeps_fs_do_fetch url headers : keeps_fs (do_fetch url headers).
Proof. intros w. unfold do_fetch. by destruct (fetch _ _ _). Qed.

Lemma keeps_fs_bind {A B} (m : M A) (k : A -> M B) :
  keeps_fs m -> (forall a, keeps_fs (k a)) -> keeps_fs (bind m k).
Proof.
  intros Hm Hk w. unfold bind. specialize (Hm w).
  destruct (m w) as [[a|e] w1]; simpl in *; [|done].
  by rewrite Hk.
Qed.

Lemma keeps_fs_try_catch {A} (m : M A) (h : JsError -> M A) :
  keeps_fs m -> (forall e, keeps_fs (h e)) -> keeps_fs (try_catch m h).
Proof.
  intros Hm Hh w. unfold try_catch. specialize (Hm w).
  destruct (m w) as [[a|e] w1]; simpl in *; [done|].
  by rewrite Hh.
Qed.

Lemma requests_within_ret {A} n P (a : A) : requests_within n P (ret a).
Proof.
  intros w. exists []. rewrite app_nil_r. split; [done|]. split; [simpl; lia | done].
Qed.

Lemma requests_within_throw {A} n P (e : JsError) :
  requests_within n P (throw (A := A) e).
Proof.
  intros w. exists []. rewrite app_nil_r. split; [done|]. split; [simpl; lia | done].
Qed.

Lemma requests_within_lift {A} n P (o : outcome A) : requests_within n P (lift o).
Proof.
  intros w. exists []. rewrite app_nil_r. split; [done|]. split; [simpl; lia | done].
Qed.

Lemma requests_within_do_fetch (P : Exchange -> Prop) url headers :
  (forall r, P (mkExchange url (h_authorization headers) r)) ->
  requests_within 1 P (do_fetch url headers).
Proof.
  intros HP w. unfold do_fetch. destruct (fetch _ _ _) as [r n'] eqn:Hf. simpl.
  eexists [_]. split; [done|]. split; [done|]. by repeat constructor.
Qed.

Lemma requests_within_weaken {A} (n n' : nat) (P Q : Exchange -> Prop) (m : M A) :
  (n <= n')%nat -> (forall x, P x -> Q x) ->
  requests_within n P m -> requests_within n' Q m.
Proof.
  intros Hn HPQ Hm w. destruct (Hm w) as (l & Hlog & Hlen & Hall).
  exists l. split; [done|]. split; [lia|]. by eapply Forall_impl.
Qed.

Lemma requests_within_bind {A B} (n n' : nat) P (m : M A) (k : A -> M B) :
  requests_within n P m -> (forall a, requests_within n' P (k a)) ->
  requests_within (n + n') P (bind m k).
Proof.
  intros Hm Hk w. unfold bind. destruct (Hm w) as (l & Hlog & Hlen & Hall).
  destruct (m w) as [[a|e] w1]; simpl in *.
  - destruct (Hk a w1) as (l' & Hlog' & Hlen' & Hall').
    exists (l ++ l'). rewrite Hlog', Hlog, app_assoc. split; [done|].
    split; [rewrite length_app; lia | by apply Forall_app].
  - exists l. split; [done|]. split; [lia | done].
Qed.

Lemma requests_within_try_catch {A} (n n' : nat) P (m : M A) (h : JsError -> M A) :
  requests_within n P m -> (forall e, requests_within n' P (h e)) ->
  requests_within (n + n') P (try_catch m h).
Proof.
  intros Hm Hh w. unfold try_catch. destruct (Hm w) as (l & Hlog & Hlen & Hall).
  destruct (m w) as [[a|e] w1]; simpl in *.
  - exists l. split; [done|]. split; [lia | done].
  - destruct (Hh e w1) as (l' & Hlog' & Hlen' & Hall').
    exists (l ++ l'). rewrite Hlog', Hlog, app_assoc. split; [done|].
    split; [rewrite length_app; lia | by apply Forall_app].
Qed.

(** *** The route *)

Lemma keeps_fs_tryFetch url headers : keeps_fs (tryFetch url headers).
Proof.
  unfold tryFetch. apply keeps_fs_bind; [apply keeps_fs_do_fetch|].
  intros res. destruct (res_ok res); [|apply keeps_fs_ret].
  apply keeps_fs_bind; [apply keeps_fs_lift | intros; apply keeps_fs_ret].
Qed.

Lemma requests_within_tryFetch (P : Exchange -> Prop) url headers :
  (forall r, P (mkExchange url (h_authorization headers) r)) ->
  requests_within 1 P (tryFetch url headers).
Proof.
  intros HP. unfold tryFetch.
  apply (requests_within_bind 1 0); [by apply requests_within_do_fetch|].
  intros res. destruct (res_ok res); [|apply requests_within_ret].
  apply (requests_within_bind 0 0); [apply requests_within_lift|].
  intros; apply requests_within_ret.
Qed.

Lemma keeps_fs_tryWithFallbackAuth token url : keeps_fs (tryWithFallbackAuth token url).
Proof.
  unfold tryWithFallbackAuth, auth_loop, plain_loop, attemptOnce.
  destruct (nonempty token);
    repeat first
      [ apply keeps_fs_tryFetch | apply keeps_fs_ret
      | apply keeps_fs_bind; [|intros [?|?]] | apply keeps_fs_bind; [|intros [[?|?]|]] ].
Qed.

(** The requests of [tryWithFallbackAuth]: at most five with a token and
    three without; each for [url] or its forced-download form; the header
    is absent, or is the one made of the token. *)
Lemma requests_within_tryWithFallbackAuth token url :
  requests_within (if nonempty token then 5 else 3)
    (fun x => (ex_url x = url \/ ex_url x = withDownloadQuery url)
              /\ (ex_authorization x = None
                  \/ (nonempty token = true
                      /\ ex_authorization x = Some ("Bearer " +:+ token))))
    (tryWithFallbackAuth token url).
Proof.
  unfold tryWithFallbackAuth, auth_loop, plain_loop, attemptOnce.
  destruct (nonempty token) eqn:Htok.
  - pose proof (FetchFacts.auth_header token Htok) as Hauth.
    apply (requests_within_bind 4 1).
    + apply (requests_within_bind 1 3);
        [apply requests_within_tryFetch; intros r; simpl; rewrite Hauth; auto|].
      intros [?|?]; [apply requests_within_ret|].
      apply (requests_within_bind 1 2);
        [apply requests_within_tryFetch; intros r; simpl; auto|].
      intros [?|?]; [apply requests_within_ret|].
      apply (requests_within_bind 1 1);
        [apply requests_within_tryFetch; intros r; simpl; rewrite Hauth; auto|].
      intros [?|?]; [apply requests_within_ret|].
      apply (requests_within_bind 1 0);
        [apply requests_within_tryFetch; intros r; simpl; auto|].
      intros [?|?]; apply requests_within_ret.
    + intros [[?|?]|];
        try apply requests_within_ret.
      apply requests_within_tryFetch; intros r; simpl; rewrite Hauth; auto.
  - apply (requests_within_bind 2 1).
    + apply (requests_within_bind 1 1);
        [apply requests_within_tryFetch; intros r; simpl; auto|].
      intros [?|?]; [apply requests_within_ret|].
      apply (requests_within_bind 1 0);
        [apply requests_within_tryFetch; intros r; simpl; auto|].
      intros [?|?]; apply requests_within_ret.
    + intros [[?|?]|];
        try apply requests_within_ret.
      apply requests_within_tryFetch; intros r; simpl; auto.
Qed.

Lemma startsWith_app (s p x : string) :
  startsWith s p = true -> startsWith (s +:+ x) p = true.
Proof.
  unfold startsWith. destruct (strip_prefix p s) as [rest|] eqn:Hs; [|done].
  intros _. apply strip_prefix_Some in Hs as ->.
  by rewrite append_assoc, strip_prefix_app.
Qed.

Lemma buildUrl_host repoId rev fp t :
  startsWith (buildUrl repoId rev fp t) "https://huggingface.co/" = true.
Proof.
  unfold buildUrl, startsWith. destruct t.
  - by rewrite strip_prefix_app.
  - change ("https://huggingface.co/datasets/" +:+ repoId +:+ "/resolve/" +:+ rev
            +:+ "/" +:+ fp)
      with ("https://huggingface.co/" +:+ "datasets/" +:+ repoId +:+ "/resolve/"
            +:+ rev +:+ "/" +:+ fp).
    by rewrite strip_prefix_app.
  - by rewrite strip_prefix_app.
Qed.

Lemma withDownloadQuery_host url :
  startsWith url "https://huggingface.co/" = true ->
  startsWith (withDownloadQuery url) "https://huggingface.co/" = true.
Proof.
  intros Hurl. unfold withDownloadQuery.
  destruct (includes url "?"); by apply startsWith_app.
Qed.

(** X8.  A download of the route never touches the file system.  It makes
    at most five requests per repository kind with a token and three
    without (twice that for [auto]), all to URLs under
    [https://huggingface.co/].  A request either has no [Authorization]
    header or has [Bearer] followed by the cleaned token; without a token no
    request has the header. *)
Theorem downloadHFFile_request_discipline (hf_token_row : option string)
  (repoId revision filePath : string) (repoType : HFRepoType) :
  let token := sanitizeToken (str_or (getHFToken hf_token_row) "") in
  let per_kind := if nonempty token then 5%nat else 3%nat in
  let download := downloadHFFile hf_token_row repoId revision filePath repoType in
  keeps_fs download
  /\ requests_within
       (match repoType with auto => per_kind + per_kind | _ => per_kind end)
       (fun x => startsWith (ex_url x) "https://huggingface.co/" = true
                 /\ (ex_authorization x = None
                     \/ (nonempty token = true
                         /\ ex_authorization x = Some ("Bearer " +:+ token))))
       download.
Proof.
  intros token per_kind download. subst download. unfold downloadHFFile. fold token.
  set (rev := encodeURIComponent _). set (fp := encodeHFPath _).
  assert (forall t,
            requests_within per_kind
              (fun x => startsWith (ex_url x) "https://huggingface.co/" = true
                        /\ (ex_authorization x = None
                            \/ (nonempty token = true
                                /\ ex_authorization x = Some ("Bearer " +:+ token))))
              (tryWithFallbackAuth token (buildUrl repoId rev fp t))) as Htry.
  { intros t. eapply requests_within_weaken;
      [| |apply requests_within_tryWithFallbackAuth]; [done|].
    intros x [[-> | ->] Hauth]; (split; [|done]).
    - apply buildUrl_host.
    - apply withDownloadQuery_host, buildUrl_host. }
  split.
  - destruct repoType;
      repeat first
        [ apply keeps_fs_tryWithFallbackAuth | apply keeps_fs_ret | apply keeps_fs_throw
        | apply keeps_fs_bind; [|intros [?|?]] ].
  - destruct repoType.
    + apply requests_within_bind; [apply Htry|].
      intros [?|?];
        [apply requests_within_ret|].
      replace per_kind with (per_kind + 0)%nat at 1 by lia.
      apply requests_within_bind; [apply Htry|].
      intros [?|?]; [apply requests_within_ret | apply requests_within_throw].
    + replace per_kind with (per_kind + 0)%nat by lia.
      apply requests_within_bind; [apply Htry|].
      intros [?|?]; [apply requests_within_ret | apply requests_within_throw].
    + replace per_kind with (per_kind + 0)%nat by lia.
      apply requests_within_bind; [apply Htry|].
      intros [?|?]; [apply requests_within_ret | apply requests_within_throw].
Qed.

End Discipline.

End RequestFacts.

Module HelperRequestFacts.
Import Str StrFacts RequestFacts.

Section Helper.

Context `{Network}.

Lemma keeps_fs_helper_tryFetch url headers : keeps_fs (helper_tryFetch url headers).
Proof.
  unfold helper_tryFetch. apply keeps_fs_bind; [apply keeps_fs_do_fetch|].
  intros res. destruct (negb (res_ok res)); [apply keeps_fs_throw | apply keeps_fs_lift].
Qed.

Lemma requests_within_helper_tryFetch (P : Exchange -> Prop) url headers :
  (forall r, P (mkExchange url (h_authorization headers) r)) ->
  requests_within 1 P (helper_tryFetch url headers).
Proof.
  intros HP. unfold helper_tryFetch.
  apply (requests_within_bind 1 0); [by apply requests_within_do_fetch|].
  intros res. destruct (negb (res_ok res));
    [apply requests_within_throw | apply requests_within_lift].
Qed.

Lemma keeps_fs_tryRepoType cleanToken repoId rev fp type :
  keeps_fs (tryRepoType cleanToken repoId rev fp type).
Proof.
  unfold tryRepoType. destruct (nonempty cleanToken).
  - apply keeps_fs_try_catch; [|intros e]; apply keeps_fs_helper_tryFetch.
  - apply keeps_fs_helper_tryFetch.
Qed.

Lemma requests_within_tryRepoType cleanToken repoId rev fp type :
  requests_within (if nonempty cleanToken then 2 else 1)
    (fun x => ex_url x = helper_buildUrl repoId rev fp type)
    (tryRepoType cleanToken repoId rev fp type).
Proof.
  unfold tryRepoType. destruct (nonempty cleanToken).
  - apply (requests_within_try_catch 1 1); [|intros e];
      by apply requests_within_helper_tryFetch.
  - by apply requests_within_helper_tryFetch.
Qed.

(** X9.  A download of the helper script never touches the file system.
    Per repository kind it makes one request, or two with a token, always
    for the one forced-download URL of that kind.  With the kind [datasets]
    or [models] only that kind is requested; with any other kind the
    datasets URL comes first and the models URL is requested only after the
    datasets requests failed. *)
Theorem helper_download_request_discipline (repoId revision filePath repoType token : string) :
  let cleanToken := sanitizeToken (str_or token "") in
  let rev := encodeURIComponent (str_or revision "main") in
  let fp := encodeHFPath filePath in
  let per_kind := if nonempty cleanToken then 2%nat else 1%nat in
  let download := helper_downloadHFFileAsBuffer repoId revision filePath repoType token in
  keeps_fs download
  /\ (repoType = "datasets" \/ repoType = "models" ->
      requests_within per_kind
        (fun x => ex_url x = helper_buildUrl repoId rev fp repoType) download)
  /\ (repoType <> "datasets" -> repoType <> "models" ->
      forall w, exists ld lm : list Exchange,
        w_log (snd (download w)) = w_log w ++ ld ++ lm
        /\ (length ld <= per_kind)%nat /\ (length lm <= per_kind)%nat
        /\ Forall (fun x => ex_url x = helper_buildUrl repoId rev fp "datasets") ld
        /\ Forall (fun x => ex_url x = helper_buildUrl repoId rev fp "models") lm
        /\ (lm <> [] ->
            exists e w1, tryRepoType cleanToken repoId rev fp "datasets" w = (Thrown e, w1))).
Proof.
  intros cleanToken rev fp per_kind download. subst download.
  unfold helper_downloadHFFileAsBuffer. fold cleanToken rev fp.
  split; [|split].
  - destruct (_ || _).
    + apply keeps_fs_tryRepoType.
    + apply keeps_fs_try_catch; [|intros e]; apply keeps_fs_tryRepoType.
  - intros Hkind.
    assert (String.eqb repoType "datasets" || String.eqb repoType "models" = true) as ->
      by (by destruct Hkind as [-> | ->]).
    apply requests_within_tryRepoType.
  - intros Hd Hm w.
    apply String.eqb_neq in Hd, Hm. rewrite Hd, Hm. simpl. unfold try_catch.
    destruct (requests_within_tryRepoType cleanToken repoId rev fp "datasets" w)
      as (ld & Hlogd & Hlend & Halld).
    destruct (tryRepoType cleanToken repoId rev fp "datasets" w) as [[buf|e] w1] eqn:Hrun.
    + exists ld, []. rewrite app_nil_r. simpl in *.
      split; [done|]. split; [done|]. split; [lia|]. by repeat split.
    + destruct (requests_within_tryRepoType cleanToken repoId rev fp "models" w1)
        as (lm & Hlogm & Hlenm & Hallm).
      exists ld, lm. simpl in *. rewrite Hlogm, Hlogd, app_assoc.
      split; [done|]. split; [done|]. split; [done|]. split; [done|]. split; [done|].
      intros _. by exists e, w1.
Qed.

End Helper.

End HelperRequestFacts.

(** ** What the validator lets through *)

Module ValidatedFacts.

Section Validated.

Context `{NodeLib} `{Network}.

(** X10.  With the parquet check on, the route hands a buffer on only if it
    has at least eight bytes and passes the magic check; that buffer is the
    downloaded body, or its decompressed form when the answer declared
    gzip.  A download that returns bytes has not thrown in the fetcher, and
    the validation changes nothing in the world. *)
Theorem only_parquet_passes (hf_token_row : option string)
  (repoId revision filePath : string) (repoType : HFRepoType)
  (w w' : World) (buf : Buf.buffer) :
  downloadHFFileAsBuffer hf_token_row repoId revision filePath repoType true w
  = (Returned buf, w') ->
  isParquetBuffer buf = true
  /\ (8 <= length buf)%nat
  /\ exists out,
       downloadHFFile hf_token_row repoId revision filePath repoType w = (Returned out, w')
       /\ (buf = ok_buf out
           \/ (declares_gzip (ok_contentEncoding out) (ok_contentType out) = true
               /\ gunzipSync (ok_buf out) = Returned buf)).
Proof.
  unfold downloadHFFileAsBuffer, bind, lift.
  destruct (downloadHFFile _ _ _ _ _ w) as [[out|e] w1]; [|discriminate].
  unfold validate_download. simpl.
  destruct (isParquetBuffer (maybeGunzip _ _ _)) eqn:Hmagic; [|discriminate].
  simpl. intros [= <- <-]. split; [done|].
  split; [by apply isParquetBuffer_spec in Hmagic as [? _]|].
  exists out. split; [done|]. unfold maybeGunzip.
  destruct (declares_gzip _ _); [|by left].
  destruct (gunzipSync (ok_buf out)) as [plain|e] eqn:Hgz; [by right | by left].
Qed.

End Validated.

End ValidatedFacts.

(** ** The helper script and its two resources *)

Module EffectFacts.
Import Str StrFacts RequestFacts HelperRequestFacts.

Section Stays.

Context `{Network}.
Variable R : World -> World -> Prop.
Context `{!PreOrder R}.

Lemma stays_pure {A} (m : M A) : (forall w, snd (m w) = w) -> stays R m.
Proof. intros Hm w. by rewrite Hm. Qed.

Lemma stays_ret {A} (a : A) : stays R (ret a).
Proof. by apply stays_pure. Qed.

Lemma stays_throw {A} (e : JsError) : stays R (throw (A := A) e).
Proof. by apply stays_pure. Qed.

Lemma stays_lift {A} (o : outcome A) : stays R (lift o).
Proof. by apply stays_pure. Qed.

Lemma stays_bind {A B} (m : M A) (k : A -> M B) :
  stays R m -> (forall a, stays R (k a)) -> stays R (bind m k).
Proof.
  intros Hm Hk w. unfold bind. specialize (Hm w).
  destruct (m w) as [[a|e] w1]; simpl in *; [|done].
  etrans; [exact Hm | apply Hk].
Qed.

Lemma stays_try_catch {A} (m : M A) (h : JsError -> M A) :
  stays R m -> (forall e, stays R (h e)) -> stays R (try_catch m h).
Proof.
  intros Hm Hh w. unfold try_catch. specialize (Hm w).
  destruct (m w) as [[a|e] w1]; simpl in *; [done|].
  etrans; [exact Hm | apply Hh].
Qed.

End Stays.

(** Closes a goal [stays R m] where [m] leaves the world as it is. *)
Ltac stays_leaf :=
  first [apply stays_ret | apply stays_throw | apply stays_lift
        | apply stays_pure; [|done] ];
  apply _.

Section Relations.

Context `{Network}.

#[export] Instance same_requests_preorder : PreOrder same_requests.
Proof.
  split.
  - by intros w.
  - intros w1 w2 w3 [Hn1 Hl1] [Hn2 Hl2]. split; congruence.
Qed.

Lemma grown_from_refl (fs : filesystem) : grown_from fs fs.
Proof. intros p n Hp. by left. Qed.

Lemma grown_from_trans (fs1 fs2 fs3 : filesystem) :
  grown_from fs1 fs2 -> grown_from fs2 fs3 -> grown_from fs1 fs3.
Proof.
  intros H12 H23 p n Hp.
  destruct (H12 p n Hp) as [Hkept | (Htxt & c & c' & -> & Hnew)].
  - apply (H23 p n Hkept).
  - right. split; [done|]. exists c.
    destruct (H23 p _ Hnew) as [Hkept | (_ & c1 & c2 & _ & Hnew')]; eauto.
Qed.

#[export] Instance files_grown_preorder : PreOrder files_grown.
Proof.
  split.
  - intros w. apply grown_from_refl.
  - intros w1 w2 w3. apply grown_from_trans.
Qed.

Lemma grown_from_insert_free (fs : filesystem) (p : string) (n : node) :
  fs !! p = None -> grown_from fs (<[p := n]> fs).
Proof.
  intros Hfree q m Hq. left.
  rewrite lookup_insert_ne; [done|]. intros ->. congruence.
Qed.

Lemma grown_from_insert_txt (fs : filesystem) (p : string) (data : Buf.buffer) :
  endsWith p ".txt" = true -> fs !! p <> Some Dir ->
  grown_from fs (<[p := File data]> fs).
Proof.
  intros Htxt Hdir q m Hq. destruct (decide (q = p)) as [->|Hne].
  - right. split; [done|]. destruct m as [c|]; [|done].
    exists c, data. by rewrite lookup_insert_eq.
  - left. by rewrite lookup_insert_ne.
Qed.

Lemma keeps_fs_files_grown {A} (m : M A) : keeps_fs m -> stays files_grown m.
Proof.
  intros Hm w. unfold files_grown. rewrite Hm. apply grown_from_refl.
Qed.

End Relations.

End EffectFacts.

Module ImportFacts.
Import Str StrFacts RequestFacts HelperRequestFacts EffectFacts.

Section RowEffects.

Context `{NodeLib} `{Network}.

Lemma keeps_fs_helper_download repoId revision filePath repoType token :
  keeps_fs (helper_downloadHFFileAsBuffer repoId revision filePath repoType token).
Proof.
  unfold helper_downloadHFFileAsBuffer. destruct (_ || _).
  - apply keeps_fs_tryRepoType.
  - apply keeps_fs_try_catch; [|intros e]; apply keeps_fs_tryRepoType.
Qed.

Lemma keeps_fs_imageBytes_of args env imageValue :
  keeps_fs (imageBytes_of args env imageValue).
Proof.
  unfold imageBytes_of. destruct (coerceToBuffer _); [apply keeps_fs_ret|].
  destruct (_ && _); [|apply keeps_fs_ret].
  apply keeps_fs_bind; [apply keeps_fs_helper_download|].
  intros buf. apply keeps_fs_ret.
Qed.

Lemma existsSync_false (fs : filesystem) (p : string) :
  existsSync fs p = false -> fs !! p = None.
Proof. unfold existsSync. by destruct (fs !! p). Qed.

(** The two writes of a row after the allocation of the image path. *)
Lemma writes_of_row (dir baseName ext : string) (bytes caption : Buf.buffer)
  (w w' : World) (r : RowEnd) :
  (let* absImagePath := m_uniquePath dir baseName ext in
   let* _ := m_writeFileSync absImagePath bytes in
   let* _ := m_writeFileSync (getSidecarCaptionPath absImagePath) caption in
   ret RowImported) w = (Returned r, w') ->
  exists p,
    uniquePath (w_fs w) dir baseName ext = Returned p
    /\ w_fs w !! p = None
    /\ w_fs w !! parent_of p = Some Dir
    /\ w' = mkWorld (w_net w) (w_log w)
              (<[getSidecarCaptionPath p := File caption]> (<[p := File bytes]> (w_fs w))).
Proof.
  unfold bind, m_uniquePath, m_writeFileSync, ret. cbv beta.
  destruct (uniquePath (w_fs w) dir baseName ext) as [p|e] eqn:Hp; [|discriminate].
  pose proof (existsSync_false _ _ (WriterFacts.uniquePath_returns_free _ _ _ _ _ Hp))
    as Hfree.
  destruct (writeFileSync (w_fs w) p bytes) as [fs1|e] eqn:Hw1; [|discriminate].
  cbn [w_fs w_net w_log].
  destruct (writeFileSync fs1 (getSidecarCaptionPath p) caption) as [fs2|e] eqn:Hw2;
    [|discriminate].
  intros [= _ <-].
  apply WriterFacts.writeFileSync_Returned in Hw1 as (-> & Hdir & _).
  apply WriterFacts.writeFileSync_Returned in Hw2 as (-> & _ & _).
  by exists p.
Qed.

Lemma uniquePath_in_dir (fs : filesystem) (dir baseName ext p : string) :
  uniquePath fs dir baseName ext = Returned p ->
  exists name, p = path_join dir name /\ StrX.all is_safe_char name = true.
Proof.
  pose proof (NameFacts.sanitizeFileName_all_safe baseName) as Hbase.
  assert (StrX.all is_safe_char (safeExt_of ext) = true) as Hext
    by apply NameFacts.sanitizeFileName_all_safe.
  unfold uniquePath.
  destruct (existsSync fs (plain_candidate dir baseName ext)); cbn [negb].
  - destruct (uniquePath_loop _ _ _ _ _ _) as [c|] eqn:Hloop; [|discriminate].
    intros [= <-].
    destruct (WriterFacts.uniquePath_loop_Some _ _ _ _ _ _ _ Hloop) as (k & _ & -> & _).
    eexists. split; [reflexivity|]. unfold safeBase_of.
    by rewrite !NameFacts.all_app, Hbase, NameFacts.of_nat_safe, Hext.
  - intros [= <-]. eexists. split; [reflexivity|]. unfold safeBase_of.
    by rewrite NameFacts.all_app, Hbase, Hext.
Qed.

Lemma getSidecarCaptionPath_txt (p : string) :
  endsWith (getSidecarCaptionPath p) ".txt" = true.
Proof. apply endsWith_spec. by exists (strip_extension p). Qed.

Lemma stays_grown_writes (dir baseName ext : string) (bytes caption : Buf.buffer) :
  stays files_grown
    (let* absImagePath := m_uniquePath dir baseName ext in
     let* _ := m_writeFileSync absImagePath bytes in
     let* _ := m_writeFileSync (getSidecarCaptionPath absImagePath) caption in
     ret RowImported).
Proof.
  intros w. unfold files_grown, bind, m_uniquePath, m_writeFileSync, ret. cbv beta.
  destruct (uniquePath (w_fs w) dir baseName ext) as [p|e] eqn:Hp;
    [|apply grown_from_refl].
  pose proof (existsSync_false _ _ (WriterFacts.uniquePath_returns_free _ _ _ _ _ Hp))
    as Hfree.
  destruct (writeFileSync (w_fs w) p bytes) as [fs1|e] eqn:Hw1;
    [|apply grown_from_refl].
  apply WriterFacts.writeFileSync_Returned in Hw1 as (-> & _ & _).
  cbn [w_fs w_net w_log].
  destruct (writeFileSync _ (getSidecarCaptionPath p) caption) as [fs2|e] eqn:Hw2;
    cbn [snd w_fs]; [|by apply grown_from_insert_free].
  apply WriterFacts.writeFileSync_Returned in Hw2 as (-> & _ & Hnodir).
  eapply grown_from_trans; [by apply grown_from_insert_free|].
  by apply grown_from_insert_txt; [apply getSidecarCaptionPath_txt|].
Qed.

Lemma stays_grown_row_body args env dir table i :
  stays files_grown (row_body args env dir table i).
Proof.
  unfold row_body. destruct (negb _); [stays_leaf|].
  apply stays_bind; [apply _ | apply keeps_fs_files_grown, keeps_fs_imageBytes_of |].
  intros [bytes|]; [|stays_leaf].
  destruct (names_of_hint _) as [baseName0 extension0].
  apply stays_grown_writes.
Qed.

Lemma stays_row_step (R : World -> World -> Prop) `{!PreOrder R} args env dir table :
  (forall i, stays R (row_body args env dir table i)) ->
  forall acc i, stays R (row_step args env dir table acc i).
Proof.
  intros Hbody acc i. unfold row_step.
  apply stays_try_catch; [apply _| |intros e; stays_leaf].
  apply stays_bind; [apply _ | apply Hbody |].
  intros []; stays_leaf.
Qed.

Lemma stays_rows_from (R : World -> World -> Prop) `{!PreOrder R} args env dir table :
  (forall i, stays R (row_body args env dir table i)) ->
  forall n i acc, stays R (rows_from args env dir table n i acc).
Proof.
  intros Hbody n. induction n as [|n IH]; intros i acc; [stays_leaf|].
  cbn [rows_from]. apply stays_bind; [apply _ | apply stays_row_step; [apply _|done] |].
  intros acc'. apply IH.
Qed.

Lemma stays_load_table (R : World -> World -> Prop) `{!PreOrder R} args :
  stays R (load_table args).
Proof.
  unfold load_table. destruct (_ || _); [stays_leaf|].
  apply stays_bind; [apply _ | stays_leaf |]. intros _.
  apply stays_bind; [apply _ | stays_leaf |]. intros parquetBuffer.
  apply stays_bind; [apply _ | stays_leaf |]. intros table.
  stays_leaf.
Qed.

Lemma stays_main (R : World -> World -> Prop) `{!PreOrder R} args env :
  (forall dir table i, stays R (row_body args env dir table i)) ->
  stays R (main args env).
Proof.
  intros Hbody. unfold main.
  apply stays_bind; [apply _ | apply stays_load_table; apply _ |].
  intros [dir table]. apply stays_rows_from; [apply _|done].
Qed.

Lemma stays_requests_writeFileSync p data : stays same_requests (m_writeFileSync p data).
Proof.
  intros w. unfold m_writeFileSync. by destruct (writeFileSync _ _ _).
Qed.

Lemma stays_requests_writes (dir baseName ext : string) (bytes caption : Buf.buffer) :
  stays same_requests
    (let* absImagePath := m_uniquePath dir baseName ext in
     let* _ := m_writeFileSync absImagePath bytes in
     let* _ := m_writeFileSync (getSidecarCaptionPath absImagePath) caption in
     ret RowImported).
Proof.
  apply stays_bind; [apply _ | stays_leaf |]. intros p.
  apply stays_bind; [apply _ | apply stays_requests_writeFileSync |]. intros _.
  apply stays_bind; [apply _ | apply stays_requests_writeFileSync |]. intros _.
  stays_leaf.
Qed.

Lemma stays_requests_row_body args env dir table i :
  nonempty (or_default (arg_repoId args) "") = false ->
  stays same_requests (row_body args env dir table i).
Proof.
  intros Hrepo. unfold row_body. destruct (negb _); [stays_leaf|].
  apply stays_bind; [apply _ | |].
  - unfold imageBytes_of. destruct (coerceToBuffer _); [stays_leaf|].
    rewrite Hrepo, andb_false_r. stays_leaf.
  - intros [bytes|]; [|stays_leaf].
    destruct (names_of_hint _) as [baseName0 extension0].
    apply stays_requests_writes.
Qed.

(** X11.  A row that is imported wrote exactly two files.  Its image
    bytes are those that the row gave (embedded or downloaded).  The image
    path is what [uniquePath] returned, in the file system as the row found
    it, for the dataset directory, the base name (that of the path hint,
    else the digest of the bytes) and the extension (that of the path hint,
    else the detected one, else [jpg]): it was free, its directory exists,
    and it lies directly in the dataset directory under a name of safe
    characters only, whatever the path hint of the row is.  The row wrote the
    bytes there and then the caption (empty when the row has none) at the
    sidecar path of that path.  Nothing else of the file system changed, and
    the path holds the image afterwards unless it is its own sidecar path.
    A row that is skipped changed nothing at all. *)
Theorem imported_row_writes_image_and_caption args env dir table (i : nat) (w w' : World)
  (r : RowEnd) :
  row_body args env dir table i w = (Returned r, w') ->
  match r with
  | RowSkipped => w' = w
  | RowImported =>
      exists (p : string) (bytes : Buf.buffer) (w1 : World),
        let imageValue := pickImageColumn (getRow table (i - 1)) in
        let caption :=
          Buf.from_utf8 (default "" (pickCaptionColumn (getRow table (i - 1)))) in
        let hint :=
          names_of_hint (if Js.truthy (Js.prop imageValue "path")
                         then js_String (Js.prop imageValue "path") else "") in
        let baseName := str_or (default "" (fst hint)) (md5Hex bytes) in
        let extension :=
          str_or (default "" (snd hint))
                 (or_default (inferExtensionFromBytes bytes) "jpg") in
        imageBytes_of args env imageValue w = (Returned (Some bytes), w1)
        /\ uniquePath (w_fs w) dir baseName ("." +:+ extension) = Returned p
        /\ existsSync (w_fs w) p = false
        /\ w_fs w !! parent_of p = Some Dir
        /\ (exists name, p = path_join dir name /\ StrX.all is_safe_char name = true)
        /\ w_fs w' = <[getSidecarCaptionPath p := File caption]>
                       (<[p := File bytes]> (w_fs w))
        /\ w_net w' = w_net w1 /\ w_log w' = w_log w1
        /\ w_fs w' !! getSidecarCaptionPath p = Some (File caption)
        /\ (getSidecarCaptionPath p <> p -> w_fs w' !! p = Some (File bytes))
        /\ forall q, q <> p -> q <> getSidecarCaptionPath p -> w_fs w' !! q = w_fs w !! q
  end.
Proof.
  unfold row_body. destruct (negb _).
  { intros [= <- <-]. done. }
  unfold bind at 1.
  pose proof (keeps_fs_imageBytes_of args env
                (pickImageColumn (getRow table (i - 1))) w) as Hfs.
  destruct (imageBytes_of _ _ _ w) as [[[bytes|]|e] w1] eqn:Hbytes; [|discriminate..].
  simpl in Hfs. intros Hrun. destruct r.
  - revert Hrun. cbv zeta. destruct (names_of_hint _) as [baseName0 extension0].
    cbn [fst snd]. intros Hrun.
    apply writes_of_row in Hrun as (p & Hp & Hfree & Hdir & ->).
    exists p, bytes, w1. rewrite <- Hfs. cbn [w_fs w_net w_log].
    split; [done|]. split; [done|].
    split; [by unfold existsSync; rewrite Hfree|].
    split; [done|].
    split; [by eapply uniquePath_in_dir|].
    split; [done|]. split; [done|]. split; [done|].
    split; [by rewrite lookup_insert_eq|]. split.
    + intros Hne. by rewrite lookup_insert_ne, lookup_insert_eq.
    + intros q Hq Hqs. by rewrite !lookup_insert_ne.
  - revert Hrun. destruct (names_of_hint _) as [baseName0 extension0].
    unfold bind, m_uniquePath, m_writeFileSync, ret.
    destruct (uniquePath _ _ _ _); [|discriminate].
    destruct (writeFileSync _ _ _); [|discriminate]. cbn [w_fs].
    destruct (writeFileSync _ _ _); discriminate.
Qed.

(** X12.  When no repository is given ([--repoId] absent or empty), the
    helper script makes no request at all, whatever the rows hold and
    however the run ends: the remote side and the list of the requests are
    the same after [main]. *)
Theorem main_without_repoId_stays_offline args env :
  nonempty (or_default (arg_repoId args) "") = false ->
  stays same_requests (main args env).
Proof.
  intros Hrepo. apply stays_main; [apply _|].
  intros dir table i. by apply stays_requests_row_body.
Qed.

(** X13.  Whatever the table holds and however the run ends, [main] of the
    helper script only adds to the file system: every path that existed
    still exists with the same node, except that a file whose name ends
    with [.txt] may have been rewritten by a caption.  No directory and no
    file of another name (the images of earlier runs, the parquet file) is
    removed or changed. *)
Theorem main_only_adds_files args env (w : World) :
  grown_from (w_fs w) (w_fs (snd (main args env w)))
  /\ forall p n, w_fs w !! p = Some n ->
       (endsWith p ".txt" = false \/ n = Dir) ->
       w_fs (snd (main args env w)) !! p = Some n.
Proof.
  assert (grown_from (w_fs w) (w_fs (snd (main args env w)))) as Hgrown.
  { apply (stays_main files_grown). intros dir table i.
    apply stays_grown_row_body. }
  split; [done|]. intros p n Hp Hkeep.
  destruct (Hgrown p n Hp) as [Hkept | (Htxt & c & c' & -> & _)]; [done|].
  destruct Hkeep as [Hno | ?]; congruence.
Qed.

End RowEffects.

End ImportFacts.

(** ** Requests of a run of the helper script *)

Module BudgetFacts.
Import Str StrFacts RequestFacts HelperRequestFacts EffectFacts ImportFacts.

Section Budget.

Context `{NodeLib} `{Network}.

Lemma helper_buildUrl_host repoId rev fp type :
  startsWith (helper_buildUrl repoId rev fp type) "https://huggingface.co/" = true.
Proof.
  unfold helper_buildUrl, startsWith. destruct (String.eqb type "datasets").
  - change ("https://huggingface.co/datasets/" +:+ repoId +:+ "/resolve/" +:+ rev
            +:+ "/" +:+ fp +:+ "?download=true")
      with ("https://huggingface.co/" +:+ "datasets/" +:+ repoId +:+ "/resolve/"
            +:+ rev +:+ "/" +:+ fp +:+ "?download=true").
    by rewrite strip_prefix_app.
  - by rewrite strip_prefix_app.
Qed.

(** A request to Hugging Face, without a token or with the token [t]. *)
Local Abbreviation to_hub t :=
  (fun x : Exchange =>
     startsWith (ex_url x) "https://huggingface.co/" = true
     /\ (ex_authorization x = None
         \/ (nonempty t = true /\ ex_authorization x = Some ("Bearer " +:+ t)))).

Lemma requests_within_tryRepoType_hub cleanToken repoId rev fp type :
  requests_within (if nonempty cleanToken then 2 else 1) (to_hub cleanToken)
    (tryRepoType cleanToken repoId rev fp type).
Proof.
  unfold tryRepoType, headersWithAuth_of.
  destruct (nonempty cleanToken) eqn:Htoken.
  - apply (requests_within_try_catch 1 1); [|intros e];
      apply requests_within_helper_tryFetch; intros r;
      (split; [apply helper_buildUrl_host|]); cbn [ex_authorization h_authorization];
      [by right | by left].
  - apply requests_within_helper_tryFetch. intros r.
    split; [apply helper_buildUrl_host | by left].
Qed.

Lemma requests_within_helper_download repoId revision filePath repoType token :
  let cleanToken := sanitizeToken (str_or token "") in
  requests_within (if nonempty cleanToken then 4 else 2) (to_hub cleanToken)
    (helper_downloadHFFileAsBuffer repoId revision filePath repoType token).
Proof.
  intros cleanToken. unfold helper_downloadHFFileAsBuffer. fold cleanToken.
  pose proof (requests_within_tryRepoType_hub cleanToken) as Hkind.
  destruct (_ || _).
  - eapply requests_within_weaken; [| |apply Hkind]; [|done].
    destruct (nonempty cleanToken); lia.
  - destruct (nonempty cleanToken).
    + apply (requests_within_try_catch 2 2); [|intros e]; apply Hkind.
    + apply (requests_within_try_catch 1 1); [|intros e]; apply Hkind.
Qed.

Lemma requests_within_same_requests {A} n (P : Exchange -> Prop) (m : M A) :
  stays same_requests m -> requests_within n P m.
Proof.
  intros Hm w. destruct (Hm w) as [_ Hlog]. exists [].
  rewrite app_nil_r. split; [done|]. split; [cbn; lia | done].
Qed.

Section Rows.

Variable args : Args.
Variable env_HF_TOKEN : option string.

Local Abbreviation cleanToken :=
  (sanitizeToken (str_or (or_default (arg_hfToken args) (or_default env_HF_TOKEN "")) "")).
Local Abbreviation per_row := (if nonempty cleanToken then 4%nat else 2%nat).

Lemma requests_within_row_body dir table i :
  requests_within per_row (to_hub cleanToken) (row_body args env_HF_TOKEN dir table i).
Proof.
  unfold row_body. destruct (negb _); [apply requests_within_ret|].
  replace per_row with (per_row + 0)%nat by lia.
  apply requests_within_bind.
  - unfold imageBytes_of. destruct (coerceToBuffer _); [apply requests_within_ret|].
    destruct (_ && _); [|apply requests_within_ret].
    replace per_row with (per_row + 0)%nat by lia.
    apply requests_within_bind; [apply requests_within_helper_download|].
    intros buf. apply requests_within_ret.
  - intros [bytes|]; [|apply requests_within_throw].
    destruct (names_of_hint _) as [baseName0 extension0].
    apply requests_within_same_requests, stays_requests_writes.
Qed.

Lemma requests_within_rows_from dir table n i acc :
  requests_within (n * per_row) (to_hub cleanToken)
    (rows_from args env_HF_TOKEN dir table n i acc).
Proof.
  revert i acc. induction n as [|n IH]; intros i acc; [apply requests_within_ret|].
  cbn [rows_from]. replace (S n * per_row)%nat with (per_row + n * per_row)%nat by lia.
  apply requests_within_bind; [|intros acc'; apply IH].
  unfold row_step. replace per_row with (per_row + 0 + 0)%nat by lia.
  apply requests_within_try_catch; [|intros e; apply requests_within_ret].
  apply requests_within_bind; [apply requests_within_row_body|].
  intros []; apply requests_within_ret.
Qed.

(** X14.  A run of the helper script makes at most two requests per row of
    the table, four when a token is given ([--hfToken], else [HF_TOKEN] of
    the environment), and none when the table could not be loaded.  Every
    request goes to a URL under [https://huggingface.co/] and has either no
    [Authorization] header or [Bearer] followed by the cleaned token. *)
Theorem main_request_budget (w : World) :
  exists l : list Exchange,
    w_log (snd (main args env_HF_TOKEN w)) = w_log w ++ l
    /\ Forall (fun x =>
                 startsWith (ex_url x) "https://huggingface.co/" = true
                 /\ (ex_authorization x = None
                     \/ (nonempty cleanToken = true
                         /\ ex_authorization x = Some ("Bearer " +:+ cleanToken)))) l
    /\ match fst (load_table args w) with
       | Returned (_, table) => (length l <= numRows table * per_row)%nat
       | Thrown _ => l = []
       end.
Proof.
  unfold main, bind.
  pose proof (stays_load_table same_requests args w) as [_ Hlog].
  destruct (load_table args w) as [[[dir table]|e] w0]; cbn [fst snd] in *.
  - destruct (requests_within_rows_from dir table (numRows table) 1 (mkSummary 0 0 []) w0)
      as (l & Hl & Hlen & Hall).
    exists l. rewrite Hl, Hlog. by repeat split.
  - exists []. by rewrite app_nil_r, Hlog.
Qed.

End Rows.

End Budget.

End BudgetFacts.

(** ** Command line of the helper script *)

Module ArgvFacts.
Import Str StrFacts EffectFacts ImportFacts.

Lemma parseArgs_from_flag_words (out : gmap string (option string))
  (kvs : list (string * string)) :
  parseArgs_from out (flag_words kvs)
  = foldl (fun m kv => <[fst kv := Some (snd kv)]> m) out kvs.
Proof.
  revert out. induction kvs as [|[k v] kvs IH]; intros out; [done|].
  change (flag_words ((k, v) :: kvs)) with (("--" +:+ k) :: v :: flag_words kvs).
  cbn [parseArgs_from foldl fst snd]. by rewrite strip_prefix_app, IH.
Qed.

Lemma read_arg_foldl (kvs : list (string * string)) (key : string) :
  read_arg (foldl (fun m kv => <[fst kv := Some (snd kv)]> m) ∅ kvs) key
  = snd <$> last (filter (fun kv => fst kv = key) kvs).
Proof.
  induction kvs as [|[k v] kvs IH] using rev_ind.
  - done.
  - rewrite foldl_app, filter_app. cbn [foldl fst snd].
    destruct (decide (k = key)) as [->|Hne].
    + rewrite filter_cons_True by done. rewrite filter_nil, last_snoc.
      unfold read_arg. by rewrite lookup_insert_eq.
    + rewrite filter_cons_False by done. rewrite filter_nil, app_nil_r, <- IH.
      unfold read_arg. by rewrite lookup_insert_ne.
Qed.

Section Route.

Context `{NodeLib} `{Network}.

(** X15.  [parseArgs] of the helper script skips the two leading words and
    reads a command line made of [--key value] pairs: each of the keys that
    the script reads has the value of the last pair of that key, whatever
    the values are (a value that itself starts with [--] is still a value),
    and is [undefined] when no pair has the key.  For the command line that
    the route builds, the script sees exactly [datasetDir] and [parquetFile]
    and no repository, so its run makes no request. *)
Theorem parseArgs_reads_flag_value_pairs (execPath scriptPath : string)
  (kvs : list (string * string)) :
  let out := parseArgs (execPath :: scriptPath :: flag_words kvs) in
  (forall key, key ∈ arg_names ->
     read_arg out key = snd <$> last (filter (fun kv => fst kv = key) kvs))
  /\ forall datasetDir parquetPath env,
       let argv := route_argv execPath scriptPath datasetDir parquetPath in
       args_of (parseArgs argv)
       = mkArgs (Some datasetDir) (Some parquetPath) None None None None
       /\ stays same_requests (main_argv argv env).
Proof.
  intros out.
  assert (out = foldl (fun m kv => <[fst kv := Some (snd kv)]> m) ∅ kvs) as Hout
    by apply parseArgs_from_flag_words.
  split.
  - intros key _. rewrite Hout. apply read_arg_foldl.
  - intros datasetDir parquetPath env argv.
    assert (args_of (parseArgs argv)
            = mkArgs (Some datasetDir) (Some parquetPath) None None None None) as Hargs.
    { subst argv.
      change (route_argv execPath scriptPath datasetDir parquetPath)
        with (execPath :: scriptPath
              :: flag_words [("datasetDir", datasetDir); ("parquetFile", parquetPath)]).
      unfold parseArgs, args_of. cbn [drop]. rewrite drop_0.
      rewrite parseArgs_from_flag_words, !read_arg_foldl. reflexivity. }
    split; [done|]. unfold main_argv. rewrite Hargs.
    apply stays_main; [apply _|]. intros dir table i.
    by apply stays_requests_row_body.
Qed.

End Route.

End ArgvFacts.

(** ** Sidecar path *)

Module SidecarFacts.
Import Str StrFacts.

#[local] Arguments Ascii.eqb : simpl never.

Lemma strip_extension_extension (stem ext : string) :
  nonempty ext = true -> no_char "." ext = true -> no_char "/" ext = true ->
  strip_extension (stem +:+ "." +:+ ext) = stem.
Proof.
  intros Hne Hdot Hslash. change ("." +:+ ext) with (String "." ext).
  induction stem as [|c stem IH].
  - rewrite append_nil_l. cbn [strip_extension].
    by rewrite Ascii.eqb_refl, Hne, Hdot, Hslash.
  - rewrite append_cons. cbn [strip_extension].
    rewrite no_char_app. cbn [no_char]. rewrite Ascii.eqb_refl. cbn [negb].
    by rewrite andb_false_r, !andb_false_r, IH.
Qed.

Lemma strip_extension_no_dot (p : string) :
  no_char "." p = true -> strip_extension p = p.
Proof.
  induction p as [|c p IH]; [done|]. cbn [no_char strip_extension].
  intros [Hc Hp]%andb_true_iff. apply negb_true_iff in Hc.
  by rewrite Hc, IH.
Qed.

Lemma strip_extension_after_slash (dir name : string) :
  no_char "." name = true ->
  strip_extension (dir +:+ "/" +:+ name) = dir +:+ "/" +:+ name.
Proof.
  intros Hname. change ("/" +:+ name) with (String "/" name).
  induction dir as [|c dir IH].
  - rewrite append_nil_l. cbn [strip_extension].
    change (Ascii.eqb "/" ".") with false. cbn [andb].
    by rewrite strip_extension_no_dot.
  - rewrite append_cons. cbn [strip_extension].
    rewrite (no_char_app "/"). cbn [no_char]. rewrite Ascii.eqb_refl. cbn [negb].
    by rewrite !andb_false_r, IH.
Qed.

(** X16.  The sidecar path of an image path is the path with its extension
    replaced by [.txt]: the text after the last dot, when that text is not
    empty and has no dot and no slash.  So an image path with the extension
    [txt] is its own sidecar path, and two image paths that differ only in
    the extension have the same sidecar path.  When the last segment of the
    path has no dot, [.txt] is appended. *)
Theorem getSidecarCaptionPath_replaces_extension (stem ext : string) :
  nonempty ext = true -> no_char "." ext = true -> no_char "/" ext = true ->
  getSidecarCaptionPath (stem +:+ "." +:+ ext) = stem +:+ ".txt"
  /\ getSidecarCaptionPath (stem +:+ ".txt") = stem +:+ ".txt"
  /\ (forall ext', nonempty ext' = true -> no_char "." ext' = true ->
        no_char "/" ext' = true ->
        getSidecarCaptionPath (stem +:+ "." +:+ ext')
        = getSidecarCaptionPath (stem +:+ "." +:+ ext))
  /\ (forall dir name, no_char "." name = true ->
        getSidecarCaptionPath name = name +:+ ".txt"
        /\ getSidecarCaptionPath (dir +:+ "/" +:+ name) = dir +:+ "/" +:+ name +:+ ".txt").
Proof.
  intros Hne Hdot Hslash. unfold getSidecarCaptionPath.
  split; [by rewrite (strip_extension_extension stem ext)|].
  split.
  { change (strip_extension (stem +:+ ".txt"))
      with (strip_extension (stem +:+ "." +:+ "txt")).
    by rewrite (strip_extension_extension stem "txt"). }
  split.
  - intros ext' Hne' Hdot' Hslash'.
    by rewrite (strip_extension_extension stem ext),
               (strip_extension_extension stem ext').
  - intros dir name Hname. split.
    + by rewrite strip_extension_no_dot.
    + rewrite (strip_extension_after_slash dir name Hname).
      by rewrite !append_assoc.
Qed.

Lemma getSidecarCaptionPath_replaces_extension_witness :
  getSidecarCaptionPath "/data/cats/my_cat.jpg" = "/data/cats/my_cat.txt"
  /\ getSidecarCaptionPath "/data/cats/README" = "/data/cats/README.txt".
Proof.
  pose proof (getSidecarCaptionPath_replaces_extension "/data/cats/my_cat" "jpg"
                eq_refl eq_refl eq_refl) as (Hjpg & _ & _ & Hplain).
  split; [exact Hjpg|].
  exact (proj2 (Hplain "/data/cats" "README" eq_refl)).
Defined.

End SidecarFacts.

(** ** Settings of the server *)

Module SettingsFacts.
Import Str Settings.

Lemma cached_setting_hit (key dflt p : string) (c : cache) (db : database) :
  c !! key = Some p -> nonempty p = true -> cached_setting key dflt c db = (p, c).
Proof. intros Hc Hp. unfold cached_setting. by rewrite Hc, Hp. Qed.

Lemma cached_setting_stores (key dflt p : string) (c c1 : cache) (db : database) :
  cached_setting key dflt c db = (p, c1) ->
  nonempty p = true ->
  c1 !! key = Some p /\ forall key', key' <> key -> c1 !! key' = c !! key'.
Proof.
  unfold cached_setting. intros Hrun Hp.
  assert (forall v, (v, <[key := v]> c) = (p, c1) ->
                    c1 !! key = Some p
                    /\ forall key', key' <> key -> c1 !! key' = c !! key') as Hmiss.
  { intros v [= -> <-]. split; [by rewrite lookup_insert_eq|].
    intros key' Hne. by rewrite lookup_insert_ne. }
  destruct (c !! key) as [cached|] eqn:Hc; [|by apply Hmiss in Hrun].
  destruct (nonempty cached) eqn:Hcached; [|by apply Hmiss in Hrun].
  by injection Hrun as -> ->.
Qed.

Lemma cached_setting_other (key key' dflt' : string) (c c1 : cache) (db : database) :
  (forall k, k <> key -> c1 !! k = c !! k) -> key' <> key ->
  fst (cached_setting key' dflt' c1 db) = fst (cached_setting key' dflt' c db).
Proof.
  intros Hsame Hne. unfold cached_setting. rewrite (Hsame key' Hne).
  destruct (c !! key') as [cached|]; [|done]. by destruct (nonempty cached).
Qed.

Section Defaults.

Variables defaultDatasetsFolder defaultTrainFolder defaultDataRoot : string.

(** X17.  Once [getDatasetsRoot] has returned a (non-empty) folder, it
    returns that folder at every later call whatever the settings table
    holds by then, and leaves the cache as it is; only after [flushCache] is
    the table read again (its value when it has a non-empty one, else the
    default).  The call does not change what [getTrainingFolder] and
    [getDataRoot] return.  The token is not cached: [getHFToken] depends on
    the table alone. *)
Theorem getDatasetsRoot_cached_until_flush (c c1 : cache) (db : database) (p : string) :
  getDatasetsRoot defaultDatasetsFolder c db = (p, c1) ->
  nonempty p = true ->
  (forall db', getDatasetsRoot defaultDatasetsFolder c1 db' = (p, c1))
  /\ (forall db',
        fst (getDatasetsRoot defaultDatasetsFolder (flushCache c1) db')
        = str_or (default "" (db' !! "DATASETS_FOLDER")) defaultDatasetsFolder)
  /\ (forall db',
        fst (getTrainingFolder defaultTrainFolder c1 db')
        = fst (getTrainingFolder defaultTrainFolder c db')
        /\ fst (getDataRoot defaultDataRoot c1 db')
           = fst (getDataRoot defaultDataRoot c db'))
  /\ (forall db', getHFToken_of db' = trim (default "" (db' !! "HF_TOKEN"))).
Proof.
  unfold getDatasetsRoot, getTrainingFolder, getDataRoot. intros Hrun Hp.
  destruct (cached_setting_stores _ _ _ _ _ _ Hrun Hp) as [Hhit Hother].
  split; [intros db'; by apply cached_setting_hit|].
  split.
  - intros db'. unfold cached_setting, flushCache. rewrite lookup_empty.
    cbn [fst]. unfold str_or. destruct (db' !! "DATASETS_FOLDER") as [v|]; [done|].
    done.
  - split.
    + intros db'. split; by apply (cached_setting_other "DATASETS_FOLDER").
    + intros db'. unfold getHFToken_of, getHFToken, or_default.
      destruct (db' !! "HF_TOKEN") as [v|]; [|done]. cbn [default].
      by destruct (nonempty v) eqn:Hv; [|apply negb_false_iff, String.eqb_eq in Hv; subst].
Qed.

End Defaults.

Lemma getDatasetsRoot_cached_until_flush_witness :
  let db : database := {[ "DATASETS_FOLDER" := "/data" ]} in
  let db' : database := {[ "DATASETS_FOLDER" := "/mnt/new" ]} in
  let c1 := snd (getDatasetsRoot "/default" ∅ db) in
  getDatasetsRoot "/default" c1 db' = ("/data", c1)
  /\ fst (getDatasetsRoot "/default" (flushCache c1) db') = "/mnt/new".
Proof.
  intros db db' c1.
  pose proof (getDatasetsRoot_cached_until_flush "/default" "/train" "/root" ∅ c1 db "/data"
                eq_refl eq_refl) as (Hstale & Hflushed & _).
  split; [apply Hstale | apply Hflushed].
Defined.

End SettingsFacts.

(** ** Loss graph: colours and dataset names *)

Module LossGraphFacts.
Import Str StrFacts LossGraph.

#[local] Arguments Ascii.eqb : simpl never.

Lemma hashToIndex_range (str : string) (m : Z) :
  (0 < m)%Z -> (0 <= hashToIndex str m < m)%Z.
Proof.
  intros Hm. unfold hashToIndex. apply Z.rem_bound_pos; [apply Z.abs_nonneg | done].
Qed.

Lemma toInt32_range (z : Z) : (- 2 ^ 31 <= toInt32 z < 2 ^ 31)%Z.
Proof.
  unfold toInt32. pose proof (Z.mod_pos_bound z (2 ^ 32) eq_refl) as Hm.
  destruct (Z.ltb_spec (z mod 2 ^ 32) (2 ^ 31)); lia.
Qed.

(** X18.  Every key has a colour: [hashToIndex] with the length of the
    palette is an index of the palette, so [strokeForKey] is never
    [undefined] and returns one of the eight colours.  After at least one
    character the running hash is a signed 32-bit integer. *)
Theorem strokeForKey_is_a_palette_colour (key : string) :
  (exists colour, strokeForKey key = Some colour /\ colour ∈ PALETTE)
  /\ (0 <= hashToIndex key 8 < 8)%Z
  /\ (key <> "" -> forall h, - 2 ^ 31 <= hash_from h key < 2 ^ 31)%Z.
Proof.
  pose proof (hashToIndex_range key 8 eq_refl) as Hrange.
  split; [|split; [done|]].
  - unfold strokeForKey. change (Z.of_nat (length PALETTE)) with 8%Z.
    destruct (Z.ltb_spec (hashToIndex key 8) 0) as [Hneg|_]; [lia|].
    destruct (lookup_lt_is_Some_2 PALETTE (Z.to_nat (hashToIndex key 8)))
      as [colour Hcolour].
    { change (length PALETTE) with 8%nat. lia. }
    exists colour. split; [done|]. by eapply list_elem_of_lookup_2.
  - clear Hrange. induction key as [|c key IH]; [done|]. intros _ h. cbn [hash_from].
    destruct key as [|c' key'].
    + cbn [hash_from]. apply toInt32_range.
    + by apply IH.
Qed.

Lemma slashes_app (a b : string) : slashes (a +:+ b) = slashes a +:+ slashes b.
Proof.
  induction a as [|c a IH]; [done|]. rewrite append_cons. cbn [slashes].
  by rewrite IH, append_cons.
Qed.

Lemma slashes_fixed (s : string) : no_char backslash s = true -> slashes s = s.
Proof.
  induction s as [|c s IH]; [done|]. cbn [no_char slashes].
  intros [Hc Hs]%andb_true_iff. apply negb_true_iff in Hc. by rewrite Hc, IH.
Qed.

Lemma slashes_no_comma (s : string) :
  no_char "," s = true -> no_char "," (slashes s) = true.
Proof.
  induction s as [|c s IH]; [done|]. cbn [no_char slashes].
  intros [Hc Hs]%andb_true_iff. rewrite (IH Hs), andb_true_r.
  by destruct (Ascii.eqb c backslash).
Qed.

Lemma slashes_nonempty (s : string) : nonempty s = true -> nonempty (slashes s) = true.
Proof. by destruct s. Qed.

Lemma split_snoc sep (a b : string) :
  no_char sep b = true -> split sep (a +:+ String sep b) = split sep a ++ [b].
Proof.
  intros Hb. induction a as [|c a IH].
  - rewrite append_nil_l. cbn [split]. by rewrite Ascii.eqb_refl, split_no_char.
  - rewrite append_cons. cbn [split]. rewrite IH.
    destruct (Ascii.eqb c sep); [done|].
    pose proof (split_not_nil sep a). by destruct (split sep a).
Qed.

Lemma join_split sep (s : string) : join (String sep "") (split sep s) = s.
Proof.
  induction s as [|c s IH]; [done|]. cbn [split].
  pose proof (split_not_nil sep s) as Hnil.
  destruct (Ascii.eqb_spec c sep) as [->|Hne].
  - destruct (split sep s) as [|x xs]; [done|]. by rewrite join_cons2, IH.
  - destruct (split sep s) as [|x [|y ys]]; [done| |].
    + by rewrite <- IH.
    + rewrite join_cons2, <- IH, join_cons2. by rewrite append_cons.
Qed.

Lemma folder_of_path (dir file : string) :
  no_char "/" file = true -> starts_with_space dir = false -> trimEnd file = file ->
  folder_of (slashes dir +:+ String "/" file) = slashes dir.
Proof.
  intros Hfile Hdir Hend. unfold folder_of.
  assert (trim (slashes dir +:+ String "/" file) = slashes dir +:+ String "/" file)
    as ->.
  { unfold trim.
    assert (trimStart (slashes dir +:+ String "/" file)
            = slashes dir +:+ String "/" file) as ->.
    { destruct dir as [|c dir]; [done|]. cbn [starts_with_space] in Hdir.
      cbn [slashes]. rewrite append_cons. cbn [trimStart].
      destruct (Ascii.eqb c backslash); [done|]. by rewrite Hdir. }
    apply trimEnd_app; [done|]. cbn [trimEnd]. rewrite Hend.
    by destruct file. }
  rewrite split_snoc by done.
  pose proof (split_not_nil "/" (slashes dir)) as Hnil.
  assert ((1 <? length (split "/" (slashes dir) ++ [file]))%nat = true) as ->.
  { apply Nat.ltb_lt. rewrite length_app. cbn [length].
    destruct (split "/" (slashes dir)); [done|]. cbn [length]. lia. }
  unfold pop. rewrite removelast_last. apply (join_split "/").
Qed.

(** X19.  The dataset name of an image path is its folder.  For a path made
    of a folder, a separator (forward or backward slash) and a file name,
    where the folder has no comma and does not begin with white space and
    the file name has no separator and no comma and does not end with white
    space, [getDatasetFromPath] gives the folder with forward slashes.  For
    such a path followed by a comma and further paths (not empty), it gives
    the folder, then [ | ], then what it gives for the further paths. *)
Theorem getDatasetFromPath_is_the_folder (dir file : string) (sep : ascii) :
  sep = "/"%char \/ sep = backslash ->
  no_char "," dir = true -> no_char "," file = true ->
  no_char "/" file = true -> no_char backslash file = true ->
  starts_with_space dir = false -> trimEnd file = file ->
  getDatasetFromPath (Some (dir +:+ String sep file)) = slashes dir
  /\ forall others, nonempty others = true ->
       getDatasetFromPath (Some (dir +:+ String sep file +:+ "," +:+ others))
       = slashes dir +:+ " | " +:+ getDatasetFromPath (Some others).
Proof.
  intros Hsep Hdirc Hfilec Hfile Hfileb Hdir Hend.
  assert (slashes (dir +:+ String sep file) = slashes dir +:+ String "/" file) as Hclean.
  { rewrite slashes_app. cbn [slashes]. rewrite (slashes_fixed file Hfileb).
    by destruct Hsep as [-> | ->]. }
  assert (no_char "," (slashes dir +:+ String "/" file) = true) as Hcomma.
  { rewrite no_char_app, (slashes_no_comma dir Hdirc). cbn [no_char andb].
    by rewrite Hfilec. }
  assert (forall rest, nonempty ((dir +:+ String sep file) +:+ rest) = true) as Hne.
  { intros rest. by destruct dir. }
  split.
  - unfold getDatasetFromPath.
    pose proof (Hne "") as Hne1. rewrite append_empty_r in Hne1.
    rewrite Hne1, Hclean, split_no_char by done.
    cbn [List.map]. by rewrite folder_of_path.
  - intros others Hothers.
    assert (dir +:+ String sep file +:+ "," +:+ others
            = (dir +:+ String sep file) +:+ String "," others) as ->
      by (by rewrite append_assoc).
    unfold getDatasetFromPath. rewrite Hne, Hothers, slashes_app, Hclean.
    cbn [slashes]. change (Ascii.eqb "," backslash) with false. cbn iota.
    rewrite split_app by done. cbn [List.map]. rewrite folder_of_path by done.
    pose proof (split_not_nil "," (slashes others)) as Hnil.
    destruct (split "," (slashes others)) as [|x xs]; [done|].
    cbn [List.map]. by rewrite join_cons2.
Qed.

Lemma getDatasetFromPath_is_the_folder_witness :
  getDatasetFromPath (Some ("C:" +:+ String backslash "data"
                            +:+ String backslash "cats" +:+ String backslash "1.jpg"))
  = "C:/data/cats".
Proof.
  apply (getDatasetFromPath_is_the_folder
           ("C:" +:+ String backslash "data" +:+ String backslash "cats")
           "1.jpg" backslash); (by right) || reflexivity.
Defined.

End LossGraphFacts.

(** ** Sample runs *)

Module SampleRuns.
Import Str.
Import (hints) Sample.

(** The directory holds [my_cat.jpg]: the next image of that name is
    [my_cat_1.jpg]. *)
Lemma uniquePath_result_shape_witness :
  existsSync Sample.one_cat "/data/cats/my_cat_1.jpg" = false
  /\ exists name,
       "/data/cats/my_cat_1.jpg" = path_join "/data/cats" name
       /\ StrX.all is_safe_char name = true
       /\ no_char "/" name = true
       /\ startsWith name (sanitizeFileName "my_cat") = true
       /\ endsWith name (safeExt_of ".jpg") = true.
Proof.
  apply (NameFacts.uniquePath_result_shape Sample.one_cat "/data/cats" "my_cat" ".jpg").
  vm_compute. reflexivity.
Defined.

(** A download of the helper for the kind [auto], with a token. *)
Lemma helper_download_request_discipline_witness :
  "auto" <> "datasets" /\ "auto" <> "models"
  /\ forall w, exists ld lm : list Exchange,
       w_log (snd (helper_downloadHFFileAsBuffer "org/repo" "main" "imgs/dog.png"
                     "auto" "hf_abc" w))
       = w_log w ++ ld ++ lm
       /\ (length ld <= 2)%nat /\ (length lm <= 2)%nat.
Proof.
  assert ("auto" <> "datasets") as Hd by discriminate.
  assert ("auto" <> "models") as Hm by discriminate.
  split; [exact Hd|]. split; [exact Hm|]. intros w.
  destruct (proj2 (proj2 (HelperRequestFacts.helper_download_request_discipline
                            "org/repo" "main" "imgs/dog.png" "auto" "hf_abc"))
              Hd Hm w) as (ld & lm & Hlog & Hld & Hlm & _).
  exists ld, lm. split; [exact Hlog|]. split; [exact Hld | exact Hlm].
Defined.

(** The remote side answers the first request with a parquet file. *)
Lemma only_parquet_passes_witness :
  let w := Sample.world [Returned (Sample.ok_response Sample.parquet_file None)] ∅ in
  let run := downloadHFFileAsBuffer None "org/repo" "main" "data/train.parquet"
               datasets true w in
  fst run = Returned Sample.parquet_file
  /\ isParquetBuffer Sample.parquet_file = true
  /\ (8 <= length Sample.parquet_file)%nat.
Proof.
  intros w run.
  assert (run = (Returned Sample.parquet_file, snd run)) as Hrun
    by (vm_compute; reflexivity).
  split; [by rewrite Hrun|].
  destruct (ValidatedFacts.only_parquet_passes None "org/repo" "main"
              "data/train.parquet" datasets w (snd run) Sample.parquet_file Hrun)
    as (Hmagic & Hlen & _).
  split; [exact Hmagic | exact Hlen].
Defined.

(** The first row of the sample table is imported into an empty dataset
    directory: the image under the digest of its bytes, the caption beside
    it. *)
Lemma imported_row_writes_image_and_caption_witness :
  let w' := snd (row_body Sample.args None "/data/cats" Sample.table 1 Sample.start) in
  w_fs w' !! "/data/cats/digest4.jpg" = Some (File Sample.jpeg)
  /\ w_fs w' !! "/data/cats/digest4.txt" = Some (File (Buf.from_utf8 "a cat")).
Proof.
  intros w'.
  assert (row_body Sample.args None "/data/cats" Sample.table 1 Sample.start
          = (Returned RowImported, w')) as Hrun by (vm_compute; reflexivity).
  destruct (ImportFacts.imported_row_writes_image_and_caption Sample.args None
              "/data/cats" Sample.table 1 Sample.start w' RowImported Hrun)
    as (p & bytes & w1 & Hbytes & Hp & _ & _ & _ & _ & _ & _ & Hside & Himage & _).
  assert (imageBytes_of Sample.args None (pickImageColumn (getRow Sample.table (1 - 1)))
            Sample.start
          = (Returned (Some Sample.jpeg), Sample.start)) as Hgiven
    by (vm_compute; reflexivity).
  rewrite Hgiven in Hbytes. injection Hbytes as <- <-.
  vm_compute in Hp. injection Hp as <-.
  split.
  - apply Himage. discriminate.
  - exact Hside.
Defined.

Lemma main_without_repoId_stays_offline_witness :
  stays same_requests (main Sample.args None).
Proof.
  apply ImportFacts.main_without_repoId_stays_offline. reflexivity.
Defined.

(** The parquet file on the disk is still there after the import. *)
Lemma main_only_adds_files_witness :
  w_fs (snd (main Sample.args None Sample.start)) !! "/tmp/input.parquet"
  = Some (File Sample.parquet_file).
Proof.
  apply (proj2 (ImportFacts.main_only_adds_files Sample.args None Sample.start)).
  - vm_compute. reflexivity.
  - left. vm_compute. reflexivity.
Defined.

(** The repository is given twice: the second value is read. *)
Lemma parseArgs_reads_flag_value_pairs_witness :
  read_arg (parseArgs ["node"; "import-hf-parquet.mjs"; "--repoId"; "org/old";
                       "--repoId"; "org/repo"]) "repoId"
  = Some "org/repo".
Proof.
  etrans.
  - apply (proj1 (ArgvFacts.parseArgs_reads_flag_value_pairs
                    "node" "import-hf-parquet.mjs"
                    [("repoId", "org/old"); ("repoId", "org/repo")])).
    repeat constructor.
  - vm_compute. reflexivity.
Defined.

Lemma strokeForKey_is_a_palette_colour_witness :
  (- 2 ^ 31 <= LossGraph.hash_from 2166136261 "loss" < 2 ^ 31)%Z.
Proof.
  apply (proj2 (proj2 (LossGraphFacts.strokeForKey_is_a_palette_colour "loss"))).
  discriminate.
Defined.

End SampleRuns.
